(** * Gas route of the Farcaster gas checker

    A shallow embedding of [src/app/api/gas/route.ts]: the mock gas
    estimator [generateMockGasData] and the request handler [GET], with the
    fragment of ECMAScript they rely on; and of [handleSearch], the submit
    handler of the page's search form, which calls the route.

    - JavaScript numbers are IEEE-754 binary64 values: Rocq's primitive
      [float], whose operations are specified by [SpecFloat].
    - JavaScript strings are sequences of UTF-16 code units.
    - [Math.random], [fetch] and [console.error] are the handler's effects;
      they are threaded through an explicit [World]. *)

From Stdlib Require Import ZArith NArith List Bool Lia String Ascii Floats
  Permutation.
Import ListNotations.

Local Open Scope Z_scope.

(** ** The ECMAScript fragment *)

Module JS.

(** *** Strings *)

Definition code_unit := N.
Definition jsstring := list code_unit.

(** A string literal of the source (ASCII only). *)
Definition lit (s : string) : jsstring :=
  List.map N_of_ascii (list_ascii_of_string s).

(** [WhiteSpace] and [LineTerminator] code points, the characters
    [String.prototype.trim] strips. *)
Definition is_white_space (c : code_unit) : bool :=
  (  (c =? 0x09) || (c =? 0x0A) || (c =? 0x0B) || (c =? 0x0C) || (c =? 0x0D)
  || (c =? 0x20) || (c =? 0xA0) || (c =? 0x1680)
  || ((0x2000 <=? c) && (c <=? 0x200A))
  || (c =? 0x2028) || (c =? 0x2029) || (c =? 0x202F) || (c =? 0x205F)
  || (c =? 0x3000) || (c =? 0xFEFF))%N.

Fixpoint trimStart (s : jsstring) : jsstring :=
  match s with
  | c :: s' => if is_white_space c then trimStart s' else s
  | [] => []
  end.

Definition trimEnd (s : jsstring) : jsstring :=
  rev (trimStart (rev s)).

Definition trim (s : jsstring) : jsstring := trimEnd (trimStart s).

(** *** encodeURIComponent *)

(** The characters [encodeURIComponent] leaves alone: ASCII letters,
    digits and [- _ . ! ~ * ' ( )]. *)
Definition is_uri_unreserved (c : code_unit) : bool :=
  (  ((0x41 <=? c) && (c <=? 0x5A)) || ((0x61 <=? c) && (c <=? 0x7A))
  || ((0x30 <=? c) && (c <=? 0x39))
  || (c =? 0x2D) || (c =? 0x5F) || (c =? 0x2E) || (c =? 0x21) || (c =? 0x7E)
  || (c =? 0x2A) || (c =? 0x27) || (c =? 0x28) || (c =? 0x29))%N.

Definition hex_digit (d : N) : code_unit :=
  (if d <? 10 then 0x30 + d else 0x41 + (d - 10))%N.

Definition percent_byte (b : N) : jsstring :=
  [0x25; hex_digit (b / 16); hex_digit (b mod 16)]%N.

Definition utf8 (cp : N) : list N :=
  (if cp <? 0x80 then [cp]
   else if cp <? 0x800 then [0xC0 + cp / 64; 0x80 + cp mod 64]
   else if cp <? 0x10000 then
     [0xE0 + cp / 4096; 0x80 + (cp / 64) mod 64; 0x80 + cp mod 64]
   else
     [0xF0 + cp / 262144; 0x80 + (cp / 4096) mod 64;
      0x80 + (cp / 64) mod 64; 0x80 + cp mod 64])%N.

Definition percent_encode (cp : N) : jsstring :=
  flat_map percent_byte (utf8 cp).

Definition is_high_surrogate (c : code_unit) : bool :=
  ((0xD800 <=? c) && (c <=? 0xDBFF))%N.
Definition is_low_surrogate (c : code_unit) : bool :=
  ((0xDC00 <=? c) && (c <=? 0xDFFF))%N.

(** [None] stands for the [URIError] thrown on a lone surrogate. *)
Fixpoint encodeURIComponent (s : jsstring) : option jsstring :=
  match s with
  | [] => Some []
  | c :: s' =>
      if is_uri_unreserved c then
        option_map (cons c) (encodeURIComponent s')
      else if is_low_surrogate c then None
      else if is_high_surrogate c then
        match s' with
        | lo :: s'' =>
            if is_low_surrogate lo then
              option_map
                (app (percent_encode
                        ((c - 0xD800) * 0x400 + (lo - 0xDC00) + 0x10000)%N))
                (encodeURIComponent s'')
            else None
        | [] => None
        end
      else option_map (app (percent_encode c)) (encodeURIComponent s')
  end.

(** *** Numbers *)

Definition number := float.

(** The double nearest to an integer (exact below 2^53). *)
Definition of_Z (n : Z) : number :=
  SF2Prim (binary_normalize prec emax n 0 false).

(** [Math.floor]. *)
Definition floor (x : number) : number :=
  match Prim2SF x with
  | S754_finite s m e =>
      if 0 <=? e then x
      else if s then
        (- of_Z ((Z.pos m + 2 ^ (- e) - 1) / 2 ^ (- e)))%float
      else of_Z (Z.pos m / 2 ^ (- e))
  | _ => x
  end.

(** The strings [Number.prototype.toFixed] returns, kept symbolic: either
    the digits of an integer [n] with the point [f] places from the right
    (and a minus sign), or what [Number::toString] prints for a value that
    is not finite or is at least 10^21. *)
Inductive numeric_string :=
| FixedDecimal (neg : bool) (n : Z) (f : Z)
| NumberToString (x : number).

(** The integer [n] for which [n / 10^f - m * 2^e] is closest to zero, the
    larger one on a tie. *)
Definition nearest_scaled (m : positive) (e f : Z) : Z :=
  if 0 <=? e then Z.pos m * 2 ^ e * 10 ^ f
  else (2 * (Z.pos m * 10 ^ f) + 2 ^ (- e)) / (2 * 2 ^ (- e)).

Definition at_least_1e21 (m : positive) (e : Z) : bool :=
  if 0 <=? e then 10 ^ 21 <=? Z.pos m * 2 ^ e
  else 10 ^ 21 * 2 ^ (- e) <=? Z.pos m.

Definition toFixed (x : number) (f : Z) : numeric_string :=
  match Prim2SF x with
  | S754_zero _ => FixedDecimal false 0 f
  | S754_finite s m e =>
      if at_least_1e21 m e then NumberToString x
      else FixedDecimal s (nearest_scaled m e f) f
  | _ => NumberToString x
  end.

(** [Number(s)] on those strings: the double nearest to the decimal
    (ties to even), and the printed value itself otherwise, since
    [Number::toString] round-trips. *)
Definition Number (s : numeric_string) : number :=
  match s with
  | NumberToString x => x
  | FixedDecimal neg n f =>
      match n with
      | Z.pos p =>
          SF2Prim (SFdiv prec emax (S754_finite neg p 0)
                                   (S754_finite false (Z.to_pos (10 ^ f)) 0))
      | _ => if neg then (-0)%float else 0%float
      end
  end.

(** *** JSON *)

(** What is left of a number once [JSON.stringify], which
    [NextResponse.json] applies to the body, has written it and the client
    has parsed it: [null] (here [None]) for NaN and the infinities, [0] for
    [-0], and the number itself otherwise, since [Number::toString]
    round-trips. *)
Definition json_number (x : number) : option number :=
  match Prim2SF x with
  | S754_zero _ => Some 0%float
  | S754_finite _ _ _ => Some x
  | _ => None
  end.

End JS.

Import JS.

(** ** Data model *)

(** [GasInfo], the estimate attached to a wallet for one chain. *)
Record GasInfo := {
  gasUsed : number;
  gasCostETH : number;
  gasCostUSD : number
}.

(** A wallet as the backend sends it and as the route returns it; the two
    estimates are absent until the route attaches them. *)
Record Wallet := {
  address : jsstring;
  eth_tx_count : number;
  base_tx_count : number;
  eth_balance : number;
  is_primary : bool;
  gas_eth : option GasInfo;
  gas_base : option GasInfo
}.

(** The JSON object exchanged with the backend and returned to the client.
    A field that is absent (or [null]) is [None]; an absent [success] is
    falsy, hence [false].  The fields have the types the page declares for
    them: [wallets], when present, is an array of wallet objects whose
    counts are numbers. *)
Record GasData := {
  success : bool;
  username : option jsstring;
  fid : option Z;
  display_name : option jsstring;
  pfp_url : option jsstring;
  wallets : option (list Wallet);
  primary_wallet : option jsstring;
  total_gas_used_eth : option number;
  total_gas_used_base : option number;
  total_gas_usd : option number;
  error : option jsstring
}.

(** The second argument of [generateMockGasData]: ['eth' | 'base']. *)
Inductive Chain := eth | base.

(** What [NextResponse.json(body, { status })] builds: [body] is the object
    handed over.  The JSON text sent carries a number of that object as
    [json_number] gives it. *)
Record Response := {
  status : Z;
  body : GasData
}.

(** ** Effects *)

(** What can be thrown inside the handler's [try] block. *)
Inductive Thrown :=
| FetchFailed                   (* fetch rejects: connection refused, ... *)
| BackendError (status : Z)     (* new Error(`Backend error: ${status}`) *)
| InvalidJSON                   (* response.json() rejects *)
| URIError.                     (* encodeURIComponent on a lone surrogate *)

(** What [fetch] resolves to: the status line and the parsed body
    ([None] when the body is not JSON).  A body that is JSON is taken to be
    a report object of the declared shape, [GasData]; a body such as [null],
    or one whose [wallets] is not an array of objects, on which the
    handler's property accesses themselves throw, has no counterpart
    here. *)
Inductive FetchResult :=
| Rejected
| Resolved (status : Z) (json : option GasData).

(** The state the handler reads and writes: how many values [Math.random]
    has handed out, the URLs fetched, and what went to [console.error]. *)
Record World := {
  draws : nat;
  fetched : list jsstring;
  console : list Thrown
}.

Definition M (A : Type) : Type := World -> (A + Thrown) * World.

Definition ret {A} (a : A) : M A := fun w => (inl a, w).
Definition throw {A} (t : Thrown) : M A := fun w => (inr t, w).
Definition bind {A B} (m : M A) (k : A -> M B) : M B :=
  fun w => match m w with
           | (inl a, w') => k a w'
           | (inr t, w') => (inr t, w')
           end.
(** [try { m } catch (e) { handler e }], where the handler does not throw. *)
Definition try_catch {A} (m : M A) (handler : Thrown -> World -> A * World)
  : World -> A * World :=
  fun w => match m w with
           | (inl a, w') => (a, w')
           | (inr t, w') => handler t w'
           end.

Notation "x <- m ;; k" := (bind m (fun x => k))
  (at level 61, m at next level, right associativity).
Notation "' pat <- m ;; k" := (bind m (fun x => match x with pat => k end))
  (at level 61, pat pattern, m at next level, right associativity).

Definition console_error (t : Thrown) (w : World) : World :=
  {| draws := draws w; fetched := fetched w; console := console w ++ [t] |}.

#[local] Set Warnings "-inexact-float".

Section Route.

(** [process.env.BACKEND_URL || 'http://localhost:8000'], already resolved. *)
Variable BACKEND_URL : jsstring.

(** The values successive calls of [Math.random] return. *)
Variable random : nat -> number.

(** The backend, as seen through [fetch]. *)
Variable backend : jsstring -> FetchResult.

Definition Math_random : M number :=
  fun w => (inl (random (draws w)),
            {| draws := S (draws w); fetched := fetched w;
               console := console w |}).

Definition fetch (url : jsstring) : M (Z * option GasData) :=
  fun w => (match backend url with
            | Rejected => inr FetchFailed
            | Resolved st json => inl (st, json)
            end,
            {| draws := draws w; fetched := fetched w ++ [url];
               console := console w |}).

(** [response.ok] *)
Definition ok (status : Z) : bool := (200 <=? status) && (status <=? 299).

(** *** generateMockGasData *)

Definition zero_gas : GasInfo :=
  {| gasUsed := 0%float; gasCostETH := 0%float; gasCostUSD := 0%float |}.

Definition ethPrice : number := 3500%float.

(** [const avgGasPerTx = chain === 'eth' ? ... : ...], given the value
    [r] that [Math.random()] returned. *)
Definition avgGasPerTx (chain : Chain) (r : number) : number :=
  match chain with
  | eth => (floor (r * 80000) + 21000)%float
  | base => (floor (r * 30000) + 21000)%float
  end.

(** [const gasPrice = chain === 'eth' ? ... : ...], likewise. *)
Definition gasPrice (chain : Chain) (r : number) : number :=
  match chain with
  | eth => ((r * 30 + 20) * 1e9)%float
  | base => ((r * 0.009 + 0.001) * 1e9)%float
  end.

Definition generateMockGasData (txCount : number) (chain : Chain)
  : M GasInfo :=
  if (txCount =? 0)%float then ret zero_gas
  else
    r1 <- Math_random ;;
    let avgGasPerTx := avgGasPerTx chain r1 in
    r2 <- Math_random ;;
    let gasPrice := gasPrice chain r2 in
    let totalGasUsed := (avgGasPerTx * txCount)%float in
    let gasCostWei := (totalGasUsed * gasPrice)%float in
    let gasCostETH := (gasCostWei / 1e18)%float in
    let gasCostUSD := (gasCostETH * ethPrice)%float in
    ret {| gasUsed := totalGasUsed;
           gasCostETH := Number (toFixed gasCostETH 6);
           gasCostUSD := Number (toFixed gasCostUSD 2) |}.

(** *** GET *)

(** The three accumulators [totalGasETH], [totalGasBase], [totalGasUSD]. *)
Record Totals := {
  totalGasETH : number;
  totalGasBase : number;
  totalGasUSD : number
}.

Definition zero_totals : Totals :=
  {| totalGasETH := 0%float; totalGasBase := 0%float;
     totalGasUSD := 0%float |}.

(** [{ ...wallet, gas_eth: ethGas, gas_base: baseGas }] *)
Definition with_gas (wallet : Wallet) (ethGas baseGas : GasInfo) : Wallet :=
  {| address := address wallet;
     eth_tx_count := eth_tx_count wallet;
     base_tx_count := base_tx_count wallet;
     eth_balance := eth_balance wallet;
     is_primary := is_primary wallet;
     gas_eth := Some ethGas;
     gas_base := Some baseGas |}.

(** The callback of [data.wallets.map], with the accumulators it updates
    passed along. *)
Definition enrich (wallet : Wallet) (acc : Totals) : M (Wallet * Totals) :=
  ethGas <- generateMockGasData (eth_tx_count wallet) eth ;;
  baseGas <- generateMockGasData (base_tx_count wallet) base ;;
  ret (with_gas wallet ethGas baseGas,
       {| totalGasETH := (totalGasETH acc + gasCostETH ethGas)%float;
          totalGasBase := (totalGasBase acc + gasCostETH baseGas)%float;
          totalGasUSD :=
            (totalGasUSD acc + (gasCostUSD ethGas + gasCostUSD baseGas))%float
       |}).

(** [data.wallets.map(...)], left to right. *)
Fixpoint enrich_all (ws : list Wallet) (acc : Totals)
  : M (list Wallet * Totals) :=
  match ws with
  | [] => ret ([], acc)
  | wallet :: ws' =>
      '(wallet', acc') <- enrich wallet acc ;;
      '(rest, acc'') <- enrich_all ws' acc' ;;
      ret (wallet' :: rest, acc'')
  end.

(** The assignments to [data.wallets] and the three totals. *)
Definition with_totals (data : GasData) (ws : list Wallet) (t : Totals)
  : GasData :=
  {| success := success data;
     username := username data;
     fid := fid data;
     display_name := display_name data;
     pfp_url := pfp_url data;
     wallets := Some ws;
     primary_wallet := primary_wallet data;
     total_gas_used_eth := Some (Number (toFixed (totalGasETH t) 6));
     total_gas_used_base := Some (Number (toFixed (totalGasBase t) 6));
     total_gas_usd := Some (Number (toFixed (totalGasUSD t) 2));
     error := error data |}.

Definition error_body (message : jsstring) (user : option jsstring)
  : GasData :=
  {| success := false; username := user; fid := None;
     display_name := None; pfp_url := None; wallets := None;
     primary_wallet := None; total_gas_used_eth := None;
     total_gas_used_base := None; total_gas_usd := None;
     error := Some message |}.

Definition username_required : Response :=
  {| status := 400;
     body := error_body (lit "Username is required") None |}.

Definition backend_unavailable (user : jsstring) : Response :=
  {| status := 503;
     body := error_body
               (lit "Could not connect to backend. Make sure Python server is running on port 8000.")
               (Some user) |}.

(** The URL of the backend lookup. *)
Definition backend_url (query : jsstring) : jsstring :=
  BACKEND_URL ++ lit "/api/gas?username=" ++ query.

(** The body of the [try] block. *)
Definition lookup (user : jsstring) : M Response :=
  query <- match encodeURIComponent (trim user) with
           | Some q => ret q
           | None => throw URIError
           end ;;
  '(st, json) <- fetch (backend_url query) ;;
  if negb (ok st) then throw (BackendError st)
  else
    match json with
    | None => throw InvalidJSON
    | Some data =>
        match success data, wallets data with
        | true, Some ws =>
            '(ws', totals) <- enrich_all ws zero_totals ;;
            ret {| status := 200; body := with_totals data ws' totals |}
        | _, _ => ret {| status := 200; body := data |}
        end
    end.

(** [searchParams.get('username')] is [None] when the parameter is
    missing. *)
Definition GET (param : option jsstring) : World -> Response * World :=
  fun w =>
    match param with
    | None => (username_required, w)
    | Some user =>
        match trim user with
        | [] => (username_required, w)
        | _ :: _ =>
            try_catch (lookup user)
              (fun e w' => (backend_unavailable user, console_error e w')) w
        end
    end.

End Route.


(** ** Aggregation, as a function of the enriched wallets *)

(** The per-wallet amounts the route adds up.  A wallet without an estimate
    contributes nothing, as in the client's
    [wallet.gas_eth?.gasCostUSD || 0]. *)
Definition eth_cost (w : Wallet) : number :=
  match gas_eth w with Some g => gasCostETH g | None => 0%float end.

Definition base_cost (w : Wallet) : number :=
  match gas_base w with Some g => gasCostETH g | None => 0%float end.

Definition usd_of (g : option GasInfo) : number :=
  match g with Some g => gasCostUSD g | None => 0%float end.

Definition usd_cost (w : Wallet) : number :=
  (usd_of (gas_eth w) + usd_of (gas_base w))%float.

(** [sum f ws] adds [f w] for the wallets of [ws] from left to right,
    starting from [acc]: the order of the [+=] in the route. *)
Definition sum_from (f : Wallet -> number) (ws : list Wallet) (acc : number)
  : number :=
  fold_left (fun total w => (total + f w)%float) ws acc.

Definition sum (f : Wallet -> number) (ws : list Wallet) : number :=
  sum_from f ws 0%float.

Definition round6 (x : number) : number := Number (toFixed x 6).
Definition round2 (x : number) : number := Number (toFixed x 2).

(** The three totals of a list of enriched wallets:
    [total_gas_used_eth], [total_gas_used_base], [total_gas_usd]. *)
Definition aggregate (ws : list Wallet) : number * number * number :=
  (round6 (sum eth_cost ws), round6 (sum base_cost ws),
   round2 (sum usd_cost ws)).

(** The three totals of a body as the JSON sent carries them. *)
Definition sent (t : option number) : option number :=
  match t with
  | Some x => json_number x
  | None => None
  end.

Definition sent_totals (d : GasData)
  : option number * option number * option number :=
  (sent (total_gas_used_eth d), sent (total_gas_used_base d),
   sent (total_gas_usd d)).

(** The backend call made for a user fails: [fetch] rejects, the status is
    not 2xx, or the body is not JSON. *)
Definition backend_fails (backend : jsstring -> FetchResult) (url : jsstring)
  : Prop :=
  backend url = Rejected
  \/ (exists st json, backend url = Resolved st json /\ ok st = false)
  \/ (exists st, backend url = Resolved st None).

(** A failed lookup that carries the user name and an error message and
    nothing else. *)
Definition only_username_and_error (d : GasData) : Prop :=
  success d = false /\ username d <> None /\ error d <> None
  /\ fid d = None /\ display_name d = None /\ pfp_url d = None
  /\ wallets d = None /\ primary_wallet d = None
  /\ total_gas_used_eth d = None /\ total_gas_used_base d = None
  /\ total_gas_usd d = None.

(** ** The estimator as a function of its draws *)

(** [advance k w]: the world after [k] more calls of [Math.random]. *)
Definition advance (k : nat) (w : World) : World :=
  {| draws := k + draws w; fetched := fetched w; console := console w |}.

(** The estimate for a non-zero count, from the two values drawn. *)
Definition estimate (txCount : number) (chain : Chain) (r1 r2 : number)
  : GasInfo :=
  let totalGasUsed := (avgGasPerTx chain r1 * txCount)%float in
  let gasCostETH := (totalGasUsed * gasPrice chain r2 / 1e18)%float in
  {| gasUsed := totalGasUsed;
     gasCostETH := round6 gasCostETH;
     gasCostUSD := round2 (gasCostETH * ethPrice)%float |}.

(** [enriched random w ws ws' w']: from world [w], [ws'] is [ws] with, for
    each wallet in turn, the estimate for its [eth_tx_count] on [eth] and
    then for its [base_tx_count] on [base] attached, leaving world [w']. *)
Inductive enriched (random : nat -> number)
  : World -> list Wallet -> list Wallet -> World -> Prop :=
| enriched_nil w : enriched random w [] [] w
| enriched_cons w wallet ws ethGas baseGas w1 w2 ws' w3 :
    generateMockGasData random (eth_tx_count wallet) eth w = (inl ethGas, w1) ->
    generateMockGasData random (base_tx_count wallet) base w1
      = (inl baseGas, w2) ->
    enriched random w2 ws ws' w3 ->
    enriched random w (wallet :: ws) (with_gas wallet ethGas baseGas :: ws') w3.

(** [logged url w]: the world after [fetch url]. *)
Definition logged (url : jsstring) (w : World) : World :=
  {| draws := draws w; fetched := fetched w ++ [url]; console := console w |}.

(** [enriches random wallet wallet']: [wallet'] is [wallet] with an estimate
    for each chain attached, computed from the wallet's own counts, and
    every raw field as it was. *)
Definition enriches (random : nat -> number) (wallet wallet' : Wallet) : Prop :=
  address wallet' = address wallet
  /\ eth_tx_count wallet' = eth_tx_count wallet
  /\ base_tx_count wallet' = base_tx_count wallet
  /\ eth_balance wallet' = eth_balance wallet
  /\ is_primary wallet' = is_primary wallet
  /\ exists w1 w2 w3 ethGas baseGas,
       generateMockGasData random (eth_tx_count wallet) eth w1
         = (inl ethGas, w2)
       /\ generateMockGasData random (base_tx_count wallet) base w2
         = (inl baseGas, w3)
       /\ gas_eth wallet' = Some ethGas
       /\ gas_base wallet' = Some baseGas.

(** ** Binary64 values, for the arithmetic of the estimates *)

(** Where a fraction [rho / D] of the unit in the last place lies. *)
Definition loc_of (rho D : Z) : location :=
  if rho =? 0 then loc_Exact else loc_Inexact (2 * rho ?= D).

(** Rounding to nearest, ties to even, of [m + rho / D]. *)
Definition rne (m rho D : Z) : Z := round_nearest_even m (loc_of rho D).

(** The float built from a rounded mantissa [m] (at most 2^53) at exponent
    [e]. *)
Definition pack (s : bool) (m e : Z) : spec_float :=
  match m with
  | Z0 => S754_zero s
  | Z.pos p =>
      if Zdigits2 m <=? 53 then
        if e <=? 971 then S754_finite s p e else S754_infinity s
      else
        match m / 2 with
        | Z.pos q =>
            if e + 1 <=? 971 then S754_finite s q (e + 1) else S754_infinity s
        | _ => S754_nan
        end
  | Z.neg _ => S754_nan
  end.

(** The value of a finite float, as a multiple of 2^-1074. *)
Definition SF2Z (x : spec_float) : Z :=
  match x with
  | S754_finite s m e => cond_Zopp s (Z.pos m * 2 ^ (e + 1074))
  | _ => 0
  end.

Definition sf_finite (x : spec_float) : bool :=
  match x with
  | S754_zero _ | S754_finite _ _ _ => true
  | _ => false
  end.

(** The sign bit of a float that is not a NaN. *)
Definition sf_sign (x : spec_float) : bool :=
  match x with
  | S754_zero s | S754_infinity s | S754_finite s _ _ => s
  | S754_nan => false
  end.

(** Finite and not negative. *)
Definition sf_nonneg (x : spec_float) : Prop :=
  match x with
  | S754_zero _ | S754_finite false _ _ => True
  | _ => False
  end.

Definition F2Z (x : float) : Z := SF2Z (Prim2SF x).
Definition nonneg (x : float) : Prop := sf_nonneg (Prim2SF x).

(** ** Ranges of the estimator *)

(** The values of [Math.random]: at least 0 and below 1. *)
Definition unit_draws (random : nat -> number) : Prop :=
  forall k, (0 <=? random k)%float = true /\ (random k <? 1)%float = true.

(** The factor of the per-transaction draw, and the bound of the gas per
    transaction that results: [Math.floor(random * 80000) + 21000] is below
    101000, [Math.floor(random * 30000) + 21000] below 51000. *)
Definition avg_bound (chain : Chain) : Z :=
  match chain with eth => 80000 | base => 30000 end.

Definition draw_limit (chain : Chain) : Z :=
  match chain with eth => 101000 | base => 51000 end.

(** A transaction count that is a whole number up to [2^14]. *)
Definition small_count (c : number) : Prop :=
  exists n, 0 <= n <= 2 ^ 14 /\ c = of_Z n.

Definition small_counts (w : Wallet) : Prop :=
  small_count (eth_tx_count w) /\ small_count (base_tx_count w).

(** ** Decimal amounts *)

(** [x] represents [t / 10^f] up to [eta] (in units of 2^-1074 * 10^-f). *)
Definition approx (f eta : Z) (x : number) (t : Z) : Prop :=
  nonneg x /\ 0 <= t /\ Z.abs (F2Z x * 10 ^ f - t * 2 ^ 1074) <= eta.

Definition Zsum (ts : list Z) : Z := fold_right Z.add 0 ts.

(** The integer a number rounded to [f] digits stands for: its digits,
    read without the point. *)
Definition decimal_of (f : Z) (c : number) : Z :=
  match toFixed c f with
  | FixedDecimal _ n _ => n
  | NumberToString _ => 0
  end.

(** [c] is a non-negative decimal of [f] fractional digits, at most
    [B / 10^f]. *)
Definition is_decimal (f B : Z) (c : number) : Prop :=
  0 <= decimal_of f c <= B
  /\ c = Number (FixedDecimal false (decimal_of f c) f).

(** [c] lies between 0 and [limit] and is already rounded to [f] digits. *)
Definition rounded (f : Z) (limit : Z) (c : number) : Prop :=
  (0 <=? c)%float = true /\ (c <=? of_Z limit)%float = true
  /\ Number (toFixed c f) = c.

(** The amounts of a wallet are rounded as the estimator rounds them and of
    a realistic size: at most 1000 native units and 10 million fiat units
    per estimate. *)
Definition realistic (w : Wallet) : Prop :=
  rounded 6 1000 (eth_cost w)
  /\ rounded 6 1000 (base_cost w)
  /\ rounded 2 (10 ^ 7) (usd_of (gas_eth w))
  /\ rounded 2 (10 ^ 7) (usd_of (gas_base w)).

(** The exact sums of the amounts, in millionths of a native unit and in
    hundredths of a fiat unit. *)
Definition micro_eth (ws : list Wallet) : Z :=
  Zsum (map (fun w => decimal_of 6 (eth_cost w)) ws).

Definition micro_base (ws : list Wallet) : Z :=
  Zsum (map (fun w => decimal_of 6 (base_cost w)) ws).

Definition cents (ws : list Wallet) : Z :=
  Zsum (map (fun w => decimal_of 2 (usd_of (gas_eth w))
                      + decimal_of 2 (usd_of (gas_base w))) ws).

(** ** Requests and their outcome *)

(** Nothing but white space: what [!username || username.trim() === '']
    rejects. *)
Definition blank (s : jsstring) : bool := forallb is_white_space s.

(** A UTF-16 code unit. *)
Definition is_code_unit (c : code_unit) : Prop := (c < 0x10000)%N.

Definition is_surrogate (c : code_unit) : bool :=
  is_high_surrogate c || is_low_surrogate c.

(** [String.prototype.isWellFormed]: every surrogate is half of a pair. *)
Fixpoint is_well_formed (s : jsstring) : bool :=
  match s with
  | [] => true
  | c :: s' =>
      if is_low_surrogate c then false
      else if is_high_surrogate c then
        match s' with
        | lo :: s'' => is_low_surrogate lo && is_well_formed s''
        | [] => false
        end
      else is_well_formed s'
  end.

(** What [searchParams.get('username')] can return: [null], or a string of
    Unicode scalar values, since the URL parser decodes the query as UTF-8
    and puts U+FFFD where the bytes are not valid. *)
Definition is_search_param (param : option jsstring) : bool :=
  match param with
  | Some user => is_well_formed user
  | None => true
  end.

(** The characters of an encoded component: unreserved ones and [%]. *)
Definition is_component_char (c : code_unit) : bool :=
  is_uri_unreserved c || (c =? 0x25)%N.

(** A count for which [generateMockGasData] draws: any but [0] and [-0]. *)
Definition needs_estimate (txCount : number) : bool :=
  negb (txCount =? 0)%float.

Definition estimates_needed (ws : list Wallet) : nat :=
  List.length
    (filter needs_estimate
       (flat_map (fun w => [eth_tx_count w; base_tx_count w]) ws)).

(** A wallet with no transaction on either chain. *)
Definition idle (w : Wallet) : bool :=
  negb (needs_estimate (eth_tx_count w))
  && negb (needs_estimate (base_tx_count w)).

(** The backend answers [url] with a 2xx status and the JSON body [data]. *)
Definition answered (backend : jsstring -> FetchResult) (url : jsstring)
  (data : GasData) : Prop :=
  exists st, backend url = Resolved st (Some data) /\ ok st = true.

(** ** The search form of the page: [handleSearch] of [GasChecker] *)

Module GasChecker.

(** [result.success] and [result.error] of the parsed answer. *)
Definition result_success (result : GasData) : bool := success result.
Definition result_error (result : GasData) : option jsstring := error result.

(** The state hooks of the component. *)
Record State := {
  username : jsstring;
  loading : bool;
  data : option GasData;
  error : option jsstring;
  copied : option jsstring
}.

Definition setLoading (b : bool) (s : State) : State :=
  {| username := username s; loading := b; data := data s; error := error s;
     copied := copied s |}.

Definition setData (d : option GasData) (s : State) : State :=
  {| username := username s; loading := loading s; data := d; error := error s;
     copied := copied s |}.

Definition setError (e : option jsstring) (s : State) : State :=
  {| username := username s; loading := loading s; data := data s; error := e;
     copied := copied s |}.

Definition user_not_found : jsstring := lit "User not found".
Definition failed_to_connect : jsstring :=
  lit "Failed to connect to server. Is the backend running?".

(** [a || b] on a string that may be missing: the empty string is falsy. *)
Definition or_else (a : option jsstring) (b : jsstring) : jsstring :=
  match a with
  | Some (c :: m) => c :: m
  | _ => b
  end.

(** The body of the [try] block, up to the parsed answer. *)
Definition request (server : jsstring -> FetchResult) (name : jsstring)
  : M GasData :=
  query <- match encodeURIComponent (trim name) with
           | Some q => ret q
           | None => throw URIError
           end ;;
  '(_, json) <- fetch server (lit "/api/gas?username=" ++ query) ;;
  match json with
  | Some result => ret result
  | None => throw InvalidJSON
  end.

Definition handleSearch (server : jsstring -> FetchResult) (s : State)
  : World -> State * World :=
  fun w =>
    match trim (username s) with
    | [] => (s, w)
    | _ :: _ =>
        let s1 := setData None (setError None (setLoading true s)) in
        let '(s2, w') :=
          try_catch
            (result <- request server (username s) ;;
             ret (if result_success result then setData (Some result) s1
                  else setError
                         (Some (or_else (result_error result) user_not_found))
                         s1))
            (fun _ w' => (setError (Some failed_to_connect) s1, w')) w in
        (setLoading false s2, w')
    end.

End GasChecker.

(** ** Sample requests *)

Module Sample.

Definition BACKEND_URL : jsstring := lit "http://localhost:8000".

Definition random (n : nat) : number :=
  match n with
  | 0%nat => 0.5 | 1%nat => 0.25 | 2%nat => 0.75 | _ => 0.125
  end%float.

Definition world : World := {| draws := 0; fetched := []; console := [] |}.

Definition wallet : Wallet :=
  {| address := lit "0xd7029bdea1c17493893aafe29aad69ef892b8ff2";
     eth_tx_count := 100%float; base_tx_count := 50%float;
     eth_balance := 1.5%float;
     is_primary := true; gas_eth := None; gas_base := None |}.

Definition found (ws : option (list Wallet)) : GasData :=
  {| success := true; username := Some (lit "dwr.eth"); fid := Some 3;
     display_name := Some (lit "Dan Romero"); pfp_url := None;
     wallets := ws; primary_wallet := None;
     total_gas_used_eth := None; total_gas_used_base := None;
     total_gas_usd := None; error := None |}.

Definition not_found : GasData :=
  {| success := false; username := Some (lit "doesnotexist"); fid := None;
     display_name := None; pfp_url := None; wallets := None;
     primary_wallet := None; total_gas_used_eth := None;
     total_gas_used_base := None; total_gas_usd := None;
     error := Some (lit "user not found") |}.

Definition answers (d : GasData) (url : jsstring) : FetchResult :=
  Resolved 200 (Some d).

Definition down (url : jsstring) : FetchResult := Rejected.

Definition second_wallet : Wallet :=
  {| address := lit "0x8773442740c17c9d0f0b87022c722f9a136206ed";
     eth_tx_count := 7%float; base_tx_count := 0%float;
     eth_balance := 0.02%float;
     is_primary := false; gas_eth := None; gas_base := None |}.


(** A count no backend reports, but a number all the same. *)
Definition huge_count : number := 1e308%float.

(** A wallet that never sent a transaction. *)
Definition dormant_wallet : Wallet :=
  {| address := lit "0x0000000000000000000000000000000000000001";
     eth_tx_count := 0%float; base_tx_count := (-0)%float;
     eth_balance := 0%float;
     is_primary := false; gas_eth := None; gas_base := None |}.




(** The page with a name typed in, after an earlier failed search. *)
Definition typed_name : GasChecker.State :=
  {| GasChecker.username := lit " dwr.eth ";
     GasChecker.loading := false;
     GasChecker.data := None;
     GasChecker.error := Some (lit "User not found");
     GasChecker.copied := None |}.

(** The route as the page's server, for a request that names [name]. *)
Definition route_behind (backend : jsstring -> FetchResult) (name : jsstring)
  (url : jsstring) : FetchResult :=
  let response := fst (GET BACKEND_URL random backend (Some name) world) in
  Resolved (status response) (Some (body response)).

End Sample.

(** ** Proof steps *)

(** Arithmetic with the large powers of two kept as symbols: the proofs
    about binary64 values never need their digits. *)
Ltac hide_pows :=
  repeat match goal with
  | |- context [2 ^ Z.pos ?p] =>
      lazymatch eval cbv in (Pos.leb 64 p) with true => idtac end;
      let v := fresh "pw" in let E := fresh in
      remember (2 ^ Z.pos p) as v eqn:E in *; clear E
  | H : context [2 ^ Z.pos ?p] |- _ =>
      lazymatch eval cbv in (Pos.leb 64 p) with true => idtac end;
      let v := fresh "pw" in let E := fresh in
      remember (2 ^ Z.pos p) as v eqn:E in *; clear E
  end.

Ltac zlia := hide_pows; lia.
Ltac znia := hide_pows; nia.

(** Case analysis on the tests of a code unit. *)
Ltac code_unit_cases :=
  repeat match goal with
  | H : _ || _ = true |- _ => apply orb_true_iff in H; destruct H
  | H : _ && _ = true |- _ => apply andb_true_iff in H; destruct H
  | H : (_ =? _)%N = true |- _ => apply N.eqb_eq in H
  | H : (_ <=? _)%N = true |- _ => apply N.leb_le in H
  end.

(** The five ways a request ends, from [GET_cases]. *)
Ltac GET_case H :=
  destruct H as
    [(G & H)
    |[(user' & P & B & E & G)
     |[(user' & q' & t' & P & B & E & F & G)
      |[(user' & q' & data' & P & B & E & A & H & G)
       |(user' & q' & data' & ws0 & ws0' & P & B & E & A & S & W & HE & G)]]]].

(** * Properties *)

(** ** The estimator and the enrichment never throw *)

Section RouteFacts.

Variable BACKEND_URL : jsstring.
Variable random : nat -> number.
Variable backend : jsstring -> FetchResult.

Lemma advance_0 w : advance 0 w = w.
Proof. now destruct w. Qed.

Lemma advance_advance j k w : advance j (advance k w) = advance (j + k) w.
Proof. unfold advance; cbn. f_equal. lia. Qed.

Lemma generateMockGasData_eq txCount chain w :
  generateMockGasData random txCount chain w =
  if (txCount =? 0)%float then (inl zero_gas, w)
  else (inl (estimate txCount chain (random (draws w)) (random (S (draws w)))),
        advance 2 w).
Proof.
  unfold generateMockGasData.
  destruct (txCount =? 0)%float; reflexivity.
Qed.

Lemma generateMockGasData_returns txCount chain w :
  exists g k, generateMockGasData random txCount chain w = (inl g, advance k w).
Proof.
  rewrite generateMockGasData_eq.
  destruct (txCount =? 0)%float.
  - exists zero_gas, 0%nat. now rewrite advance_0.
  - eauto.
Qed.

Lemma enrich_returns wallet acc w :
  exists ethGas baseGas k1 k2,
    generateMockGasData random (eth_tx_count wallet) eth w
      = (inl ethGas, advance k1 w)
    /\ generateMockGasData random (base_tx_count wallet) base (advance k1 w)
      = (inl baseGas, advance k2 (advance k1 w))
    /\ enrich random wallet acc w =
       (inl (with_gas wallet ethGas baseGas,
             {| totalGasETH := (totalGasETH acc + gasCostETH ethGas)%float;
                totalGasBase := (totalGasBase acc + gasCostETH baseGas)%float;
                totalGasUSD :=
                  (totalGasUSD acc
                   + (gasCostUSD ethGas + gasCostUSD baseGas))%float |}),
        advance k2 (advance k1 w)).
Proof.
  destruct (generateMockGasData_returns (eth_tx_count wallet) eth w)
    as (g1 & k1 & E1).
  destruct (generateMockGasData_returns (base_tx_count wallet) base
              (advance k1 w)) as (g2 & k2 & E2).
  exists g1, g2, k1, k2. repeat split; trivial.
  unfold enrich, bind. now rewrite E1, E2.
Qed.

(** What [enrich_all] computes: each wallet with its two estimates, and the
    accumulators advanced by the amounts of the enriched wallets. *)
Lemma enrich_all_returns ws : forall acc w,
  exists ws' k,
    enrich_all random ws acc w =
      (inl (ws',
            {| totalGasETH := sum_from eth_cost ws' (totalGasETH acc);
               totalGasBase := sum_from base_cost ws' (totalGasBase acc);
               totalGasUSD := sum_from usd_cost ws' (totalGasUSD acc) |}),
       advance k w)
    /\ enriched random w ws ws' (advance k w).
Proof.
  induction ws as [|wallet ws IH]; intros acc w.
  - exists [], 0%nat. rewrite advance_0. split; [now destruct acc | constructor].
  - destruct (enrich_returns wallet acc w) as (g1 & g2 & k1 & k2 & E1 & E2 & E).
    cbn [enrich_all]. unfold bind at 1. rewrite E. cbv beta iota.
    match goal with |- context [enrich_all _ ws ?a] =>
      destruct (IH a (advance k2 (advance k1 w))) as (ws' & k & E' & HE) end.
    unfold bind. rewrite E'. cbv beta iota.
    exists (with_gas wallet g1 g2 :: ws'), (k + (k2 + k1))%nat.
    rewrite !advance_advance in *.
    replace (k + k2 + k1)%nat with (k + (k2 + k1))%nat by lia.
    split.
    + reflexivity.
    + econstructor; eauto.
Qed.

End RouteFacts.

(** ** The request handler *)

Section Handler.

Variable BACKEND_URL : jsstring.
Variable random : nat -> number.
Variable backend : jsstring -> FetchResult.

Lemma GET_named user w :
  trim user <> [] ->
  GET BACKEND_URL random backend (Some user) w =
  try_catch (lookup BACKEND_URL random backend user)
    (fun e w' => (backend_unavailable user, console_error e w')) w.
Proof.
  intros H. unfold GET.
  destruct (trim user); [contradiction | reflexivity].
Qed.

Lemma lookup_fails user q w :
  encodeURIComponent (trim user) = Some q ->
  backend_fails backend (backend_url BACKEND_URL q) ->
  exists t, lookup BACKEND_URL random backend user w = (inr t, logged (backend_url BACKEND_URL q) w).
Proof.
  intros Hq Hf. unfold lookup, bind, fetch. rewrite Hq. cbn.
  fold (logged (backend_url BACKEND_URL q) w).
  destruct Hf as [H | [(st & json & H & Hok) | (st & H)]]; rewrite H.
  - eexists; reflexivity.
  - cbn. rewrite Hok. cbn. eexists; reflexivity.
  - cbn. destruct (ok st); cbn; eexists; reflexivity.
Qed.

Lemma lookup_answers user q st data w :
  encodeURIComponent (trim user) = Some q ->
  backend (backend_url BACKEND_URL q) = Resolved st (Some data) ->
  ok st = true ->
  lookup BACKEND_URL random backend user w =
  match success data, wallets data with
  | true, Some ws =>
      match enrich_all random ws zero_totals (logged (backend_url BACKEND_URL q) w) with
      | (inl (ws', totals), w') =>
          (inl {| status := 200; body := with_totals data ws' totals |}, w')
      | (inr t, w') => (inr t, w')
      end
  | _, _ => (inl {| status := 200; body := data |}, logged (backend_url BACKEND_URL q) w)
  end.
Proof.
  intros Hq Hb Hok. unfold lookup, bind, fetch. rewrite Hq. cbn.
  fold (logged (backend_url BACKEND_URL q) w). rewrite Hb. cbn. rewrite Hok. cbn.
  destruct (success data), (wallets data) as [ws|]; try reflexivity.
  destruct (enrich_all random ws zero_totals (logged (backend_url BACKEND_URL q) w))
    as [[[ws' totals] | t] w']; reflexivity.
Qed.

Lemma GET_fails user q w :
  trim user <> [] ->
  encodeURIComponent (trim user) = Some q ->
  backend_fails backend (backend_url BACKEND_URL q) ->
  exists t,
    GET BACKEND_URL random backend (Some user) w =
    (backend_unavailable user, console_error t (logged (backend_url BACKEND_URL q) w)).
Proof.
  intros Hu Hq Hf. rewrite (GET_named _ _ Hu). unfold try_catch.
  destruct (lookup_fails user q w Hq Hf) as (t & ->). eexists; reflexivity.
Qed.

Lemma GET_success user q st data ws w :
  trim user <> [] ->
  encodeURIComponent (trim user) = Some q ->
  backend (backend_url BACKEND_URL q) = Resolved st (Some data) ->
  ok st = true ->
  success data = true ->
  wallets data = Some ws ->
  exists ws' k,
    enriched random (logged (backend_url BACKEND_URL q) w) ws ws'
      (advance k (logged (backend_url BACKEND_URL q) w))
    /\ GET BACKEND_URL random backend (Some user) w =
       ({| status := 200;
           body := with_totals data ws'
                     {| totalGasETH := sum eth_cost ws';
                        totalGasBase := sum base_cost ws';
                        totalGasUSD := sum usd_cost ws' |} |},
        advance k (logged (backend_url BACKEND_URL q) w)).
Proof.
  intros Hu Hq Hb Hok Hs Hw. rewrite (GET_named _ _ Hu). unfold try_catch.
  rewrite (lookup_answers user q st data w Hq Hb Hok), Hs, Hw.
  destruct (enrich_all_returns random ws zero_totals (logged (backend_url BACKEND_URL q) w))
    as (ws' & k & -> & HE).
  exists ws', k. split; [exact HE | reflexivity].
Qed.

Lemma enriched_enriches w ws ws' w' :
  enriched random w ws ws' w' -> Forall2 (enriches random) ws ws'.
Proof.
  induction 1; constructor; trivial.
  unfold enriches; cbn. repeat split; trivial.
  repeat eexists; eauto.
Qed.

Lemma enriched_length w ws ws' w' :
  enriched random w ws ws' w' -> List.length ws' = List.length ws.
Proof. induction 1; cbn; congruence. Qed.

Lemma enriched_has_estimates w ws ws' w' :
  enriched random w ws ws' w' ->
  Forall (fun x => gas_eth x <> None /\ gas_base x <> None) ws'.
Proof. induction 1; constructor; trivial. cbn. split; discriminate. Qed.

End Handler.

(** ** Zero transactions *)

(** C1.  For either chain, the estimate for a transaction count of 0 is
    exactly [{gasUsed: 0, gasCostETH: 0, gasCostUSD: 0}], whatever
    [Math.random] would return and from any world; the world is left as it
    was, so no value is drawn. *)
Theorem zero_count_estimate_is_zero :
  forall (random : nat -> number) (chain : Chain) (w : World),
    generateMockGasData random 0%float chain w =
    (inl {| gasUsed := 0%float; gasCostETH := 0%float; gasCostUSD := 0%float |},
     w).
Proof. reflexivity. Qed.

(** ** Validation *)

(** C3.  A user name that trims to the empty string is answered at once
    with status 400 and [success: false]; the world is unchanged, so
    nothing was fetched. *)
Theorem blank_username_is_refused_without_lookup :
  forall BACKEND_URL random backend (user : jsstring) (w : World),
    trim user = [] ->
    GET BACKEND_URL random backend (Some user) w =
    ({| status := 400;
        body := {| success := false; username := None; fid := None;
                   display_name := None; pfp_url := None; wallets := None;
                   primary_wallet := None; total_gas_used_eth := None;
                   total_gas_used_base := None; total_gas_usd := None;
                   error := Some (lit "Username is required") |} |},
     w).
Proof.
  intros * H. unfold GET. now rewrite H.
Qed.

Lemma blank_username_witness :
  trim (lit "   ") = []
  /\ GET Sample.BACKEND_URL Sample.random Sample.down (Some (lit "   "))
       Sample.world
     = (username_required, Sample.world).
Proof.
  split; [reflexivity|].
  apply (blank_username_is_refused_without_lookup
           Sample.BACKEND_URL Sample.random Sample.down (lit "   ")
           Sample.world).
  reflexivity.
Defined.

(** ** Backend failures *)

(** C4.  When the backend call fails ([fetch] rejects, or the status is not
    2xx) the handler still returns a response: status 503,
    [success: false] and the fixed message about the Python server.  What
    was thrown ends up on the console, not with the caller. *)
Theorem backend_failure_is_answered_503 :
  forall BACKEND_URL random backend (user q : jsstring) (w : World),
    trim user <> [] ->
    encodeURIComponent (trim user) = Some q ->
    backend_fails backend (backend_url BACKEND_URL q) ->
    let (response, w') := GET BACKEND_URL random backend (Some user) w in
    status response = 503
    /\ success (body response) = false
    /\ error (body response) =
       Some (lit "Could not connect to backend. Make sure Python server is running on port 8000.")
    /\ exists thrown,
         w' = console_error thrown (logged (backend_url BACKEND_URL q) w).
Proof.
  intros * Hu Hq Hf.
  destruct (GET_fails BACKEND_URL random backend user q w Hu Hq Hf) as (t & ->).
  repeat split. now exists t.
Qed.

Lemma backend_failure_witness :
  let (response, w') :=
    GET Sample.BACKEND_URL Sample.random Sample.down (Some (lit "dwr.eth"))
      Sample.world in
  status response = 503
  /\ success (body response) = false
  /\ error (body response) =
     Some (lit "Could not connect to backend. Make sure Python server is running on port 8000.")
  /\ exists thrown,
       w' = console_error thrown
              (logged (backend_url Sample.BACKEND_URL (lit "dwr.eth"))
                 Sample.world).
Proof.
  apply (backend_failure_is_answered_503
           Sample.BACKEND_URL Sample.random Sample.down (lit "dwr.eth")
           (lit "dwr.eth") Sample.world).
  - discriminate.
  - reflexivity.
  - left. reflexivity.
Defined.

(** C10.  In that 503 answer the [username] field is the query parameter as
    it was received, not trimmed, although the URL that was fetched carries
    the trimmed (and percent-encoded) name. *)
Theorem unavailable_answer_echoes_untrimmed_username :
  forall BACKEND_URL random backend (user q : jsstring) (w : World),
    trim user <> [] ->
    encodeURIComponent (trim user) = Some q ->
    backend_fails backend (backend_url BACKEND_URL q) ->
    let (response, w') := GET BACKEND_URL random backend (Some user) w in
    status response = 503
    /\ username (body response) = Some user
    /\ fetched w' = fetched w ++ [BACKEND_URL ++ lit "/api/gas?username=" ++ q].
Proof.
  intros * Hu Hq Hf.
  destruct (GET_fails BACKEND_URL random backend user q w Hu Hq Hf) as (t & ->).
  repeat split.
Qed.

Lemma untrimmed_username_witness :
  let (response, w') :=
    GET Sample.BACKEND_URL Sample.random Sample.down (Some (lit "  dwr.eth "))
      Sample.world in
  status response = 503
  /\ username (body response) = Some (lit "  dwr.eth ")
  /\ fetched w' =
     fetched Sample.world
     ++ [Sample.BACKEND_URL ++ lit "/api/gas?username=" ++ lit "dwr.eth"].
Proof.
  apply (unavailable_answer_echoes_untrimmed_username
           Sample.BACKEND_URL Sample.random Sample.down (lit "  dwr.eth ")
           (lit "dwr.eth") Sample.world).
  - discriminate.
  - reflexivity.
  - left. reflexivity.
Defined.

(** ** Lookups the backend answers with a failure *)

(** C5.  When the backend answers 2xx with [success: false], the handler
    returns that object as it is (its error message and user name, nothing
    attached) with status 200, which is not 503; no value is drawn. *)
Theorem reported_failure_is_passed_through :
  forall BACKEND_URL random backend (user q : jsstring) st (data : GasData)
         (w : World),
    trim user <> [] ->
    encodeURIComponent (trim user) = Some q ->
    backend (backend_url BACKEND_URL q) = Resolved st (Some data) ->
    ok st = true ->
    success data = false ->
    GET BACKEND_URL random backend (Some user) w =
      ({| status := 200; body := data |}, logged (backend_url BACKEND_URL q) w)
    /\ 200 <> 503.
Proof.
  intros * Hu Hq Hb Hok Hs. split; [|lia].
  rewrite (GET_named _ _ _ _ _ Hu). unfold try_catch.
  now rewrite (lookup_answers _ _ _ user q st data w Hq Hb Hok), Hs.
Qed.

Lemma reported_failure_witness :
  GET Sample.BACKEND_URL Sample.random (Sample.answers Sample.not_found)
    (Some (lit "doesnotexist")) Sample.world =
    ({| status := 200; body := Sample.not_found |},
     logged (backend_url Sample.BACKEND_URL (lit "doesnotexist")) Sample.world)
  /\ 200 <> 503.
Proof.
  apply (reported_failure_is_passed_through
           Sample.BACKEND_URL Sample.random (Sample.answers Sample.not_found)
           (lit "doesnotexist") (lit "doesnotexist") 200 Sample.not_found
           Sample.world).
  - discriminate.
  - reflexivity.
  - reflexivity.
  - reflexivity.
  - reflexivity.
Defined.

(** ** Successful lookups *)

(** C8.  Every wallet of a successful backend answer comes back with an
    estimate for each chain, [gas_eth] computed from its [eth_tx_count] and
    [gas_base] from its [base_tx_count], and with its address, counts,
    balance and primary flag as the backend sent them. *)
Theorem enrichment_keeps_raw_wallet_fields :
  forall BACKEND_URL random backend (user q : jsstring) st (data : GasData)
         (ws : list Wallet) (w : World),
    trim user <> [] ->
    encodeURIComponent (trim user) = Some q ->
    backend (backend_url BACKEND_URL q) = Resolved st (Some data) ->
    ok st = true ->
    success data = true ->
    wallets data = Some ws ->
    let response := fst (GET BACKEND_URL random backend (Some user) w) in
    exists ws',
      wallets (body response) = Some ws'
      /\ Forall2
           (fun wallet wallet' =>
              address wallet' = address wallet
              /\ eth_tx_count wallet' = eth_tx_count wallet
              /\ base_tx_count wallet' = base_tx_count wallet
              /\ eth_balance wallet' = eth_balance wallet
              /\ is_primary wallet' = is_primary wallet
              /\ exists w1 w2 w3 ethGas baseGas,
                   generateMockGasData random (eth_tx_count wallet) eth w1
                     = (inl ethGas, w2)
                   /\ generateMockGasData random (base_tx_count wallet) base w2
                     = (inl baseGas, w3)
                   /\ gas_eth wallet' = Some ethGas
                   /\ gas_base wallet' = Some baseGas)
           ws ws'.
Proof.
  intros * Hu Hq Hb Hok Hs Hw response.
  destruct (GET_success BACKEND_URL random backend user q st data ws w
              Hu Hq Hb Hok Hs Hw) as (ws' & k & HE & HG).
  subst response. rewrite HG. exists ws'. split; [reflexivity|].
  exact (enriched_enriches random _ _ _ _ HE).
Qed.

Lemma enrichment_witness :
  let response :=
    fst (GET Sample.BACKEND_URL Sample.random
           (Sample.answers (Sample.found (Some [Sample.wallet])))
           (Some (lit "dwr.eth")) Sample.world) in
  exists ws',
    wallets (body response) = Some ws'
    /\ Forall2 (enriches Sample.random) [Sample.wallet] ws'.
Proof.
  apply (enrichment_keeps_raw_wallet_fields
           Sample.BACKEND_URL Sample.random
           (Sample.answers (Sample.found (Some [Sample.wallet])))
           (lit "dwr.eth") (lit "dwr.eth") 200
           (Sample.found (Some [Sample.wallet]))
           [Sample.wallet] Sample.world).
  - discriminate.
  - reflexivity.
  - reflexivity.
  - reflexivity.
  - reflexivity.
  - reflexivity.
Defined.

(** ** What a failed lookup carries *)

(** C7, as stated, fails: the answer to a blank user name has no
    [username] field. *)
Lemma validation_answer_has_no_username :
  ~ only_username_and_error
      (body (fst (GET Sample.BACKEND_URL Sample.random Sample.down
                    (Some (lit "  ")) Sample.world))).
Proof.
  intros (_ & H & _). now apply H.
Qed.

(** C7, amended.  The answer to a blank user name carries only
    [success: false] and the error message; the 503 answer carries only
    [success: false], the error message and the user name as received;
    a failure reported by the backend is returned as the backend sent it. *)
Theorem failed_lookup_fields :
  forall BACKEND_URL random backend (user : jsstring) (w : World),
    let answer := body (fst (GET BACKEND_URL random backend (Some user) w)) in
    (trim user = [] ->
     answer =
     {| success := false; username := None; fid := None;
        display_name := None; pfp_url := None; wallets := None;
        primary_wallet := None; total_gas_used_eth := None;
        total_gas_used_base := None; total_gas_usd := None;
        error := Some (lit "Username is required") |})
    /\ (forall q,
          trim user <> [] ->
          encodeURIComponent (trim user) = Some q ->
          backend_fails backend (backend_url BACKEND_URL q) ->
          only_username_and_error answer /\ username answer = Some user)
    /\ (forall q st data,
          trim user <> [] ->
          encodeURIComponent (trim user) = Some q ->
          backend (backend_url BACKEND_URL q) = Resolved st (Some data) ->
          ok st = true ->
          success data = false ->
          answer = data).
Proof.
  intros BACKEND_URL random backend user w answer. subst answer.
  split; [|split].
  - intros H. unfold GET. now rewrite H.
  - intros q Hu Hq Hf.
    destruct (GET_fails BACKEND_URL random backend user q w Hu Hq Hf)
      as (t & ->).
    cbn. unfold only_username_and_error; cbn. repeat split; discriminate.
  - intros q st data Hu Hq Hb Hok Hs.
    rewrite (GET_named _ _ _ _ _ Hu). unfold try_catch.
    now rewrite (lookup_answers _ _ _ user q st data w Hq Hb Hok), Hs.
Qed.

Lemma failed_lookup_witness :
  body (fst (GET Sample.BACKEND_URL Sample.random Sample.down
               (Some (lit "  ")) Sample.world))
  = error_body (lit "Username is required") None
  /\ only_username_and_error
       (body (fst (GET Sample.BACKEND_URL Sample.random Sample.down
                     (Some (lit "dwr.eth")) Sample.world)))
  /\ body (fst (GET Sample.BACKEND_URL Sample.random
                  (Sample.answers Sample.not_found)
                  (Some (lit "doesnotexist")) Sample.world))
     = Sample.not_found.
Proof.
  split; [|split].
  - apply (failed_lookup_fields Sample.BACKEND_URL Sample.random Sample.down
             (lit "  ") Sample.world).
    reflexivity.
  - apply (failed_lookup_fields Sample.BACKEND_URL Sample.random Sample.down
             (lit "dwr.eth") Sample.world) with (q := lit "dwr.eth").
    + discriminate.
    + reflexivity.
    + left. reflexivity.
  - apply (failed_lookup_fields Sample.BACKEND_URL Sample.random
             (Sample.answers Sample.not_found)
             (lit "doesnotexist") Sample.world)
      with (q := lit "doesnotexist") (st := 200).
    + discriminate.
    + reflexivity.
    + reflexivity.
    + reflexivity.
    + reflexivity.
Defined.


(** * Binary64 arithmetic *)

(** ** Binary digits *)

(** Binary digits *)
Lemma digits2_pos_size p : digits2_pos p = Pos.size p.
Proof. induction p; cbn; congruence. Qed.

Lemma digits2_pos_log2 p : Z.pos (digits2_pos p) = Z.log2 (Z.pos p) + 1.
Proof.
  rewrite digits2_pos_size. destruct p; cbn; try zlia.
Qed.

Lemma Zdigits2_log2 m : 0 < m -> Zdigits2 m = Z.log2 m + 1.
Proof. destruct m; try lia. intros _. apply digits2_pos_log2. Qed.

Lemma Zdigits2_bounds m : 0 < m -> 2 ^ (Zdigits2 m - 1) <= m < 2 ^ Zdigits2 m.
Proof.
  intros H. rewrite Zdigits2_log2 by trivial.
  replace (Z.log2 m + 1 - 1) with (Z.log2 m) by zlia.
  apply Z.log2_spec; trivial.
Qed.

Lemma Zdigits2_unique m d : 2 ^ (d - 1) <= m < 2 ^ d -> 0 < m -> Zdigits2 m = d.
Proof.
  intros H Hm. rewrite Zdigits2_log2 by trivial.
  assert (0 <= d - 1).
  { destruct (Z.lt_ge_cases (d - 1) 0) as [Hd|]; trivial.
    destruct (Z.eq_dec d 0) as [->|]. { cbn in H. zlia. }
    rewrite (Z.pow_neg_r 2 d) in H by zlia. zlia. }
  assert (Z.log2 m = d - 1); [|zlia].
  apply Z.log2_unique; trivial. now replace (Z.succ (d - 1)) with d by zlia.
Qed.

Lemma Zdigits2_nonneg m : 0 <= m -> 0 <= Zdigits2 m.
Proof. destruct m; cbn; zlia. Qed.

Lemma Zdigits2_pos m : 0 < m -> 0 < Zdigits2 m.
Proof. destruct m; cbn; zlia. Qed.

Lemma Zdigits2_lt_pow m d : 0 <= m -> 0 <= d -> m < 2 ^ d -> Zdigits2 m <= d.
Proof.
  intros Hm Hd H. destruct (Z.eq_dec m 0) as [->|]; [cbn; zlia|].
  destruct (Zdigits2_bounds m ltac:(zlia)) as [L _].
  destruct (Z.le_gt_cases (Zdigits2 m) d); trivial.
  assert (2 ^ d <= 2 ^ (Zdigits2 m - 1)) by (apply Z.pow_le_mono_r; zlia). zlia.
Qed.

Lemma Zdigits2_ge_pow m d : 0 <= d -> 2 ^ d <= m -> d + 1 <= Zdigits2 m.
Proof.
  intros Hd H. assert (0 < m) by (pose proof (Z.pow_pos_nonneg 2 d); zlia).
  destruct (Zdigits2_bounds m ltac:(zlia)) as [_ U].
  destruct (Z.le_gt_cases (d + 1) (Zdigits2 m)); trivial.
  assert (2 ^ Zdigits2 m <= 2 ^ d) by (apply Z.pow_le_mono_r; zlia). zlia.
Qed.

Lemma Zdigits2_mul_pow m k : 0 < m -> 0 <= k -> Zdigits2 (m * 2 ^ k) = Zdigits2 m + k.
Proof.
  intros Hm Hk. pose proof (Zdigits2_bounds m Hm) as [L U].
  pose proof (Zdigits2_pos m Hm).
  assert (0 < 2 ^ k) by (apply Z.pow_pos_nonneg; zlia).
  apply Zdigits2_unique; [|znia].
  replace (Zdigits2 m + k - 1) with (Zdigits2 m - 1 + k) by zlia.
  rewrite !Z.pow_add_r by zlia. znia.
Qed.

Lemma Zdigits2_div_pow m k : 0 < m -> 0 <= k -> k < Zdigits2 m ->
  Zdigits2 (m / 2 ^ k) = Zdigits2 m - k.
Proof.
  intros Hm Hk Hlt. pose proof (Zdigits2_bounds m Hm) as [L U].
  assert (0 < 2 ^ k) by (apply Z.pow_pos_nonneg; zlia).
  assert (E1 : 2 ^ (Zdigits2 m - 1) = 2 ^ (Zdigits2 m - k - 1) * 2 ^ k).
  { rewrite <- Z.pow_add_r by zlia. f_equal; zlia. }
  assert (E2 : 2 ^ (Zdigits2 m) = 2 ^ (Zdigits2 m - k) * 2 ^ k).
  { rewrite <- Z.pow_add_r by zlia. f_equal; zlia. }
  assert (0 < 2 ^ (Zdigits2 m - k - 1)) by (apply Z.pow_pos_nonneg; zlia).
  assert (2 ^ (Zdigits2 m - k - 1) <= m / 2 ^ k).
  { apply Z.div_le_lower_bound; zlia. }
  assert (m / 2 ^ k < 2 ^ (Zdigits2 m - k)).
  { apply Z.div_lt_upper_bound; zlia. }
  apply Zdigits2_unique; zlia.
Qed.

Lemma Zdigits2_div_pow_small m k : 0 <= m -> Zdigits2 m <= k -> m / 2 ^ k = 0.
Proof.
  intros Hm Hk. destruct (Z.eq_dec m 0) as [->|]. { apply Z.div_0_l.
   pose proof (Zdigits2_nonneg 0). cbn in Hk. 
   assert (0 < 2 ^ k) by (apply Z.pow_pos_nonneg; zlia). zlia. }
  pose proof (Zdigits2_bounds m ltac:(zlia)) as [L U].
  pose proof (Zdigits2_pos m ltac:(zlia)).
  apply Z.div_small. split; [zlia|].
  assert (2 ^ Zdigits2 m <= 2 ^ k) by (apply Z.pow_le_mono_r; zlia). zlia.
Qed.

Lemma Zdigits2_le m n : 0 <= m -> m <= n -> Zdigits2 m <= Zdigits2 n.
Proof.
  intros Hm H. destruct (Z.eq_dec m 0) as [->|].
  { cbn. apply Zdigits2_nonneg; zlia. }
  pose proof (Zdigits2_bounds m ltac:(zlia)) as [L U].
  pose proof (Zdigits2_bounds n ltac:(zlia)) as [L' U'].
  destruct (Z.le_gt_cases (Zdigits2 m) (Zdigits2 n)); trivial.
  assert (2 ^ Zdigits2 n <= 2 ^ (Zdigits2 m - 1)).
  { apply Z.pow_le_mono_r; try zlia. }
  zlia.
Qed.

Lemma Zdigits2_mul_le m n : 0 < m -> 0 < n -> Zdigits2 (m * n) <= Zdigits2 m + Zdigits2 n.
Proof.
  intros Hm Hn.
  pose proof (Zdigits2_bounds m Hm) as [L U].
  pose proof (Zdigits2_bounds n Hn) as [L' U'].
  pose proof (Zdigits2_pos m Hm). pose proof (Zdigits2_pos n Hn).
  apply Zdigits2_lt_pow; try nia.
  rewrite Z.pow_add_r by zlia. znia.
Qed.

Lemma Zdigits2_mul_ge m n : 0 < m -> 0 < n -> Zdigits2 m + Zdigits2 n - 1 <= Zdigits2 (m * n).
Proof.
  intros Hm Hn.
  pose proof (Zdigits2_bounds m Hm) as [L U].
  pose proof (Zdigits2_bounds n Hn) as [L' U'].
  pose proof (Zdigits2_pos m Hm). pose proof (Zdigits2_pos n Hn).
  assert (0 < 2 ^ (Zdigits2 m - 1)) by (apply Z.pow_pos_nonneg; zlia).
  assert (0 < 2 ^ (Zdigits2 n - 1)) by (apply Z.pow_pos_nonneg; zlia).
  assert (2 ^ (Zdigits2 m + Zdigits2 n - 2) <= m * n).
  { replace (Zdigits2 m + Zdigits2 n - 2) with ((Zdigits2 m - 1) + (Zdigits2 n - 1)) by zlia.
    rewrite Z.pow_add_r by zlia. znia. }
  pose proof (Zdigits2_ge_pow (m * n) (Zdigits2 m + Zdigits2 n - 2) ltac:(zlia) ltac:(zlia)). zlia.
Qed.

Lemma Zdigits2_add_le m n : 0 <= m -> 0 <= n -> Zdigits2 (m + n) <= Z.max (Zdigits2 m) (Zdigits2 n) + 1.
Proof.
  intros Hm Hn.
  assert (forall x, 0 <= x -> x < 2 ^ Zdigits2 x).
  { intros x Hx. destruct (Z.eq_dec x 0) as [->|]; [cbn; zlia|].
    apply Zdigits2_bounds; zlia. }
  pose proof (H m Hm). pose proof (H n Hn).
  pose proof (Zdigits2_nonneg m Hm). pose proof (Zdigits2_nonneg n Hn).
  apply Zdigits2_lt_pow; try lia.
  rewrite Z.pow_add_r by zlia.
  assert (2 ^ Zdigits2 m <= 2 ^ Z.max (Zdigits2 m) (Zdigits2 n)) by (apply Z.pow_le_mono_r; zlia).
  assert (2 ^ Zdigits2 n <= 2 ^ Z.max (Zdigits2 m) (Zdigits2 n)) by (apply Z.pow_le_mono_r; zlia).
  zlia.
Qed.


Lemma xI_div2 p : Z.pos p~1 / 2 = Z.pos p.
Proof. symmetry. apply Z.div_unique with 1; zlia. Qed.
Lemma xI_mod2 p : Z.pos p~1 mod 2 = 1.
Proof. symmetry. apply Z.mod_unique with (Z.pos p); zlia. Qed.
Lemma xO_div2 p : Z.pos p~0 / 2 = Z.pos p.
Proof. symmetry. apply Z.div_unique with 0; zlia. Qed.
Lemma xO_mod2 p : Z.pos p~0 mod 2 = 0.
Proof. symmetry. apply Z.mod_unique with (Z.pos p); zlia. Qed.

Lemma shr_1_spec m rho D :
  0 <= m -> 0 <= rho < D ->
  shr_1 (shr_record_of_loc m (loc_of rho D)) =
  shr_record_of_loc (m / 2) (loc_of ((m mod 2) * D + rho) (2 * D)).
Proof.
  intros Hm Hr.
  assert (Hdiv : m = 2 * (m / 2) + m mod 2) by (apply Z.div_mod; zlia).
  assert (Hmod : 0 <= m mod 2 < 2) by (apply Z.mod_pos_bound; zlia).
  unfold loc_of.
  destruct (Z.eqb_spec rho 0) as [->|Hrho].
  - destruct m as [|[p|p|]|]; try lia; cbn [shr_record_of_loc shr_1 orb].
    + reflexivity.
    + rewrite xI_div2, xI_mod2.
      destruct (Z.eqb_spec (1 * D + 0) 0); [zlia|].
      replace (2 * (1 * D + 0) ?= 2 * D) with Eq by (symmetry; apply Z.compare_eq_iff; zlia).
      reflexivity.
    + rewrite xO_div2, xO_mod2.
      reflexivity.
    + change (1 / 2) with 0. change (1 mod 2) with 1.
      destruct (Z.eqb_spec (1 * D + 0) 0); [zlia|].
      replace (2 * (1 * D + 0) ?= 2 * D) with Eq by (symmetry; apply Z.compare_eq_iff; zlia).
      reflexivity.
  - assert (Hs : exists r s, shr_record_of_loc m (loc_Inexact (2 * rho ?= D)) = Build_shr_record m r s /\ orb r s = true
             ).
    { destruct (2 * rho ?= D); cbn; eauto. }
    destruct Hs as (r & s & -> & Hrs).
    destruct m as [|[p|p|]|]; try lia; cbn [shr_1]; rewrite Hrs.
    + change (0 / 2) with 0. change (0 mod 2) with 0.
      destruct (Z.eqb_spec (0 * D + rho) 0); [zlia|].
      replace (2 * (0 * D + rho) ?= 2 * D) with Lt by (symmetry; apply Z.compare_lt_iff; zlia).
      reflexivity.
    + rewrite xI_div2, xI_mod2.
      destruct (Z.eqb_spec (1 * D + rho) 0); [zlia|].
      replace (2 * (1 * D + rho) ?= 2 * D) with Gt by (symmetry; apply Z.compare_gt_iff; zlia).
      reflexivity.
    + rewrite xO_div2, xO_mod2.
      destruct (Z.eqb_spec (0 * D + rho) 0); [zlia|].
      replace (2 * (0 * D + rho) ?= 2 * D) with Lt by (symmetry; apply Z.compare_lt_iff; zlia).
      reflexivity.
    + change (1 / 2) with 0. change (1 mod 2) with 1.
      destruct (Z.eqb_spec (1 * D + rho) 0); [zlia|].
      replace (2 * (1 * D + rho) ?= 2 * D) with Gt by (symmetry; apply Z.compare_gt_iff; zlia).
      reflexivity.
Qed.

Lemma frac_bound m rho D k :
  0 <= m -> 0 <= rho < D -> 0 < k -> 0 <= (m mod k) * D + rho < k * D.
Proof.
  intros Hm Hr Hk. pose proof (Z.mod_pos_bound m k Hk). znia.
Qed.

Lemma mod_mul_split m a b :
  0 < a -> 0 < b -> m mod (a * b) = m mod a + a * ((m / a) mod b).
Proof. intros. apply Z.rem_mul_r; zlia. Qed.

Lemma shr_iter_spec p : forall m rho D,
  0 <= m -> 0 <= rho < D ->
  iter_pos shr_1 p (shr_record_of_loc m (loc_of rho D)) =
  shr_record_of_loc (m / 2 ^ Z.pos p)
    (loc_of ((m mod 2 ^ Z.pos p) * D + rho) (2 ^ Z.pos p * D)).
Proof.
  induction p as [p IH|p IH|]; intros m rho D Hm Hr.
  - cbn [iter_pos]. rewrite shr_1_spec by trivial.
    assert (0 < 2 ^ Z.pos p) by (apply Z.pow_pos_nonneg; zlia).
    pose proof (frac_bound m rho D 2 Hm Hr ltac:(zlia)).
    rewrite IH by (try apply Z.div_pos; zlia).
    pose proof (frac_bound (m / 2) _ _ (2 ^ Z.pos p) ltac:(apply Z.div_pos; zlia) H0 H).
    rewrite IH by (try (apply Z.div_pos; try apply Z.div_pos); zlia).
    replace (Z.pos p~1) with (1 + Z.pos p + Z.pos p) by zlia.
    rewrite !Z.pow_add_r by zlia. change (2 ^ 1) with 2.
    set (P := 2 ^ Z.pos p) in *.
    rewrite !Z.div_div by zlia.
    rewrite (mod_mul_split m (2 * P) P) by zlia.
    rewrite (mod_mul_split m 2 P) by zlia.
    f_equal; [f_equal; ring|]. f_equal; ring.
  - cbn [iter_pos].
    assert (0 < 2 ^ Z.pos p) by (apply Z.pow_pos_nonneg; zlia).
    rewrite IH by zlia.
    pose proof (frac_bound m rho D (2 ^ Z.pos p) Hm Hr H).
    rewrite IH by (try apply Z.div_pos; zlia).
    replace (Z.pos p~0) with (Z.pos p + Z.pos p) by zlia.
    rewrite !Z.pow_add_r by zlia.
    set (P := 2 ^ Z.pos p) in *.
    rewrite !Z.div_div by zlia.
    rewrite (mod_mul_split m P P) by zlia.
    f_equal. f_equal; ring.
  - cbn [iter_pos]. change (2 ^ 1) with 2. apply shr_1_spec; trivial.
Qed.


Lemma fexp_eq k : fexp prec emax k = Z.max (k - 53) (-1074).
Proof. reflexivity. Qed.

Opaque fexp.

Lemma shr_spec m rho D e n :
  0 <= m -> 0 <= rho < D -> 0 <= n ->
  shr (shr_record_of_loc m (loc_of rho D)) e n =
  (shr_record_of_loc (m / 2 ^ n) (loc_of ((m mod 2 ^ n) * D + rho) (2 ^ n * D)),
   e + n).
Proof.
  intros Hm Hr Hn. destruct n as [|p|p]; try lia.
  - cbn [shr]. rewrite Z.pow_0_r, Z.div_1_r, Z.mod_1_r, Z.add_0_r.
    do 3 f_equal; zlia.
  - cbn [shr]. now rewrite shr_iter_spec.
Qed.

Lemma shr_nonpos mrs e n : n <= 0 -> shr mrs e n = (mrs, e).
Proof. destruct n; trivial; zlia. Qed.

Lemma shr_m_of_loc m l : shr_m (shr_record_of_loc m l) = m.
Proof. now destruct l as [|[]]. Qed.

Lemma loc_of_record_of_loc m l : loc_of_shr_record (shr_record_of_loc m l) = l.
Proof. now destruct l as [|[]]. Qed.

Lemma loc_of_exact : loc_Exact = loc_of 0 1.
Proof. reflexivity. Qed.

Lemma rne_cases m rho D :
  0 <= rho < D ->
  (rne m rho D = m /\ 2 * rho <= D) \/ (rne m rho D = m + 1 /\ D <= 2 * rho).
Proof.
  intros H. unfold rne, loc_of.
  destruct (Z.eqb_spec rho 0); cbn [round_nearest_even]; [left; zlia|].
  destruct (Z.compare_spec (2 * rho) D); cbn [round_nearest_even];
    try destruct (Z.even m); zlia.
Qed.

Lemma binary_round_aux_spec s m e rho D :
  0 <= m -> 0 <= rho < D ->
  e <= fexp prec emax (Zdigits2 m + e) ->
  let e1 := fexp prec emax (Zdigits2 m + e) in
  let n := e1 - e in
  binary_round_aux prec emax s m e (loc_of rho D) =
  pack s (rne (m / 2 ^ n) ((m mod 2 ^ n) * D + rho) (2 ^ n * D)) e1.
Proof.
  intros Hm Hr He e1 n.
  unfold binary_round_aux, shr_fexp. fold e1.
  rewrite shr_spec by (trivial; zlia). fold n.
  replace (e + n) with e1 by (unfold n; zlia).
  rewrite shr_m_of_loc, loc_of_record_of_loc.
  fold (rne (m / 2 ^ n) ((m mod 2 ^ n) * D + rho) (2 ^ n * D)).
  set (m1 := m / 2 ^ n). set (rho1 := (m mod 2 ^ n) * D + rho). set (D1 := 2 ^ n * D).
  assert (Hn : 0 <= n) by (unfold n; zlia).
  assert (H2n : 0 < 2 ^ n) by (apply Z.pow_pos_nonneg; zlia).
  assert (Hr1 : 0 <= rho1 < D1) by (apply frac_bound; trivial).
  assert (Hm1 : 0 <= m1) by (apply Z.div_pos; zlia).
  assert (Hd1 : Zdigits2 m1 <= 53).
  { destruct (Z.eq_dec m 0) as [->|]. { unfold m1. rewrite Z.div_0_l by zlia. cbn. zlia. }
    destruct (Z.lt_ge_cases n (Zdigits2 m)).
    - unfold m1. rewrite Zdigits2_div_pow by zlia.
      unfold n, e1. rewrite fexp_eq. zlia.
    - unfold m1. rewrite Zdigits2_div_pow_small by zlia. cbn. zlia. }
  assert (Hm2 : rne m1 rho1 D1 = m1 \/ rne m1 rho1 D1 = m1 + 1)
    by (destruct (rne_cases m1 rho1 D1 Hr1); zlia).
  set (m2 := rne m1 rho1 D1) in *.
  assert (Hm2' : 0 <= m2 <= 2 ^ 53).
  { assert (m1 < 2 ^ 53); [|zlia].
    destruct (Z.eq_dec m1 0) as [->|]; [zlia|].
    pose proof (Zdigits2_bounds m1 ltac:(zlia)) as [_ U].
    assert (2 ^ Zdigits2 m1 <= 2 ^ 53) by (apply Z.pow_le_mono_r; zlia). zlia. }
  assert (He1 : -1074 <= e1) by (unfold e1; rewrite fexp_eq; zlia).
  destruct (Z.eq_dec m2 0) as [E0|N0].
  { rewrite E0. cbn [Zdigits2]. rewrite fexp_eq.
    rewrite shr_nonpos by zlia. reflexivity. }
  destruct (Z.eq_dec m2 (2 ^ 53)) as [E53|N53].
  { rewrite E53. change (Zdigits2 (2 ^ 53)) with 54. rewrite fexp_eq.
    replace (Z.max (54 + e1 - 53) (-1074) - e1) with 1 by zlia.
    cbn [shr iter_pos shr_1 shr_record_of_loc Z.pow Z.pow_pos Pos.iter Z.mul Pos.mul shr_m].
    unfold pack. cbn. reflexivity. }
  assert (Hd2 : Zdigits2 m2 <= 53) by (apply Zdigits2_lt_pow; zlia).
  rewrite fexp_eq.
  assert (Hn2 : Z.max (Zdigits2 m2 + e1 - 53) (-1074) - e1 <= 0) by zlia.
  rewrite shr_nonpos by zlia.
  cbn [shr_m shr_record_of_loc]. unfold pack.
  destruct m2 as [|p2|p2]; try lia.
  apply Z.leb_le in Hd2. rewrite Hd2. reflexivity.
Qed.


Lemma pow2_pos k : 0 <= k -> 0 < 2 ^ k.
Proof. intros. apply Z.pow_pos_nonneg; zlia. Qed.

Lemma pow2_split a b : 0 <= a -> 0 <= b -> 2 ^ (a + b) = 2 ^ a * 2 ^ b.
Proof. intros. apply Z.pow_add_r; zlia. Qed.

Lemma pow2_le a b : 0 <= a <= b -> 2 ^ a <= 2 ^ b.
Proof. intros. apply Z.pow_le_mono_r; zlia. Qed.

Lemma pow2_lt a b : 0 <= a < b -> 2 ^ a < 2 ^ b.
Proof. intros. apply Z.pow_lt_mono_r; zlia. Qed.

Lemma Zdigits2_pow2 k : 0 <= k -> Zdigits2 (2 ^ k) = k + 1.
Proof.
  intros. pose proof (pow2_pos k H).
  apply Zdigits2_unique; trivial. replace (k + 1 - 1) with k by zlia.
  split; [zlia|]. apply pow2_lt; zlia.
Qed.

Lemma Zdigits2_Zpos p : Zdigits2 (Z.pos p) = Z.pos (digits2_pos p).
Proof. reflexivity. Qed.

Lemma bounded_intro p e :
  Z.max (Z.pos (digits2_pos p) + e - 53) (-1074) = e -> e <= 971 ->
  bounded prec emax p e = true.
Proof.
  intros H1 H2. unfold bounded, canonical_mantissa. rewrite fexp_eq, H1.
  rewrite Z.eqb_refl. apply Z.leb_le. exact H2.
Qed.

Section Pack.

Variables (s : bool) (m e : Z).
Hypothesis Hm : 0 <= m <= 2 ^ 53.
Hypothesis He : -1074 <= e <= 970.
Hypothesis Hcanon : e = -1074 \/ 2 ^ 52 <= m.

Lemma pack_zero : m = 0 -> pack s m e = S754_zero s.
Proof. now intros ->. Qed.

Lemma pack_finite :
  0 < m ->
  exists p e', pack s m e = S754_finite s p e'
    /\ e <= e' <= e + 1 /\ Z.pos p * 2 ^ (e' - e) = m
    /\ Z.pos (digits2_pos p) + e' = Zdigits2 m + e
    /\ bounded prec emax p e' = true.
Proof.
  intros Hpos. destruct m as [|p|p] eqn:Em; try lia.
  unfold pack. destruct (Z.leb_spec (Zdigits2 (Z.pos p)) 53) as [Hd|Hd].
  - destruct (Z.leb_spec e 971); try lia.
    exists p, e. split; [reflexivity|]. split; [zlia|].
    rewrite Z.sub_diag, Z.mul_1_r. split; [reflexivity|]. split; [reflexivity|].
    apply bounded_intro; [|zlia].
    change (Zdigits2 (Z.pos p)) with (Z.pos (digits2_pos p)) in Hd.
    destruct Hcanon as [->|H52]; [zlia|].
    pose proof (Zdigits2_ge_pow (Z.pos p) 52 ltac:(zlia) H52) as HG.
    change (Zdigits2 (Z.pos p)) with (Z.pos (digits2_pos p)) in HG. zlia.
  - assert (E : Z.pos p = 2 ^ 53).
    { destruct (Z.eq_dec (Z.pos p) (2 ^ 53)); trivial.
      pose proof (Zdigits2_lt_pow (Z.pos p) 53 ltac:(zlia) ltac:(zlia) ltac:(zlia)). zlia. }
    rewrite E. change (2 ^ 53 / 2) with (Z.pos (Z.to_pos (2 ^ 52))).
    cbv iota. destruct (Z.leb_spec (e + 1) 971); try lia.
    exists (Z.to_pos (2 ^ 52)), (e + 1). split; [reflexivity|]. split; [zlia|].
    replace (e + 1 - e) with 1 by zlia. split; [reflexivity|].
    split. { change (Zdigits2 (2 ^ 53)) with 54. change (Z.pos (digits2_pos (Z.to_pos (2 ^ 52)))) with 53. zlia. }
    apply bounded_intro; [|zlia].
    change (Z.pos (digits2_pos (Z.to_pos (2 ^ 52)))) with 53. zlia.
Qed.

Lemma pack_valid : valid_binary (pack s m e) = true.
Proof.
  destruct (Z.eq_dec m 0) as [E|N].
  - now rewrite pack_zero.
  - destruct (pack_finite ltac:(zlia)) as (p & e' & -> & _ & _ & _ & H). exact H.
Qed.

Lemma pack_finite_true : sf_finite (pack s m e) = true.
Proof.
  destruct (Z.eq_dec m 0) as [E|N].
  - now rewrite pack_zero.
  - destruct (pack_finite ltac:(zlia)) as (p & e' & -> & _). reflexivity.
Qed.

Lemma pack_sign : sf_sign (pack s m e) = s.
Proof.
  destruct (Z.eq_dec m 0) as [E|N].
  - now rewrite pack_zero.
  - destruct (pack_finite ltac:(zlia)) as (p & e' & -> & _). reflexivity.
Qed.

Lemma pack_value : SF2Z (pack s m e) = cond_Zopp s (m * 2 ^ (e + 1074)).
Proof.
  destruct (Z.eq_dec m 0) as [E|N].
  - rewrite pack_zero by trivial. subst m. now destruct s.
  - destruct (pack_finite ltac:(zlia)) as (p & e' & -> & He' & Hv & _).
    cbn [SF2Z]. f_equal. rewrite <- Hv.
    replace (e' + 1074) with ((e' - e) + (e + 1074)) by zlia.
    rewrite pow2_split by zlia. ring.
Qed.

End Pack.

(** The facts about rounding everything below is derived from. *)
Lemma binary_round_aux_props s m e rho D :
  0 <= m -> 0 <= rho < D ->
  e <= fexp prec emax (Zdigits2 m + e) ->
  Zdigits2 m + e <= 1023 ->
  let e1 := fexp prec emax (Zdigits2 m + e) in
  exists m2,
    binary_round_aux prec emax s m e (loc_of rho D) = pack s m2 e1
    /\ 0 <= m2 <= 2 ^ 53
    /\ -1074 <= e1 <= 970
    /\ (e1 = -1074 \/ 2 ^ 52 <= m2)
    /\ Z.abs (2 * (m2 * 2 ^ (e1 - e) * D - (m * D + rho))) <= 2 ^ (e1 - e) * D
    /\ m / 2 ^ (e1 - e) <= m2
    /\ m2 * 2 ^ (e1 - e) <= 2 ^ Z.max (Zdigits2 m) (e1 - e).
Proof.
  intros Hm Hr He HM e1.
  rewrite (binary_round_aux_spec s m e rho D Hm Hr He). fold e1.
  set (n := e1 - e).
  assert (Hn : 0 <= n) by (unfold n, e1; zlia).
  pose proof (pow2_pos n Hn) as H2n.
  set (m1 := m / 2 ^ n). set (rho1 := (m mod 2 ^ n) * D + rho). set (D1 := 2 ^ n * D).
  assert (Hr1 : 0 <= rho1 < D1) by (apply frac_bound; trivial).
  assert (Hm1 : 0 <= m1) by (apply Z.div_pos; zlia).
  assert (Hdm : m = 2 ^ n * m1 + m mod 2 ^ n) by (apply Z.div_mod; zlia).
  assert (Hmod : 0 <= m mod 2 ^ n < 2 ^ n) by (apply Z.mod_pos_bound; zlia).
  assert (He1 : e1 = Z.max (Zdigits2 m + e - 53) (-1074)) by (unfold e1; apply fexp_eq).
  pose proof (Zdigits2_nonneg m Hm) as Hdn.
  assert (Hd1 : Zdigits2 m1 = Z.max (Zdigits2 m - n) 0).
  { destruct (Z.lt_ge_cases n (Zdigits2 m)).
    - assert (0 < m) by (destruct (Z.eq_dec m 0) as [E|]; [rewrite E in *; cbn in *|]; zlia).
      unfold m1. rewrite Zdigits2_div_pow by zlia. zlia.
    - unfold m1. rewrite Zdigits2_div_pow_small by zlia. cbn. zlia. }
  assert (Hm1u : m1 < 2 ^ Z.max (Zdigits2 m - n) 0).
  { destruct (Z.eq_dec m1 0) as [->|]; [apply pow2_pos; zlia|].
    rewrite <- Hd1. apply Zdigits2_bounds; zlia. }
  exists (rne m1 rho1 D1). split; [reflexivity|].
  assert (Hpw : 2 ^ Z.max (Zdigits2 m - n) 0 * 2 ^ n <= 2 ^ Z.max (Zdigits2 m) n).
  { rewrite <- pow2_split by zlia. apply pow2_le. zlia. }
  assert (Hpw53 : 2 ^ Z.max (Zdigits2 m - n) 0 <= 2 ^ 53).
  { apply pow2_le. unfold n. zlia. }
  assert (Hcan : e1 = -1074 \/ 2 ^ 52 <= m1).
  { destruct (Z.eq_dec e1 (-1074)); [now left|right].
    assert (Hd53 : Zdigits2 m1 = 53) by (rewrite Hd1; unfold n; zlia).
    pose proof (Zdigits2_bounds m1) as HB.
    destruct (Z.eq_dec m1 0) as [E0|]; [rewrite E0 in Hd53; cbn in Hd53; zlia|].
    rewrite Hd53 in HB. apply HB. zlia. }
  fold n.
  destruct (rne_cases m1 rho1 D1 Hr1) as [[-> Hh]|[-> Hh]].
  - split; [zlia|]. split; [zlia|]. split; [zlia|]. split; [|split; [zlia|znia]].
    unfold rho1, D1 in *.
    replace (m1 * 2 ^ n * D - (m * D + rho)) with (- ((m mod 2 ^ n) * D + rho)) by znia.
    zlia.
  - split; [zlia|]. split; [zlia|]. split; [zlia|]. split; [|split; [zlia|znia]].
    unfold rho1, D1 in *.
    replace ((m1 + 1) * 2 ^ n * D - (m * D + rho))
      with (2 ^ n * D - ((m mod 2 ^ n) * D + rho)) by znia.
    zlia.
Qed.


Lemma iter_xO m d : Z.pos (Pos.iter xO m d) = Z.pos m * 2 ^ Z.pos d.
Proof.
  induction d as [|d IH] using Pos.peano_ind.
  - cbn. zlia.
  - rewrite Pos.iter_succ, Pos2Z.inj_xO, IH, Pos2Z.inj_succ, Z.pow_succ_r by zlia. ring.
Qed.

Lemma shl_align_spec m e e' :
  let '(m', e'') := shl_align m e e' in
  e'' = Z.min e e' /\ Z.pos m' = Z.pos m * 2 ^ (e - e'').
Proof.
  unfold shl_align. destruct (e' - e) as [|d|d] eqn:E.
  - split; [zlia|]. rewrite Z.sub_diag. zlia.
  - split; [zlia|]. rewrite Z.sub_diag. zlia.
  - split; [zlia|]. rewrite iter_xO. f_equal. f_equal. zlia.
Qed.

Lemma cond_Zopp_abs s v : 0 <= v -> Z.abs (cond_Zopp s v) = v.
Proof. destruct s; cbn; zlia. Qed.

(** [binary_round]: the float nearest to [m * 2^e]. *)
Lemma binary_round_props s m e :
  -1074 <= e ->
  Z.pos (digits2_pos m) + e <= 1023 ->
  let M := Z.pos (digits2_pos m) + e in
  let e1 := Z.max (M - 53) (-1074) in
  let r := binary_round prec emax s m e in
  exists v,
    valid_binary r = true /\ sf_finite r = true /\ sf_sign r = s
    /\ SF2Z r = cond_Zopp s v
    /\ (2 ^ (e1 + 1074) | v)
    /\ (e1 <= e -> v = Z.pos m * 2 ^ (e + 1074))
    /\ Z.abs (2 * (v - Z.pos m * 2 ^ (e + 1074))) <= 2 ^ (e1 + 1074)
    /\ Z.pos m * 2 ^ (e + 1074) - 2 ^ (e1 + 1074) < v
    /\ v <= 2 ^ (M + 1074).
Proof.
  intros He HM M e1 r. unfold r, binary_round.
  pose proof (shl_align_spec m e (fexp prec emax (Z.pos (digits2_pos m) + e))) as Hs.
  destruct (shl_align m e (fexp prec emax (Z.pos (digits2_pos m) + e))) as [mz ez].
  rewrite fexp_eq in Hs. fold M in Hs. fold e1 in Hs. destruct Hs as [Hez Hmz].
  assert (Hsh : 0 <= e - ez) by zlia.
  pose proof (pow2_pos _ Hsh) as Hp.
  assert (Hdz : Zdigits2 (Z.pos mz) + ez = M).
  { rewrite Hmz, Zdigits2_mul_pow by zlia. cbn [Zdigits2]. unfold M. zlia. }
  assert (Hpre : ez <= fexp prec emax (Zdigits2 (Z.pos mz) + ez)).
  { rewrite Hdz, fexp_eq. fold e1. zlia. }
  rewrite loc_of_exact.
  destruct (binary_round_aux_props s (Z.pos mz) ez 0 1 ltac:(zlia) ltac:(zlia) Hpre ltac:(zlia))
    as (m2 & -> & Hm2 & He1 & Hcan & Herr & Hlow & Hup).
  rewrite Hdz, fexp_eq in *. fold e1 in He1, Hcan, Herr, Hlow, Hup |- *.
  exists (m2 * 2 ^ (e1 + 1074)).
  rewrite pack_valid, pack_finite_true, pack_sign, pack_value by trivial.
  repeat (split; [reflexivity|]).
  assert (Hn : 0 <= e1 - ez) by zlia.
  pose proof (pow2_pos _ Hn) as Hpn.
  assert (Hz : 0 < 2 ^ (ez + 1074)) by (apply pow2_pos; zlia).
  assert (E1 : 2 ^ (e1 + 1074) = 2 ^ (e1 - ez) * 2 ^ (ez + 1074)).
  { rewrite <- pow2_split by zlia. f_equal. zlia. }
  assert (E2 : Z.pos m * 2 ^ (e + 1074) = Z.pos mz * 2 ^ (ez + 1074)).
  { rewrite Hmz. replace (e + 1074) with ((e - ez) + (ez + 1074)) by zlia.
    rewrite pow2_split by zlia. ring. }
  split; [apply Z.divide_factor_r|].
  rewrite E2, E1.
  rewrite Z.mul_1_r, Z.add_0_r in Herr.
  split; [|split; [|split]].
  - intros Hle. assert (e1 = ez) by zlia.
    replace (e1 - ez) with 0 in * by zlia. rewrite Z.pow_0_r in *. znia.
  - replace (2 * (m2 * (2 ^ (e1 - ez) * 2 ^ (ez + 1074)) - Z.pos mz * 2 ^ (ez + 1074)))
      with ((2 * (m2 * 2 ^ (e1 - ez) - Z.pos mz)) * 2 ^ (ez + 1074)) by ring.
    rewrite Z.abs_mul, (Z.abs_eq (2 ^ (ez + 1074))) by zlia.
    apply Z.mul_le_mono_nonneg_r; zlia.
  - assert (Z.pos mz < (m2 + 1) * 2 ^ (e1 - ez)).
    { pose proof (Z.mul_succ_div_gt (Z.pos mz) (2 ^ (e1 - ez)) Hpn). znia. }
    znia.
  - assert (2 ^ Z.max (Zdigits2 (Z.pos mz)) (e1 - ez) * 2 ^ (ez + 1074) <= 2 ^ (M + 1074)).
    { pose proof (Zdigits2_pos (Z.pos mz) ltac:(zlia)).
      assert (1 <= Z.pos (digits2_pos m)) by zlia.
      rewrite <- pow2_split by zlia. apply pow2_le. unfold M in *. zlia. }
    znia.
Qed.

(** A rounded value that could have been represented was not changed. *)
Lemma rounding_exact k v X :
  0 <= k -> (2 ^ k | v) -> (2 ^ k | X) -> Z.abs (2 * (v - X)) <= 2 ^ k -> v = X.
Proof.
  intros Hk [a ->] [b ->] H. pose proof (pow2_pos k Hk).
  replace (2 * (a * 2 ^ k - b * 2 ^ k)) with ((2 * (a - b)) * 2 ^ k) in H by ring.
  rewrite Z.abs_mul, (Z.abs_eq (2 ^ k)) in H by zlia.
  assert (a = b); [|now subst].
  destruct (Z.eq_dec a b); trivial.
  assert (2 <= Z.abs (2 * (a - b))) by zlia. znia.
Qed.


Lemma valid_finite_inv s m e :
  valid_binary (S754_finite s m e) = true ->
  -1074 <= e <= 971 /\ Z.pos (digits2_pos m) <= 53
  /\ (e = -1074 \/ Z.pos (digits2_pos m) = 53).
Proof.
  unfold valid_binary, SpecFloat.valid_binary, bounded, canonical_mantissa.
  rewrite fexp_eq. intros H. apply andb_true_iff in H. destruct H as [H1 H2].
  apply Z.eqb_eq in H1. apply Z.leb_le in H2. change (emax - prec) with 971 in H2.
  zlia.
Qed.

Lemma sf_nonneg_value x : sf_nonneg x -> 0 <= SF2Z x.
Proof.
  destruct x as [| | |[] m e]; cbn [SF2Z cond_Zopp sf_nonneg]; try zlia; try tauto.
Qed.

Lemma sf_nonneg_finite x : sf_nonneg x -> sf_finite x = true.
Proof. destruct x as [| | |[] m e]; cbn; tauto. Qed.

(** An upper bound on the value bounds the digits. *)
Lemma digits_of_scaled c m e K :
  0 <= e + c -> Z.pos m * 2 ^ (e + c) < 2 ^ (K + c) ->
  Z.pos (digits2_pos m) + e <= K.
Proof.
  intros He H.
  pose proof (Zdigits2_bounds (Z.pos m) ltac:(zlia)) as [L _].
  change (Zdigits2 (Z.pos m)) with (Z.pos (digits2_pos m)) in L.
  destruct (Z.le_gt_cases (Z.pos (digits2_pos m) + e) K) as [|Hgt]; trivial.
  pose proof (pow2_pos (e + c) ltac:(zlia)).
  assert (2 ^ (K + c) <= 2 ^ (Z.pos (digits2_pos m) - 1) * 2 ^ (e + c)).
  { rewrite <- pow2_split by zlia.
    destruct (Z.le_gt_cases 0 (K + c)).
    - apply pow2_le. zlia.
    - rewrite Z.pow_neg_r by zlia. apply Z.pow_nonneg. zlia. }
  znia.
Qed.

Lemma digits_of_value m e K :
  -1074 <= e -> Z.pos m * 2 ^ (e + 1074) < 2 ^ (K + 1074) ->
  Z.pos (digits2_pos m) + e <= K.
Proof.
  intros He H. apply (digits_of_scaled 1074); trivial; zlia.
Qed.

Lemma value_of_digits m e :
  -1074 <= e ->
  2 ^ (Z.pos (digits2_pos m) + e + 1073) <= Z.pos m * 2 ^ (e + 1074)
    < 2 ^ (Z.pos (digits2_pos m) + e + 1074).
Proof.
  intros He.
  pose proof (Zdigits2_bounds (Z.pos m) ltac:(zlia)) as [L U].
  change (Zdigits2 (Z.pos m)) with (Z.pos (digits2_pos m)) in *.
  pose proof (pow2_pos (e + 1074) ltac:(zlia)).
  replace (Z.pos (digits2_pos m) + e + 1073) with ((Z.pos (digits2_pos m) - 1) + (e + 1074)) by zlia.
  replace (Z.pos (digits2_pos m) + e + 1074) with (Z.pos (digits2_pos m) + (e + 1074)) by zlia.
  rewrite (pow2_split (Z.pos (digits2_pos m) - 1) (e + 1074)),
    (pow2_split (Z.pos (digits2_pos m)) (e + 1074)) by zlia.
  znia.
Qed.

(** *** Addition of non-negative floats *)

Lemma SFadd_props x y K :
  valid_binary x = true -> valid_binary y = true ->
  sf_nonneg x -> sf_nonneg y ->
  SF2Z x + SF2Z y < 2 ^ (K + 1074) -> -1021 <= K <= 1023 ->
  let r := SFadd prec emax x y in
  valid_binary r = true /\ sf_nonneg r
  /\ Z.abs (2 * (SF2Z r - (SF2Z x + SF2Z y))) <= 2 ^ (K - 53 + 1074)
  /\ SF2Z r <= 2 ^ (K + 1074)
  /\ exists e1, -1074 <= e1 <= K - 53 /\ (2 ^ (e1 + 1074) | SF2Z r)
       /\ Z.abs (2 * (SF2Z r - (SF2Z x + SF2Z y))) <= 2 ^ (e1 + 1074).
Proof.
  intros Vx Vy Nx Ny HK HKr r.
  pose proof (pow2_pos (K - 53 + 1074) ltac:(zlia)) as HP.
  pose proof (pow2_pos (K + 1074) ltac:(zlia)) as HP'.
  pose proof (sf_nonneg_value x Nx) as Hx0. pose proof (sf_nonneg_value y Ny) as Hy0.
  assert (Triv : forall z, valid_binary z = true -> sf_nonneg z -> SF2Z z = SF2Z x + SF2Z y ->
     valid_binary z = true /\ sf_nonneg z
     /\ Z.abs (2 * (SF2Z z - (SF2Z x + SF2Z y))) <= 2 ^ (K - 53 + 1074)
     /\ SF2Z z <= 2 ^ (K + 1074)
     /\ exists e1, -1074 <= e1 <= K - 53 /\ (2 ^ (e1 + 1074) | SF2Z z)
       /\ Z.abs (2 * (SF2Z z - (SF2Z x + SF2Z y))) <= 2 ^ (e1 + 1074)).
  { intros z Vz Nz Ez. rewrite Ez. replace (SF2Z x + SF2Z y - (SF2Z x + SF2Z y)) with 0 by zlia.
    cbn [Z.mul Z.abs]. repeat split; trivial; try lia.
    exists (-1074). cbn [Z.add Z.pow]. repeat split; try lia.
    - apply Z.divide_1_l. }
  destruct x as [sx| | |[] mx ex], y as [sy| | |[] my ey]; cbn in Nx, Ny; try tauto.
  - unfold r. apply Triv; trivial.
    + destruct sx, sy; reflexivity.
    + destruct sx, sy; cbn; trivial.
    + destruct sx, sy; reflexivity.
  - unfold r. apply Triv; trivial.
  - unfold r. apply Triv; trivial. cbn. zlia.
  - destruct (valid_finite_inv _ _ _ Vx) as (Hex & Hdx & Hcx).
    destruct (valid_finite_inv _ _ _ Vy) as (Hey & Hdy & Hcy).
    unfold r. cbn [SFadd cond_Zopp].
    set (ez := Z.min ex ey).
    pose proof (shl_align_spec mx ex ez) as Hsx.
    pose proof (shl_align_spec my ey ez) as Hsy.
    destruct (shl_align mx ex ez) as [mx' ex'], (shl_align my ey ez) as [my' ey'].
    cbn [fst]. destruct Hsx as [Ex' Hmx'], Hsy as [Ey' Hmy'].
    assert (ex' = ez) by (unfold ez in *; zlia). assert (ey' = ez) by (unfold ez in *; zlia).
    subst ex' ey'.
    change (Z.pos mx' + Z.pos my') with (Z.pos (mx' + my')).
    cbn [binary_normalize].
    assert (Hez : -1074 <= ez) by (unfold ez; zlia).
    pose proof (pow2_pos (ez + 1074) ltac:(zlia)) as Hpz.
    assert (Esum : Z.pos (mx' + my') * 2 ^ (ez + 1074) =
                   Z.pos mx * 2 ^ (ex + 1074) + Z.pos my * 2 ^ (ey + 1074)).
    { rewrite Pos2Z.inj_add, Hmx', Hmy'.
      replace (Z.min ex ez) with ez by (unfold ez; zlia).
      replace (Z.min ey ez) with ez by (unfold ez; zlia).
      replace (ex + 1074) with ((ex - ez) + (ez + 1074)) by zlia.
      replace (ey + 1074) with ((ey - ez) + (ez + 1074)) by zlia.
      rewrite (pow2_split (ex - ez) (ez + 1074)), (pow2_split (ey - ez) (ez + 1074))
        by (unfold ez; zlia).
      ring. }
    cbn [SF2Z cond_Zopp] in *.
    assert (HM : Z.pos (digits2_pos (mx' + my')) + ez <= K).
    { apply digits_of_value; zlia. }
    destruct (binary_round_props false (mx' + my') ez Hez ltac:(zlia))
      as (v & Hv1 & Hv2 & Hv3 & Hv4 & Hdiv & _ & Herr & _ & Hup).
    cbn [cond_Zopp] in Hv4.
    set (e1 := Z.max (Z.pos (digits2_pos (mx' + my')) + ez - 53) (-1074)) in *.
    assert (He1 : -1074 <= e1 <= K - 53) by (unfold e1; zlia).
    rewrite Hv4, <- Esum.
    split; [exact Hv1|]. split.
    { destruct (binary_round prec emax false (mx' + my') ez) as [| | |[] ? ?]; cbn in *; trivial; discriminate. }
    assert (2 ^ (e1 + 1074) <= 2 ^ (K - 53 + 1074)) by (apply pow2_le; zlia).
    split; [zlia|]. split.
    { assert (2 ^ (Z.pos (digits2_pos (mx' + my')) + ez + 1074) <= 2 ^ (K + 1074)) by (apply pow2_le; zlia). zlia. }
    exists e1. repeat split; trivial; zlia.
Qed.

(** *** Multiplication of non-negative floats *)

(** The same with the size of the result in units of its last place. *)
Lemma SFmul_props_ulp x y K :
  valid_binary x = true -> valid_binary y = true ->
  sf_nonneg x -> sf_nonneg y ->
  SF2Z x * SF2Z y < 2 ^ (K + 2148) -> -1074 <= K <= 1023 ->
  let r := SFmul prec emax x y in
  valid_binary r = true /\ sf_nonneg r
  /\ SF2Z r <= 2 ^ (K + 1074)
  /\ exists e1, -1074 <= e1 <= Z.max (K - 53) (-1074) /\ (2 ^ (e1 + 1074) | SF2Z r)
       /\ Z.abs (2 * (SF2Z r * 2 ^ 1074 - SF2Z x * SF2Z y)) <= 2 ^ (e1 + 2148)
       /\ SF2Z r <= 2 ^ 53 * 2 ^ (e1 + 1074).
Proof.
  intros Vx Vy Nx Ny HK HKr r.
  assert (Triv : forall s, SF2Z x * SF2Z y = 0 ->
     valid_binary (S754_zero s) = true /\ sf_nonneg (S754_zero s)
     /\ SF2Z (S754_zero s) <= 2 ^ (K + 1074)
     /\ exists e1, -1074 <= e1 <= Z.max (K - 53) (-1074) /\ (2 ^ (e1 + 1074) | SF2Z (S754_zero s))
       /\ Z.abs (2 * (SF2Z (S754_zero s) * 2 ^ 1074 - SF2Z x * SF2Z y)) <= 2 ^ (e1 + 2148)
       /\ SF2Z (S754_zero s) <= 2 ^ 53 * 2 ^ (e1 + 1074)).
  { intros s E. rewrite E. cbn [SF2Z sf_nonneg].
    pose proof (pow2_pos (K + 1074) ltac:(zlia)).
    repeat split; trivial; try lia.
    exists (-1074). repeat split; try lia; try apply Z.divide_0_r.
    all: cbn; zlia. }
  destruct x as [sx| | |[] mx ex], y as [sy| | |[] my ey]; cbn in Nx, Ny; try tauto;
    try (apply Triv; cbn [SF2Z]; zlia).
  destruct (valid_finite_inv _ _ _ Vx) as (Hex & Hdx & Hcx).
  destruct (valid_finite_inv _ _ _ Vy) as (Hey & Hdy & Hcy).
  unfold r. cbn [SFmul xorb]. cbn [SF2Z cond_Zopp] in HK.
  set (E := ex + ey).
  pose proof (Zdigits2_mul_ge (Z.pos mx) (Z.pos my) ltac:(zlia) ltac:(zlia)) as Hge.
  change (Zdigits2 (Z.pos mx)) with (Z.pos (digits2_pos mx)) in Hge.
  change (Zdigits2 (Z.pos my)) with (Z.pos (digits2_pos my)) in Hge.
  change (Z.pos mx * Z.pos my) with (Z.pos (mx * my)) in Hge.
  assert (HM : Zdigits2 (Z.pos (mx * my)) + E <= K).
  { apply (digits_of_scaled 2148); [unfold E; zlia|].
    rewrite Pos2Z.inj_mul. unfold E.
    replace (ex + ey + 2148) with ((ex + 1074) + (ey + 1074)) by zlia.
    rewrite (pow2_split (ex + 1074) (ey + 1074)) by zlia.
    replace (Z.pos mx * Z.pos my * (2 ^ (ex + 1074) * 2 ^ (ey + 1074)))
      with (Z.pos mx * 2 ^ (ex + 1074) * (Z.pos my * 2 ^ (ey + 1074))) by ring.
    exact HK. }
  assert (Hpre : E <= fexp prec emax (Zdigits2 (Z.pos (mx * my)) + E)).
  { rewrite fexp_eq. unfold E. zlia. }
  rewrite loc_of_exact.
  destruct (binary_round_aux_props false (Z.pos (mx * my)) E 0 1 ltac:(zlia) ltac:(zlia) Hpre ltac:(zlia))
    as (m2 & -> & Hm2 & He1 & Hcan & Herr & Hlow & Hup).
  rewrite fexp_eq in *.
  set (e1 := Z.max (Zdigits2 (Z.pos (mx * my)) + E - 53) (-1074)) in *.
  rewrite pack_valid, pack_value by trivial.
  split; [reflexivity|]. split.
  { pose proof (pack_finite_true false m2 e1 Hm2 He1 Hcan) as HF.
    pose proof (pack_sign false m2 e1 Hm2 He1 Hcan) as HS.
    destruct (pack false m2 e1) as [| | |[] ? ?]; cbn in *; trivial; discriminate. }
  cbn [cond_Zopp SF2Z].
  assert (HE : 0 <= E + 2148) by (unfold E; zlia).
  pose proof (pow2_pos _ HE) as HpE.
  assert (Hn : 0 <= e1 - E) by (unfold e1; zlia).
  pose proof (pow2_pos _ Hn) as Hpn.
  pose proof (pow2_pos 1074 ltac:(zlia)) as Hp1074.
  assert (Ev : m2 * 2 ^ (e1 + 1074) * 2 ^ 1074 = m2 * 2 ^ (e1 - E) * 2 ^ (E + 2148)).
  { rewrite <- !Z.mul_assoc, <- (pow2_split (e1 + 1074) 1074), <- (pow2_split (e1 - E) (E + 2148)) by zlia.
    do 2 f_equal. zlia. }
  assert (Exy : Z.pos mx * 2 ^ (ex + 1074) * (Z.pos my * 2 ^ (ey + 1074))
                = Z.pos (mx * my) * 2 ^ (E + 2148)).
  { rewrite Pos2Z.inj_mul. unfold E.
    replace (ex + ey + 2148) with ((ex + 1074) + (ey + 1074)) by zlia.
    rewrite (pow2_split (ex + 1074) (ey + 1074)) by zlia. ring. }
  rewrite Z.mul_1_r, Z.add_0_r in Herr.
  split.
  { assert (m2 * 2 ^ (e1 + 1074) * 2 ^ 1074 <= 2 ^ (K + 1074) * 2 ^ 1074); [|nia].
    rewrite Ev.
    assert (2 ^ Z.max (Zdigits2 (Z.pos (mx * my))) (e1 - E) * 2 ^ (E + 2148)
            <= 2 ^ (K + 1074) * 2 ^ 1074).
    { pose proof (Zdigits2_pos (Z.pos (mx * my)) ltac:(zlia)).
      rewrite <- !pow2_split by zlia. apply pow2_le. unfold e1 in *. zlia. }
    znia. }
  exists e1. split; [unfold e1; zlia|]. split; [apply Z.divide_factor_r|].
  split; [|apply Z.mul_le_mono_nonneg_r; zlia].
  rewrite Ev, Exy.
  replace (2 * (m2 * 2 ^ (e1 - E) * 2 ^ (E + 2148) - Z.pos (mx * my) * 2 ^ (E + 2148)))
    with ((2 * (m2 * 2 ^ (e1 - E) - Z.pos (mx * my))) * 2 ^ (E + 2148)) by ring.
  rewrite Z.abs_mul, (Z.abs_eq (2 ^ (E + 2148))) by zlia.
  replace (e1 + 2148) with ((e1 - E) + (E + 2148)) by zlia.
  rewrite (pow2_split (e1 - E) (E + 2148)) by zlia.
  apply Z.mul_le_mono_nonneg_r; zlia.
Qed.

Lemma SFmul_props x y K :
  valid_binary x = true -> valid_binary y = true ->
  sf_nonneg x -> sf_nonneg y ->
  SF2Z x * SF2Z y < 2 ^ (K + 2148) -> -1074 <= K <= 1023 ->
  let r := SFmul prec emax x y in
  valid_binary r = true /\ sf_nonneg r
  /\ SF2Z r <= 2 ^ (K + 1074)
  /\ exists e1, -1074 <= e1 <= Z.max (K - 53) (-1074) /\ (2 ^ (e1 + 1074) | SF2Z r)
       /\ Z.abs (2 * (SF2Z r * 2 ^ 1074 - SF2Z x * SF2Z y)) <= 2 ^ (e1 + 2148).
Proof.
  intros Vx Vy Nx Ny HK HKr r.
  destruct (SFmul_props_ulp x y K Vx Vy Nx Ny HK HKr)
    as (V & N & B & e1 & He1 & Hd & He & _).
  split; [exact V|]. split; [exact N|]. split; [exact B|].
  exists e1. split; [exact He1|]. split; [exact Hd|exact He].
Qed.


Lemma new_location_spec D r : 0 < D -> 0 <= r < D -> new_location D r = loc_of r D.
Proof.
  intros HD Hr. unfold new_location, new_location_even, new_location_odd, loc_of.
  destruct (Z.even D) eqn:Ev; [reflexivity|].
  destruct (r =? 0); [reflexivity|]. f_equal.
  assert (Hodd : Z.odd D = true) by (rewrite <- Z.negb_even, Ev; reflexivity).
  apply Z.odd_spec in Hodd. destruct Hodd as [k Hk].
  destruct (Z.compare_spec (2 * r + 1) D), (Z.compare_spec (2 * r) D); trivial; zlia.
Qed.

(** *** Division of one mantissa-exponent pair by another *)

Lemma SFdiv_props sx mx ex sy my ey K :
  -1074 <= ex -> -1074 <= ey <= 971 ->
  (Z.pos (digits2_pos mx) + ex) - (Z.pos (digits2_pos my) + ey) + 1 <= K ->
  -1074 <= K <= 1023 ->
  let r := SFdiv prec emax (S754_finite sx mx ex) (S754_finite sy my ey) in
  valid_binary r = true /\ sf_finite r = true /\ sf_sign r = xorb sx sy
  /\ exists v e1,
       SF2Z r = cond_Zopp (xorb sx sy) v
       /\ 0 <= v <= 2 ^ (K + 1074)
       /\ -1074 <= e1 <= Z.max (K - 53) (-1074)
       /\ (2 ^ (e1 + 1074) | v)
       /\ Z.abs (2 * (v * (Z.pos my * 2 ^ (ey + 1074))
                      - Z.pos mx * 2 ^ (ex + 1074) * 2 ^ 1074))
          <= 2 ^ (e1 + 1074) * (Z.pos my * 2 ^ (ey + 1074)).
Proof.
  intros Hex Hey HK HKr r. unfold r. cbn [SFdiv]. unfold SFdiv_core_binary.
  cbn [Zdigits2]. rewrite fexp_eq.
  set (d1 := Z.pos (digits2_pos mx)) in *. set (d2 := Z.pos (digits2_pos my)) in *.
  set (e' := Z.min (Z.max (d1 + ex - (d2 + ey) - 53) (-1074)) (ex - ey)).
  set (s := ex - ey - e').
  assert (Hs : 0 <= s) by (unfold s, e'; zlia).
  assert (Em' : match s with Z.pos _ => Z.shiftl (Z.pos mx) s | 0 => Z.pos mx | Z.neg _ => 0 end
               = Z.pos mx * 2 ^ s).
  { destruct s as [|p|p] eqn:Es; try lia.
    - rewrite Z.shiftl_mul_pow2 by zlia. reflexivity. }
  rewrite Em'. clear Em'.
  pose proof (pow2_pos s Hs) as Hps.
  pose proof (Z_div_mod (Z.pos mx * 2 ^ s) (Z.pos my) ltac:(zlia)) as Hdiv.
  destruct (Z.div_eucl (Z.pos mx * 2 ^ s) (Z.pos my)) as [q rem].
  destruct Hdiv as [Hq Hrem].
  rewrite new_location_spec by zlia.
  assert (Hq0 : 0 <= q) by znia.
  (* digits of the scaled dividend *)
  assert (Hdm' : Zdigits2 (Z.pos mx * 2 ^ s) = d1 + s) by (rewrite Zdigits2_mul_pow by zlia; reflexivity).
  pose proof (Zdigits2_bounds (Z.pos mx * 2 ^ s) ltac:(zlia)) as [Lm Um]. rewrite Hdm' in Lm, Um.
  pose proof (Zdigits2_bounds (Z.pos my) ltac:(zlia)) as [Ly Uy].
  change (Zdigits2 (Z.pos my)) with d2 in Ly, Uy.
  assert (Hd1 : 1 <= d1) by (unfold d1; zlia). assert (Hd2 : 1 <= d2) by (unfold d2; zlia).
  assert (Hdq_up : Zdigits2 q <= Z.max (d1 + s - d2 + 1) 0).
  { destruct (Z.le_gt_cases 0 (d1 + s - d2 + 1)) as [Hc|Hc].
    - rewrite Z.max_l by zlia. apply Zdigits2_lt_pow; trivial.
      assert (2 ^ (d1 + s) = 2 ^ (d1 + s - d2 + 1) * 2 ^ (d2 - 1)).
      { rewrite <- pow2_split by zlia. f_equal. zlia. }
      pose proof (pow2_pos (d2 - 1) ltac:(zlia)).
      pose proof (pow2_pos (d1 + s - d2 + 1) ltac:(zlia)).
      destruct (Z.lt_ge_cases q (2 ^ (d1 + s - d2 + 1))); trivial.
      assert (2 ^ (d1 + s - d2 + 1) * 2 ^ (d2 - 1) <= q * Z.pos my)
        by (apply Z.mul_le_mono_nonneg; zlia).
      assert (T1 : q * Z.pos my <= Z.pos mx * 2 ^ s) by zlia.
      assert (T2 : q * Z.pos my < 2 ^ (d1 + s)) by zlia.
      rewrite H in T2. zlia.
    - assert (q = 0); [|subst q; cbn; zlia].
      assert (2 ^ (d1 + s) <= 2 ^ (d2 - 1)) by (apply pow2_le; zlia).
      destruct (Z.eq_dec q 0); trivial.
      pose proof (pow2_pos (d2 - 1) ltac:(zlia)).
      assert (1 * 2 ^ (d2 - 1) <= q * Z.pos my)
        by (apply Z.mul_le_mono_nonneg; zlia).
      zlia. }
  assert (Hdq_lo : d1 + s - d2 <= Zdigits2 q).
  { pose proof (Zdigits2_nonneg q Hq0).
    destruct (Z.le_gt_cases (d1 + s - d2) 0) as [Hc|Hc]; [zlia|].
    assert (2 ^ (d1 + s - d2 - 1) <= q).
    { assert (2 ^ (d1 + s - 1) = 2 ^ (d1 + s - d2 - 1) * 2 ^ d2).
      { rewrite <- pow2_split by zlia. f_equal. zlia. }
      pose proof (pow2_pos (d1 + s - d2 - 1) ltac:(zlia)).
      destruct (Z.le_gt_cases (2 ^ (d1 + s - d2 - 1)) q); trivial.
      assert ((q + 1) * Z.pos my <= 2 ^ (d1 + s - d2 - 1) * 2 ^ d2)
        by (apply Z.mul_le_mono_nonneg; zlia).
      zlia. }
    pose proof (Zdigits2_ge_pow q (d1 + s - d2 - 1) ltac:(zlia) H0). zlia. }
  assert (Hpre : e' <= fexp prec emax (Zdigits2 q + e')).
  { rewrite fexp_eq. unfold s, e' in *. zlia. }
  assert (HMq : Zdigits2 q + e' <= K) by (unfold s, e' in *; zlia).
  destruct (binary_round_aux_props (xorb sx sy) q e' rem (Z.pos my) Hq0 Hrem Hpre ltac:(zlia))
    as (m2 & -> & Hm2 & He1 & Hcan & Herr & Hlow & Hup).
  rewrite fexp_eq in *.
  set (e1 := Z.max (Zdigits2 q + e' - 53) (-1074)) in *.
  rewrite pack_valid, pack_finite_true, pack_sign, pack_value by trivial.
  repeat (split; [reflexivity|]).
  exists (m2 * 2 ^ (e1 + 1074)), e1.
  split; [reflexivity|].
  pose proof (pow2_pos (e1 + 1074) ltac:(zlia)) as Hpe1.
  assert (He'lo : 0 <= e' + ey + 2148) by (clear - Hey Hex HKr; unfold e'; zlia).
  assert (He'1074 : 0 <= e' + 1074 \/ e' + 1074 < 0) by zlia.
  assert (Hn : 0 <= e1 - e') by (unfold e1, s, e' in *; zlia).
  pose proof (pow2_pos _ Hn) as Hpn.
  split.
  { split; [clear - Hm2 Hpe1; nia|].
    assert (H2148 : 0 <= e' + 2148) by (clear - Hey Hex HKr; unfold e'; zlia).
    pose proof (pow2_pos (e' + 2148) H2148) as Hpe'.
    pose proof (pow2_pos 1074 ltac:(zlia)) as Hp1074.
    assert (A : m2 * 2 ^ (e1 + 1074) * 2 ^ 1074 <= 2 ^ (K + 1074) * 2 ^ 1074);
      [|clear - A Hp1074; hide_pows; nia].
    replace (m2 * 2 ^ (e1 + 1074) * 2 ^ 1074) with (m2 * 2 ^ (e1 - e') * 2 ^ (e' + 2148)).
    2:{ rewrite <- !Z.mul_assoc, <- (pow2_split (e1 + 1074) 1074), <- (pow2_split (e1 - e') (e' + 2148)) by (clear - He1 Hn H2148; zlia).
        do 2 f_equal. zlia. }
    assert (B : 2 ^ Z.max (Zdigits2 q) (e1 - e') * 2 ^ (e' + 2148) <= 2 ^ (K + 1074) * 2 ^ 1074).
    { pose proof (Zdigits2_nonneg q Hq0) as Hdq0.
      rewrite <- (pow2_split (K + 1074) 1074), <- pow2_split by (clear - HKr Hdq0 Hn H2148; zlia).
      apply pow2_le. clear - HMq HKr Hdq0 Hn H2148. unfold e1 in *. lia. }
    clear - B Hup Hpe'. nia. }
  split; [clear - He1 HMq HKr; unfold e1 in *; lia|]. split; [apply Z.divide_factor_r|].
  pose proof (pow2_pos _ He'lo) as Hplo.
  assert (E1 : m2 * 2 ^ (e1 + 1074) * (Z.pos my * 2 ^ (ey + 1074))
               = m2 * 2 ^ (e1 - e') * Z.pos my * 2 ^ (e' + ey + 2148)).
  { transitivity (m2 * Z.pos my * 2 ^ (e1 + ey + 2148)).
    - replace (e1 + ey + 2148) with ((e1 + 1074) + (ey + 1074)) by zlia.
      rewrite (pow2_split (e1 + 1074) (ey + 1074)) by zlia. ring.
    - replace (e1 + ey + 2148) with ((e1 - e') + (e' + ey + 2148)) by zlia.
      rewrite (pow2_split (e1 - e') (e' + ey + 2148)) by zlia. ring. }
  assert (E2 : Z.pos mx * 2 ^ (ex + 1074) * 2 ^ 1074
               = (Z.pos my * q + rem) * 2 ^ (e' + ey + 2148)).
  { rewrite <- Hq. rewrite <- !Z.mul_assoc, <- (pow2_split (ex + 1074) 1074), <- (pow2_split s (e' + ey + 2148)) by zlia.
    do 2 f_equal. unfold s. zlia. }
  assert (E3 : 2 ^ (e1 + 1074) * (Z.pos my * 2 ^ (ey + 1074))
               = 2 ^ (e1 - e') * Z.pos my * 2 ^ (e' + ey + 2148)).
  { transitivity (Z.pos my * 2 ^ (e1 + ey + 2148)).
    - replace (e1 + ey + 2148) with ((e1 + 1074) + (ey + 1074)) by zlia.
      rewrite (pow2_split (e1 + 1074) (ey + 1074)) by zlia. ring.
    - replace (e1 + ey + 2148) with ((e1 - e') + (e' + ey + 2148)) by zlia.
      rewrite (pow2_split (e1 - e') (e' + ey + 2148)) by zlia. ring. }
  rewrite E1, E2, E3.
  replace (2 * (m2 * 2 ^ (e1 - e') * Z.pos my * 2 ^ (e' + ey + 2148)
                - (Z.pos my * q + rem) * 2 ^ (e' + ey + 2148)))
    with ((2 * (m2 * 2 ^ (e1 - e') * Z.pos my - (q * Z.pos my + rem))) * 2 ^ (e' + ey + 2148)) by ring.
  rewrite Z.abs_mul, (Z.abs_eq (2 ^ (e' + ey + 2148))) by zlia.
  apply Z.mul_le_mono_nonneg_r; zlia.
Qed.


(** *** Comparison of non-negative floats *)

Lemma canonical_lt m1 e1 m2 e2 :
  valid_binary (S754_finite false m1 e1) = true ->
  valid_binary (S754_finite false m2 e2) = true ->
  e1 < e2 -> Z.pos m1 * 2 ^ (e1 + 1074) < Z.pos m2 * 2 ^ (e2 + 1074).
Proof.
  intros V1 V2 H.
  destruct (valid_finite_inv _ _ _ V1) as (He1 & Hd1 & Hc1).
  destruct (valid_finite_inv _ _ _ V2) as (He2 & Hd2 & Hc2).
  destruct Hc2 as [|Hd2']; [zlia|].
  pose proof (value_of_digits m1 e1 ltac:(zlia)) as [_ U].
  pose proof (value_of_digits m2 e2 ltac:(zlia)) as [L _].
  assert (2 ^ (Z.pos (digits2_pos m1) + e1 + 1074) <= 2 ^ (Z.pos (digits2_pos m2) + e2 + 1073))
    by (apply pow2_le; zlia).
  zlia.
Qed.

Lemma SFcompare_nonneg x y :
  valid_binary x = true -> valid_binary y = true ->
  sf_nonneg x -> sf_nonneg y ->
  SFcompare x y = Some (SF2Z x ?= SF2Z y).
Proof.
  intros Vx Vy Nx Ny.
  destruct x as [sx| | |[] mx ex], y as [sy| | |[] my ey]; cbn in Nx, Ny;
    try contradiction.
  - reflexivity.
  - cbn [SFcompare SF2Z cond_Zopp]. f_equal. symmetry. apply Z.compare_lt_iff.
    destruct (valid_finite_inv _ _ _ Vy) as (He & _).
    pose proof (pow2_pos (ey + 1074) ltac:(zlia)). znia.
  - cbn [SFcompare SF2Z cond_Zopp]. f_equal. symmetry. apply Z.compare_gt_iff.
    destruct (valid_finite_inv _ _ _ Vx) as (He & _).
    pose proof (pow2_pos (ex + 1074) ltac:(zlia)). znia.
  - cbn [SFcompare SF2Z cond_Zopp]. f_equal.
    destruct (valid_finite_inv _ _ _ Vx) as (Hex & _).
    destruct (valid_finite_inv _ _ _ Vy) as (Hey & _).
    destruct (Z.compare_spec ex ey) as [E|L|G].
    + subst ey. pose proof (pow2_pos (ex + 1074) ltac:(zlia)).
      change (Pos.compare_cont Eq mx my) with (Z.pos mx ?= Z.pos my).
      symmetry. destruct (Z.compare_spec (Z.pos mx) (Z.pos my)).
      * apply Z.compare_eq_iff. congruence.
      * apply Z.compare_lt_iff. znia.
      * apply Z.compare_gt_iff. znia.
    + symmetry. apply Z.compare_lt_iff. now apply canonical_lt.
    + symmetry. apply Z.compare_gt_iff. now apply canonical_lt.
Qed.

Lemma valid_nonneg_unique x y :
  valid_binary x = true -> valid_binary y = true ->
  sf_nonneg x -> sf_nonneg y -> 0 < SF2Z x -> SF2Z x = SF2Z y -> x = y.
Proof.
  intros Vx Vy Nx Ny Hx E.
  destruct x as [sx| | |[] mx ex], y as [sy| | |[] my ey]; cbn in Nx, Ny;
    try contradiction; cbn [SF2Z cond_Zopp] in *; try lia.
  destruct (Z.lt_trichotomy ex ey) as [L|[Ee|G]].
    + pose proof (canonical_lt _ _ _ _ Vx Vy L). zlia.
    + subst ey. destruct (valid_finite_inv _ _ _ Vx) as (He & _).
      pose proof (pow2_pos (ex + 1074) ltac:(zlia)).
      assert (Z.pos mx = Z.pos my) by znia. congruence.
    + pose proof (canonical_lt _ _ _ _ Vy Vx G). zlia.
Qed.

(** *** The same facts on primitive floats *)

Lemma nonneg_F2Z x : nonneg x -> 0 <= F2Z x.
Proof. apply sf_nonneg_value. Qed.

Lemma ltb_nonneg x y : nonneg x -> nonneg y -> (x <? y)%float = (F2Z x <? F2Z y).
Proof.
  intros Nx Ny. rewrite ltb_spec. unfold SFltb.
  rewrite SFcompare_nonneg by (trivial; apply Prim2SF_valid).
  unfold F2Z, Z.ltb. now destruct (SF2Z (Prim2SF x) ?= SF2Z (Prim2SF y)).
Qed.

Lemma leb_nonneg x y : nonneg x -> nonneg y -> (x <=? y)%float = (F2Z x <=? F2Z y).
Proof.
  intros Nx Ny. rewrite leb_spec. unfold SFleb.
  rewrite SFcompare_nonneg by (trivial; apply Prim2SF_valid).
  unfold F2Z, Z.leb. now destruct (SF2Z (Prim2SF x) ?= SF2Z (Prim2SF y)).
Qed.

Lemma eqb_nonneg x y : nonneg x -> nonneg y -> (x =? y)%float = (F2Z x =? F2Z y).
Proof.
  intros Nx Ny. rewrite eqb_spec. unfold SFeqb.
  rewrite SFcompare_nonneg by (trivial; apply Prim2SF_valid).
  unfold F2Z, Z.eqb.
  destruct (Z.compare_spec (SF2Z (Prim2SF x)) (SF2Z (Prim2SF y))) as [E|L|G].
  - rewrite E. destruct (SF2Z (Prim2SF y)); trivial; cbn; now rewrite Pos.eqb_refl.
  - symmetry. apply Z.eqb_neq. zlia.
  - symmetry. apply Z.eqb_neq. zlia.
Qed.

Lemma nonneg_unique x y : nonneg x -> nonneg y -> 0 < F2Z x -> F2Z x = F2Z y -> x = y.
Proof.
  intros Nx Ny H E. apply Prim2SF_inj.
  apply valid_nonneg_unique; trivial; apply Prim2SF_valid.
Qed.

Lemma SFleb_zero_inv x :
  SFleb (S754_zero false) x = true -> x <> S754_infinity false -> sf_nonneg x.
Proof.
  destruct x as [s|[]| |[] m e]; cbn; trivial; try discriminate. congruence.
Qed.

Lemma SF2Z_one : SF2Z (S754_finite false 4503599627370496 (-52)) = 2 ^ 1074.
Proof.
  cbn [SF2Z cond_Zopp]. change (-52 + 1074) with 1022.
  change 4503599627370496 with (2 ^ 52).
  rewrite <- pow2_split by zlia. reflexivity.
Qed.

(** A value of [Math.random]: a float in [0, 1). *)
Lemma unit_interval r :
  (0 <=? r)%float = true -> (r <? 1)%float = true ->
  nonneg r /\ F2Z r < 2 ^ 1074.
Proof.
  intros H0 H1. rewrite leb_spec in H0. rewrite ltb_spec in H1.
  change (Prim2SF 0) with (S754_zero false) in H0.
  change (Prim2SF 1) with (S754_finite false 4503599627370496 (-52)) in H1.
  assert (N : nonneg r).
  { apply SFleb_zero_inv; trivial. intros E. rewrite E in H1. discriminate. }
  split; trivial.
  unfold SFltb in H1.
  rewrite (SFcompare_nonneg (Prim2SF r) (S754_finite false 4503599627370496 (-52))) in H1
    by (trivial; apply Prim2SF_valid || reflexivity || exact I).
  rewrite SF2Z_one in H1.
  unfold F2Z. destruct (Z.compare_spec (SF2Z (Prim2SF r)) (2 ^ 1074)); trivial; discriminate.
Qed.

Lemma add_props x y K :
  nonneg x -> nonneg y -> F2Z x + F2Z y < 2 ^ (K + 1074) -> -1021 <= K <= 1023 ->
  nonneg (x + y)
  /\ Z.abs (2 * (F2Z (x + y) - (F2Z x + F2Z y))) <= 2 ^ (K - 53 + 1074)
  /\ F2Z (x + y) <= 2 ^ (K + 1074)
  /\ exists e1, -1074 <= e1 <= K - 53 /\ (2 ^ (e1 + 1074) | F2Z (x + y))
       /\ Z.abs (2 * (F2Z (x + y) - (F2Z x + F2Z y))) <= 2 ^ (e1 + 1074).
Proof.
  intros Nx Ny HK HKr. unfold nonneg, F2Z. rewrite add_spec.
  apply (SFadd_props (Prim2SF x) (Prim2SF y) K); trivial; apply Prim2SF_valid.
Qed.

Lemma mul_props x y K :
  nonneg x -> nonneg y -> F2Z x * F2Z y < 2 ^ (K + 2148) -> -1074 <= K <= 1023 ->
  nonneg (x * y)
  /\ F2Z (x * y) <= 2 ^ (K + 1074)
  /\ exists e1, -1074 <= e1 <= Z.max (K - 53) (-1074) /\ (2 ^ (e1 + 1074) | F2Z (x * y))
       /\ Z.abs (2 * (F2Z (x * y) * 2 ^ 1074 - F2Z x * F2Z y)) <= 2 ^ (e1 + 2148).
Proof.
  intros Nx Ny HK HKr. unfold nonneg, F2Z. rewrite mul_spec.
  apply (SFmul_props (Prim2SF x) (Prim2SF y) K); trivial; apply Prim2SF_valid.
Qed.

Lemma mul_props_ulp x y K :
  nonneg x -> nonneg y -> F2Z x * F2Z y < 2 ^ (K + 2148) -> -1074 <= K <= 1023 ->
  nonneg (x * y)
  /\ exists e1, -1074 <= e1 <= Z.max (K - 53) (-1074) /\ (2 ^ (e1 + 1074) | F2Z (x * y))
       /\ Z.abs (2 * (F2Z (x * y) * 2 ^ 1074 - F2Z x * F2Z y)) <= 2 ^ (e1 + 2148)
       /\ F2Z (x * y) <= 2 ^ 53 * 2 ^ (e1 + 1074).
Proof.
  intros Nx Ny HK HKr. unfold nonneg, F2Z. rewrite mul_spec.
  destruct (SFmul_props_ulp (Prim2SF x) (Prim2SF y) K) as (_ & N & _ & H); trivial;
    try apply Prim2SF_valid.
  split; trivial.
Qed.


Lemma Prim2SF_of_valid x : valid_binary x = true -> Prim2SF (SF2Prim x) = x.
Proof. apply Prim2SF_SF2Prim. Qed.

(** *** of_Z *)

Lemma of_Z_props n :
  0 <= n < 2 ^ 53 -> nonneg (of_Z n) /\ F2Z (of_Z n) = n * 2 ^ 1074.
Proof.
  intros Hn. unfold nonneg, F2Z, of_Z.
  destruct n as [|p|p]; try lia.
  - cbn [binary_normalize]. rewrite Prim2SF_of_valid by reflexivity. split; [exact I|reflexivity].
  - cbn [binary_normalize].
    assert (Hd : Z.pos (digits2_pos p) <= 53).
    { apply (Zdigits2_lt_pow (Z.pos p) 53); zlia. }
    destruct (binary_round_props false p 0 ltac:(zlia) ltac:(zlia))
      as (v & Hv1 & Hv2 & Hv3 & Hv4 & _ & Hex & _).
    rewrite Prim2SF_of_valid by exact Hv1.
    rewrite Hv4. cbn [cond_Zopp]. rewrite Hex by zlia. split; [|reflexivity].
    destruct (binary_round prec emax false p 0) as [| | |[] ? ?]; cbn in *; trivial; discriminate.
Qed.

(** *** Math.floor *)

Lemma floor_props x :
  nonneg x -> F2Z x < 2 ^ (53 + 1074) ->
  nonneg (floor x) /\ F2Z (floor x) = F2Z x / 2 ^ 1074 * 2 ^ 1074.
Proof.
  intros N H. pose proof (Prim2SF_valid x) as V.
  pose proof (pow2_pos 1074 ltac:(zlia)) as HP.
  unfold floor, nonneg, F2Z in *.
  destruct (Prim2SF x) as [s| | |[] m e] eqn:E; cbn [sf_nonneg] in N; try contradiction.
  - rewrite E. split; [exact I|]. cbn [SF2Z]. now rewrite Z.div_0_l by zlia.
  - destruct (valid_finite_inv _ _ _ V) as (He & Hd & _).
    destruct (Z.leb_spec 0 e) as [He0|He0].
    + rewrite E. split; [exact I|]. cbn [SF2Z cond_Zopp].
      rewrite (pow2_split e 1074), Z.mul_assoc, Z.div_mul by zlia. reflexivity.
    + assert (Hq : 0 <= Z.pos m / 2 ^ (- e) < 2 ^ 53).
      { pose proof (pow2_pos (- e) ltac:(zlia)).
        pose proof (Zdigits2_bounds (Z.pos m) ltac:(zlia)) as [_ U].
        change (Zdigits2 (Z.pos m)) with (Z.pos (digits2_pos m)) in U.
        assert (2 ^ Z.pos (digits2_pos m) <= 2 ^ 53) by (apply pow2_le; zlia).
        split; [apply Z.div_pos; zlia|].
        apply Z.div_lt_upper_bound; znia. }
      destruct (of_Z_props _ Hq) as [N' V'].
      split; [exact N'|]. unfold F2Z in V'. rewrite V'. cbn [SF2Z cond_Zopp].
      f_equal. replace 1074 with ((e + 1074) + (- e)) at 2 by zlia.
      rewrite (pow2_split (e + 1074) (- e)) by zlia.
      pose proof (pow2_pos (e + 1074) ltac:(zlia)). pose proof (pow2_pos (- e) ltac:(zlia)).
      rewrite (Z.mul_comm (2 ^ (e + 1074))), Z.div_mul_cancel_r by zlia. reflexivity.
Qed.

(** *** Division by a positive constant *)

Lemma div_props x y my ey Kx K :
  nonneg x -> Prim2SF y = S754_finite false my ey ->
  F2Z x < 2 ^ (Kx + 1074) ->
  Kx - (Z.pos (digits2_pos my) + ey) + 1 <= K -> -1074 <= K <= 1023 ->
  nonneg (x / y) /\ F2Z (x / y) <= 2 ^ (K + 1074).
Proof.
  intros N Ey Hx HK HKr. pose proof (Prim2SF_valid x) as V.
  pose proof (Prim2SF_valid y) as Vy. rewrite Ey in Vy.
  destruct (valid_finite_inv _ _ _ Vy) as (Hey & _).
  unfold nonneg, F2Z in *. rewrite div_spec, Ey.
  destruct (Prim2SF x) as [s| | |[] m e] eqn:E; cbn [sf_nonneg] in N; try contradiction.
  - cbn. split; trivial. pose proof (pow2_pos (K + 1074) ltac:(zlia)). zlia.
  - destruct (valid_finite_inv _ _ _ V) as (He & _).
    cbn [SF2Z cond_Zopp] in Hx.
    pose proof (digits_of_value m e Kx ltac:(zlia) Hx) as Hd.
    destruct (SFdiv_props false m e false my ey K ltac:(zlia) Hey ltac:(zlia) HKr)
      as (Hv & Hf & Hs & v & e1 & Hval & Hb & _).
    unfold SF64div. rewrite Hval. cbn [xorb cond_Zopp]. split; [|zlia].
    destruct (SFdiv prec emax (S754_finite false m e) (S754_finite false my ey))
      as [| | |[] ? ?]; cbn in *; trivial; discriminate.
Qed.


(** *** Number(x.toFixed(f)) *)

Lemma ten_pow_pos f : 0 <= f -> 0 < 10 ^ f.
Proof. intros. apply Z.pow_pos_nonneg; zlia. Qed.

Lemma ten_pow_le_two f : 0 <= f -> 10 ^ f <= 2 ^ (4 * f).
Proof.
  intros Hf. rewrite Z.pow_mul_r by zlia. change (2 ^ 4) with 16.
  apply Z.pow_le_mono_l. zlia.
Qed.

Lemma Number_decimal_props n f K :
  0 < n -> 0 <= f ->
  Zdigits2 n - Zdigits2 (10 ^ f) + 1 <= K -> -1074 <= K <= 1023 ->
  let c := Number (FixedDecimal false n f) in
  nonneg c /\ 0 <= F2Z c <= 2 ^ (K + 1074)
  /\ exists e1, -1074 <= e1 <= Z.max (K - 53) (-1074)
       /\ (2 ^ (e1 + 1074) | F2Z c)
       /\ Z.abs (2 * (F2Z c * 10 ^ f - n * 2 ^ 1074)) <= 2 ^ (e1 + 1074) * 10 ^ f.
Proof.
  intros Hn Hf HK HKr c. unfold c, Number.
  destruct n as [|p|p]; try lia.
  pose proof (ten_pow_pos f Hf) as H10.
  assert (E10 : Z.pos (Z.to_pos (10 ^ f)) = 10 ^ f) by (apply Z2Pos.id; zlia).
  destruct (SFdiv_props false p 0 false (Z.to_pos (10 ^ f)) 0 K ltac:(zlia) ltac:(zlia))
    as (Hv & Hfin & Hs & v & e1 & Hval & Hb & He1 & Hdiv & Herr); trivial.
  { change (Z.pos (digits2_pos (Z.to_pos (10 ^ f)))) with (Zdigits2 (Z.pos (Z.to_pos (10 ^ f)))).
    rewrite E10. change (Z.pos (digits2_pos p)) with (Zdigits2 (Z.pos p)). zlia. }
  unfold nonneg, F2Z. rewrite Prim2SF_of_valid by exact Hv.
  rewrite Hval. cbn [xorb cond_Zopp] in *.
  rewrite E10 in Herr. change (0 + 1074) with 1074 in Herr.
  pose proof (pow2_pos 1074 ltac:(zlia)) as HP.
  pose proof (pow2_pos (e1 + 1074) ltac:(zlia)) as HPe.
  assert (Herr' : Z.abs (2 * (v * 10 ^ f - Z.pos p * 2 ^ 1074)) <= 2 ^ (e1 + 1074) * 10 ^ f).
  { replace (2 * (v * (10 ^ f * 2 ^ 1074) - Z.pos p * 2 ^ 1074 * 2 ^ 1074))
      with ((2 * (v * 10 ^ f - Z.pos p * 2 ^ 1074)) * 2 ^ 1074) in Herr by ring.
    rewrite Z.abs_mul, (Z.abs_eq (2 ^ 1074)) in Herr by zlia.
    replace (2 ^ (e1 + 1074) * (10 ^ f * 2 ^ 1074)) with (2 ^ (e1 + 1074) * 10 ^ f * 2 ^ 1074) in Herr by ring.
    apply Z.mul_le_mono_pos_r in Herr; trivial. }
  split.
  { destruct (SFdiv prec emax (S754_finite false p 0) (S754_finite false (Z.to_pos (10 ^ f)) 0))
      as [| | |[] ? ?]; cbn in *; trivial; discriminate. }
  split; [zlia|].
  exists e1. repeat split; trivial; zlia.
Qed.

Lemma nearest_scaled_bounds m e f :
  0 <= f -> -1074 <= e ->
  let n := nearest_scaled m e f in
  Z.abs (2 * (n * 2 ^ 1074 - Z.pos m * 2 ^ (e + 1074) * 10 ^ f)) <= 2 ^ 1074
  /\ 0 <= n.
Proof.
  intros Hf He n. unfold n, nearest_scaled.
  pose proof (ten_pow_pos f Hf) as H10.
  destruct (Z.leb_spec 0 e) as [H|H].
  - pose proof (pow2_pos e H). rewrite (pow2_split e 1074) by zlia.
    replace (Z.pos m * 2 ^ e * 10 ^ f * 2 ^ 1074 - Z.pos m * (2 ^ e * 2 ^ 1074) * 10 ^ f)
      with 0 by ring.
    rewrite Z.mul_0_r. change (Z.abs 0) with 0.
    pose proof (pow2_pos 1074 ltac:(zlia)). split; [zlia|znia].
  - pose proof (pow2_pos (- e) ltac:(zlia)) as Hp.
    pose proof (pow2_pos (e + 1074) ltac:(zlia)) as Hq.
    assert (E : 2 ^ 1074 = 2 ^ (- e) * 2 ^ (e + 1074)).
    { rewrite <- pow2_split by zlia. f_equal. zlia. }
    set (a := 2 * (Z.pos m * 10 ^ f) + 2 ^ (- e)).
    set (b := 2 * 2 ^ (- e)).
    pose proof (Z.div_mod a b ltac:(unfold b; zlia)) as Hdm.
    pose proof (Z.mod_pos_bound a b ltac:(unfold b; zlia)) as Hmb.
    assert (0 <= a / b) by (apply Z.div_pos; unfold a, b; zlia).
    split; [|trivial].
    rewrite E.
    replace (2 * (a / b * (2 ^ (- e) * 2 ^ (e + 1074)) - Z.pos m * 2 ^ (e + 1074) * 10 ^ f))
      with ((b * (a / b) - 2 * (Z.pos m * 10 ^ f)) * 2 ^ (e + 1074)) by (unfold b; ring).
    rewrite Z.abs_mul, (Z.abs_eq (2 ^ (e + 1074))) by zlia.
    apply Z.mul_le_mono_nonneg_r; [zlia|].
    unfold a, b in *. zlia.
Qed.

(** Rounding to [f] digits keeps a non-negative float non-negative (and
    finite). *)
Lemma round_nonneg x f :
  0 <= f <= 20 -> nonneg x -> nonneg (Number (toFixed x f)).
Proof.
  intros Hf N. pose proof (Prim2SF_valid x) as V. unfold toFixed.
  unfold nonneg in N.
  destruct (Prim2SF x) as [s| | |[] m e] eqn:E; cbn [sf_nonneg] in N; try contradiction.
  - exact I.
  - destruct (valid_finite_inv _ _ _ V) as (He & _).
    destruct (at_least_1e21 m e) eqn:E21.
    + cbn [Number]. unfold nonneg. now rewrite E.
    + destruct (nearest_scaled_bounds m e f ltac:(zlia) ltac:(zlia)) as [Hn Hn0].
      destruct (Z.eq_dec (nearest_scaled m e f) 0) as [E0|N0].
      * rewrite E0. exact I.
      * assert (Hlt : Z.pos m * 2 ^ (e + 1074) < 10 ^ 21 * 2 ^ 1074).
        { unfold at_least_1e21 in E21.
          destruct (Z.leb_spec 0 e) as [H|H].
          - apply Z.leb_gt in E21. rewrite (pow2_split e 1074) by zlia.
            pose proof (pow2_pos 1074 ltac:(zlia)). znia.
          - apply Z.leb_gt in E21.
            pose proof (pow2_pos (e + 1074) ltac:(zlia)).
            replace 1074 with ((- e) + (e + 1074)) at 2 by zlia.
            rewrite (pow2_split (- e) (e + 1074)) by zlia. znia. }
        pose proof (pow2_pos 1074 ltac:(zlia)) as HP.
        pose proof (ten_pow_pos f ltac:(zlia)) as H10.
        assert (Hnb : nearest_scaled m e f < 10 ^ 21 * 10 ^ f + 1).
        { assert (Z.pos m * 2 ^ (e + 1074) * 10 ^ f < 10 ^ 21 * 2 ^ 1074 * 10 ^ f)
            by (apply Z.mul_lt_mono_pos_r; zlia).
          znia. }
        assert (H10f : 10 ^ f <= 2 ^ 80).
        { transitivity (2 ^ (4 * f)); [apply ten_pow_le_two; zlia|apply pow2_le; zlia]. }
        assert (Hd : Zdigits2 (nearest_scaled m e f) <= 152).
        { apply Zdigits2_lt_pow; lia. }
        pose proof (Zdigits2_pos (10 ^ f) H10).
        destruct (Number_decimal_props (nearest_scaled m e f) f 152 ltac:(zlia) ltac:(zlia) ltac:(zlia) ltac:(zlia))
          as (Nc & _).
        exact Nc.
Qed.


(** *** Exact integer arithmetic below 2^53 *)

Lemma mul_int x y a b :
  nonneg x -> nonneg y -> F2Z x = a * 2 ^ 1074 -> F2Z y = b * 2 ^ 1074 ->
  0 <= a -> 0 <= b -> a * b < 2 ^ 53 ->
  nonneg (x * y) /\ F2Z (x * y) = a * b * 2 ^ 1074.
Proof.
  intros Nx Ny Ex Ey Ha Hb Hab.
  pose proof (pow2_pos 1074 ltac:(zlia)) as HP.
  assert (E2 : 2 ^ 2148 = 2 ^ 1074 * 2 ^ 1074) by (rewrite <- pow2_split by zlia; reflexivity).
  assert (HK : F2Z x * F2Z y < 2 ^ (53 + 2148)).
  { rewrite Ex, Ey, (pow2_split 53 2148), E2 by zlia.
    replace (a * 2 ^ 1074 * (b * 2 ^ 1074)) with (a * b * (2 ^ 1074 * 2 ^ 1074)) by ring.
    apply Z.mul_lt_mono_pos_r; znia. }
  destruct (mul_props x y 53 Nx Ny HK ltac:(zlia)) as (N & _ & e1 & He1 & Hdiv & Herr).
  split; trivial.
  rewrite Z.max_l in He1 by zlia.
  assert (Hv : F2Z (x * y) * 2 ^ 1074 = F2Z x * F2Z y).
  { apply (rounding_exact (e1 + 2148)); trivial; try lia.
    - destruct Hdiv as [k ->]. exists k.
      replace (e1 + 2148) with ((e1 + 1074) + 1074) by zlia.
      rewrite (pow2_split (e1 + 1074) 1074) by zlia. ring.
    - rewrite Ex, Ey. exists (a * b * 2 ^ (- e1)).
      replace (a * 2 ^ 1074 * (b * 2 ^ 1074)) with (a * b * (2 ^ 1074 * 2 ^ 1074)) by ring.
      rewrite <- E2.
      assert (E3 : 2 ^ 2148 = 2 ^ (- e1) * 2 ^ (e1 + 2148)).
      { rewrite <- pow2_split by zlia. f_equal. zlia. }
      rewrite E3 at 1. ring. }
  rewrite Ex, Ey in Hv. znia.
Qed.

Lemma add_int x y a b :
  nonneg x -> nonneg y -> F2Z x = a * 2 ^ 1074 -> F2Z y = b * 2 ^ 1074 ->
  0 <= a -> 0 <= b -> a + b < 2 ^ 53 ->
  nonneg (x + y) /\ F2Z (x + y) = (a + b) * 2 ^ 1074.
Proof.
  intros Nx Ny Ex Ey Ha Hb Hab.
  pose proof (pow2_pos 1074 ltac:(zlia)) as HP.
  assert (HK : F2Z x + F2Z y < 2 ^ (53 + 1074)).
  { rewrite Ex, Ey, (pow2_split 53 1074) by zlia. znia. }
  destruct (add_props x y 53 Nx Ny HK ltac:(zlia)) as (N & _ & _ & e1 & He1 & Hdiv & Herr).
  split; trivial.
  replace ((a + b) * 2 ^ 1074) with (F2Z x + F2Z y) by (rewrite Ex, Ey; ring).
  apply (rounding_exact (e1 + 1074)); trivial; try lia.
  rewrite Ex, Ey. exists ((a + b) * 2 ^ (- e1)).
  assert (E3 : 2 ^ 1074 = 2 ^ (- e1) * 2 ^ (e1 + 1074)).
  { rewrite <- pow2_split by zlia. f_equal. zlia. }
  rewrite E3 at 1 2. ring.
Qed.

Lemma of_Z_unique x a :
  nonneg x -> F2Z x = a * 2 ^ 1074 -> 0 < a < 2 ^ 53 -> x = of_Z a.
Proof.
  intros N E Ha. destruct (of_Z_props a ltac:(zlia)) as [N' E'].
  pose proof (pow2_pos 1074 ltac:(zlia)).
  apply nonneg_unique; trivial; [znia|congruence].
Qed.

(** The largest float below 1 is [1 - 2^-53]. *)
Lemma unit_interval_strict r :
  (0 <=? r)%float = true -> (r <? 1)%float = true ->
  nonneg r /\ F2Z r <= 2 ^ 1074 - 2 ^ 1021.
Proof.
  intros H0 H1. destruct (unit_interval r H0 H1) as [N H]. split; trivial.
  pose proof (Prim2SF_valid r) as V. unfold nonneg, F2Z in *.
  pose proof (pow2_pos 1021 ltac:(zlia)) as HP.
  assert (E : 2 ^ 1074 = 2 ^ 53 * 2 ^ 1021) by (rewrite <- pow2_split by zlia; reflexivity).
  destruct (Prim2SF r) as [s| | |[] m e]; cbn [sf_nonneg SF2Z cond_Zopp] in *; try contradiction.
  - zlia.
  - destruct (valid_finite_inv _ _ _ V) as (He & Hd & Hc).
    pose proof (digits_of_value m e 0 ltac:(zlia) H) as Hmag.
    pose proof (value_of_digits m e ltac:(zlia)) as [_ U].
    destruct (Z.eq_dec e (-53)) as [->|].
    + change (-53 + 1074) with 1021 in *.
      assert (Z.pos m < 2 ^ 53) by znia. znia.
    + assert (2 ^ (Z.pos (digits2_pos m) + e + 1074) <= 2 ^ 1073) by (apply pow2_le; zlia).
      assert (E' : 2 ^ 1074 = 2 * 2 ^ 1073) by (rewrite <- (Z.pow_succ_r 2 1073) by zlia; reflexivity).
      assert (2 ^ 1021 <= 2 ^ 1073) by (apply pow2_le; zlia).
      zlia.
Qed.

Lemma const_value c m e :
  Prim2SF c = S754_finite false m e ->
  nonneg c /\ F2Z c = Z.pos m * 2 ^ (e + 1074).
Proof. intros E. unfold nonneg, F2Z. rewrite E. split; [exact I|reflexivity]. Qed.

(** *** The per-transaction draw *)

Lemma floor_scaled_draw r c k :
  (0 <=? r)%float = true -> (r <? 1)%float = true ->
  2 ^ (k - 1) < c < 2 ^ k -> 1 <= k <= 52 ->
  exists q, 0 <= q < c
    /\ nonneg (floor (r * of_Z c)%float)
    /\ F2Z (floor (r * of_Z c)%float) = q * 2 ^ 1074.
Proof.
  intros H0 H1 Hc Hk.
  destruct (unit_interval_strict r H0 H1) as [N Hr].
  assert (Hc53 : 0 <= c < 2 ^ 53).
  { assert (2 ^ k <= 2 ^ 53) by (apply pow2_le; zlia).
    pose proof (pow2_pos (k - 1) ltac:(zlia)). zlia. }
  destruct (of_Z_props c Hc53) as [Nc Ec].
  pose proof (pow2_pos 1074 ltac:(zlia)) as HU.
  pose proof (pow2_pos 1021 ltac:(zlia)) as HV.
  pose proof (nonneg_F2Z r N) as Hr0.
  assert (E2 : 2 ^ 2148 = 2 ^ 1074 * 2 ^ 1074) by (rewrite <- pow2_split by zlia; reflexivity).
  assert (HP : F2Z r * F2Z (of_Z c) <= c * 2 ^ 2148 - c * (2 ^ 1021 * 2 ^ 1074)).
  { rewrite Ec, E2. znia. }
  assert (HK : F2Z r * F2Z (of_Z c) < 2 ^ (k + 2148)).
  { rewrite (pow2_split k 2148) by zlia.
    assert (0 < 2 ^ 2148) by (apply pow2_pos; zlia).
    assert (c * 2 ^ 2148 < 2 ^ k * 2 ^ 2148) by (apply Z.mul_lt_mono_pos_r; zlia).
    znia. }
  destruct (mul_props r (of_Z c) k N Nc HK ltac:(zlia)) as (Nx & _ & e1 & He1 & _ & Herr).
  rewrite Z.max_l in He1 by zlia.
  set (x := (r * of_Z c)%float) in *.
  assert (Hx : F2Z x < c * 2 ^ 1074).
  { assert (Hpw : 2 ^ (e1 + 2148) <= 2 ^ (k - 53 + 2148)) by (apply pow2_le; zlia).
    assert (E3 : 2 ^ (k - 53 + 2148) = 2 * 2 ^ (k - 1) * (2 ^ 1021 * 2 ^ 1074)).
    { rewrite <- (pow2_split 1021 1074), <- (Z.pow_succ_r 2 (k - 1)), <- pow2_split by zlia.
      f_equal. zlia. }
    assert (0 < 2 ^ 1021 * 2 ^ 1074) by znia.
    assert (F2Z x * 2 ^ 1074 < c * 2 ^ 2148); [|rewrite E2 in *; znia].
    assert (2 * (F2Z x * 2 ^ 1074 - F2Z r * F2Z (of_Z c)) <= 2 * 2 ^ (k - 1) * (2 ^ 1021 * 2 ^ 1074)) by zlia.
    assert (2 ^ (k - 1) * (2 ^ 1021 * 2 ^ 1074) < c * (2 ^ 1021 * 2 ^ 1074))
      by (apply Z.mul_lt_mono_pos_r; zlia).
    zlia. }
  assert (Hx53 : F2Z x < 2 ^ (53 + 1074)).
  { rewrite (pow2_split 53 1074) by zlia.
    assert (c * 2 ^ 1074 < 2 ^ 53 * 2 ^ 1074) by (apply Z.mul_lt_mono_pos_r; zlia). zlia. }
  destruct (floor_props x Nx Hx53) as [Nf Ef].
  exists (F2Z x / 2 ^ 1074). split; [|split; trivial].
  pose proof (nonneg_F2Z x Nx).
  split; [apply Z.div_pos; zlia|apply Z.div_lt_upper_bound; zlia].
Qed.


Lemma const_80000 : 80000%float = of_Z 80000. Proof. reflexivity. Qed.
Lemma const_30000 : 30000%float = of_Z 30000. Proof. reflexivity. Qed.
Lemma const_21000 : 21000%float = of_Z 21000. Proof. reflexivity. Qed.
Lemma const_30 : 30%float = of_Z 30. Proof. reflexivity. Qed.
Lemma const_20 : 20%float = of_Z 20. Proof. reflexivity. Qed.
Lemma const_1e9 : 1e9%float = of_Z (10 ^ 9). Proof. reflexivity. Qed.
Lemma const_3500 : 3500%float = of_Z 3500. Proof. reflexivity. Qed.
Lemma const_1e18 : Prim2SF 1e18 = S754_finite false 7812500000000000 7. Proof. reflexivity. Qed.
Lemma const_0_009 : Prim2SF 0.009 = S754_finite false 5188146770730811 (-59). Proof. reflexivity. Qed.
Lemma const_0_001 : Prim2SF 0.001 = S754_finite false 4611686018427388 (-62). Proof. reflexivity. Qed.

(** The per-transaction draw is an integer of the documented range. *)
Lemma avgGasPerTx_int chain r :
  (0 <=? r)%float = true -> (r <? 1)%float = true ->
  exists a, 21000 <= a < 21000 + avg_bound chain
    /\ nonneg (avgGasPerTx chain r) /\ F2Z (avgGasPerTx chain r) = a * 2 ^ 1074.
Proof.
  intros H0 H1.
  destruct (of_Z_props 21000 ltac:(zlia)) as [N21 E21].
  destruct chain; cbn [avgGasPerTx avg_bound].
  - rewrite const_80000, const_21000.
    destruct (floor_scaled_draw r 80000 17 H0 H1 ltac:(zlia) ltac:(zlia)) as (q & Hq & Nq & Eq).
    destruct (add_int _ _ q 21000 Nq N21 Eq E21 ltac:(zlia) ltac:(zlia) ltac:(zlia)) as [Na Ea].
    exists (q + 21000). repeat split; trivial; zlia.
  - rewrite const_30000, const_21000.
    destruct (floor_scaled_draw r 30000 15 H0 H1 ltac:(zlia) ltac:(zlia)) as (q & Hq & Nq & Eq).
    destruct (add_int _ _ q 21000 Nq N21 Eq E21 ltac:(zlia) ltac:(zlia) ltac:(zlia)) as [Na Ea].
    exists (q + 21000). repeat split; trivial; zlia.
Qed.

(** The price draw is finite, non-negative and below 2^36 (wei). *)
Lemma gasPrice_bound chain r :
  (0 <=? r)%float = true -> (r <? 1)%float = true ->
  nonneg (gasPrice chain r) /\ F2Z (gasPrice chain r) <= 2 ^ (36 + 1074).
Proof.
  intros H0 H1. destruct (unit_interval r H0 H1) as [N Hr].
  pose proof (nonneg_F2Z r N) as Hr0.
  pose proof (pow2_pos 1074 ltac:(zlia)) as HU.
  assert (E2 : forall k, 0 <= k -> 2 ^ (k + 2148) = 2 ^ k * (2 ^ 1074 * 2 ^ 1074)).
  { intros k Hk. rewrite <- (pow2_split 1074 1074), <- pow2_split by zlia. reflexivity. }
  assert (E1 : forall k, 0 <= k -> 2 ^ (k + 1074) = 2 ^ k * 2 ^ 1074).
  { intros k Hk. apply pow2_split; zlia. }
  destruct (of_Z_props (10 ^ 9) ltac:(zlia)) as [N9 E9].
  destruct chain; cbn [gasPrice].
  - rewrite const_30, const_20, const_1e9.
    destruct (of_Z_props 30 ltac:(zlia)) as [N30 E30].
    destruct (of_Z_props 20 ltac:(zlia)) as [N20 E20].
    assert (HK1 : F2Z r * F2Z (of_Z 30) < 2 ^ (5 + 2148)).
    { rewrite E30, E2 by zlia. change (2 ^ 5) with 32. znia. }
    destruct (mul_props r (of_Z 30) 5 N N30 HK1 ltac:(zlia)) as (Nx & Hx & _).
    assert (HK2 : F2Z (r * of_Z 30) + F2Z (of_Z 20) < 2 ^ (6 + 1074)).
    { rewrite E20. rewrite E1 in * by zlia. change (2 ^ 5) with 32 in Hx. change (2 ^ 6) with 64. zlia. }
    destruct (add_props _ _ 6 Nx N20 HK2 ltac:(zlia)) as (Ny & _ & Hy & _).
    assert (HK3 : F2Z (r * of_Z 30 + of_Z 20) * F2Z (of_Z (10 ^ 9)) < 2 ^ (36 + 2148)).
    { rewrite E9, E2 by zlia. rewrite E1 in Hy by zlia.
      pose proof (nonneg_F2Z _ Ny).
      assert (F2Z (r * of_Z 30 + of_Z 20) * (10 ^ 9 * 2 ^ 1074)
              <= 2 ^ 6 * 2 ^ 1074 * (10 ^ 9 * 2 ^ 1074)) by (apply Z.mul_le_mono_nonneg_r; zlia).
      assert (2 ^ 6 * 10 ^ 9 < 2 ^ 36) by (vm_compute; reflexivity).
      znia. }
    destruct (mul_props _ _ 36 Ny N9 HK3 ltac:(zlia)) as (Nz & Hz & _).
    split; trivial.
  - rewrite const_1e9.
    destruct (const_value _ _ _ const_0_009) as [Na Ea].
    destruct (const_value _ _ _ const_0_001) as [Nb Eb].
    change (-59 + 1074) with 1015 in Ea. change (-62 + 1074) with 1012 in Eb.
    assert (Ha : F2Z 0.009 < 2 ^ 1068).
    { rewrite Ea. replace 1068 with (53 + 1015) by zlia. rewrite (pow2_split 53 1015) by zlia.
      pose proof (pow2_pos 1015 ltac:(zlia)). znia. }
    assert (Hb : F2Z 0.001 < 2 ^ 1068).
    { rewrite Eb. replace 1068 with (56 + 1012) by zlia. rewrite (pow2_split 56 1012) by zlia.
      pose proof (pow2_pos 1012 ltac:(zlia)). znia. }
    assert (HK1 : F2Z r * F2Z 0.009 < 2 ^ (-6 + 2148)).
    { change (-6 + 2148) with (1074 + 1068). rewrite (pow2_split 1074 1068) by zlia.
      pose proof (nonneg_F2Z _ Na).
      assert (F2Z r * F2Z 0.009 <= 2 ^ 1074 * F2Z 0.009) by (apply Z.mul_le_mono_nonneg_r; zlia).
      znia. }
    destruct (mul_props r 0.009 (-6) N Na HK1 ltac:(zlia)) as (Nx & Hx & _).
    change (-6 + 1074) with 1068 in Hx.
    assert (HK2 : F2Z (r * 0.009) + F2Z 0.001 < 2 ^ (-5 + 1074)).
    { change (-5 + 1074) with 1069.
      assert (2 ^ 1069 = 2 * 2 ^ 1068) by (rewrite <- Z.pow_succ_r by zlia; reflexivity).
      zlia. }
    destruct (add_props _ _ (-5) Nx Nb HK2 ltac:(zlia)) as (Ny & _ & Hy & _).
    change (-5 + 1074) with 1069 in Hy.
    assert (HK3 : F2Z (r * 0.009 + 0.001) * F2Z (of_Z (10 ^ 9)) < 2 ^ (36 + 2148)).
    { rewrite E9, E2 by zlia.
      pose proof (nonneg_F2Z _ Ny).
      assert (2 ^ 1069 <= 2 ^ 1074) by (apply pow2_le; zlia).
      assert (F2Z (r * 0.009 + 0.001) * (10 ^ 9 * 2 ^ 1074)
              <= 2 ^ 1074 * (10 ^ 9 * 2 ^ 1074)) by (apply Z.mul_le_mono_nonneg_r; zlia).
      assert (10 ^ 9 < 2 ^ 36) by (vm_compute; reflexivity).
      znia. }
    destruct (mul_props _ _ 36 Ny N9 HK3 ltac:(zlia)) as (Nz & Hz & _).
    split; trivial.
Qed.



(** * The estimate for a positive count *)

Lemma nonneg_zero : nonneg 0%float.
Proof. exact I. Qed.

Lemma nonneg_is_finite x : nonneg x -> is_finite x = true.
Proof.
  intros N. unfold is_finite, is_nan, is_infinity.
  rewrite (eqb_nonneg x x N N), Z.eqb_refl. cbn [negb orb].
  rewrite eqb_spec, abs_spec. unfold nonneg in N.
  change (Prim2SF infinity) with (S754_infinity false).
  destruct (Prim2SF x) as [s| | |[] m e]; cbn [sf_nonneg] in N; try contradiction; reflexivity.
Qed.

Lemma nonneg_leb x : nonneg x -> (0 <=? x)%float = true.
Proof.
  intros N. rewrite (leb_nonneg 0 x nonneg_zero N).
  apply Z.leb_le. change (F2Z 0) with 0. now apply nonneg_F2Z.
Qed.

Lemma positive_ltb x : nonneg x -> 0 < F2Z x -> (0 <? x)%float = true.
Proof.
  intros N H. rewrite (ltb_nonneg 0 x nonneg_zero N).
  apply Z.ltb_lt. exact H.
Qed.

Lemma of_Z_nonzero n : 0 < n < 2 ^ 53 -> (of_Z n =? 0)%float = false.
Proof.
  intros H. destruct (of_Z_props n ltac:(zlia)) as [N E].
  rewrite (eqb_nonneg _ _ N nonneg_zero), E. change (F2Z 0) with 0.
  apply Z.eqb_neq. pose proof (pow2_pos 1074 ltac:(zlia)). znia.
Qed.

Lemma of_Z_lt a b : 0 <= a < b -> b < 2 ^ 53 -> (of_Z a <? of_Z b)%float = true.
Proof.
  intros H Hb. destruct (of_Z_props a ltac:(zlia)) as [Na Ea].
  destruct (of_Z_props b ltac:(zlia)) as [Nb Eb].
  rewrite (ltb_nonneg _ _ Na Nb), Ea, Eb. apply Z.ltb_lt.
  pose proof (pow2_pos 1074 ltac:(zlia)). znia.
Qed.

(** The size of the two costs before rounding, from the size of the gas
    used. *)
Lemma estimate_bounds chain r1 r2 a n p :
  (0 <=? r2)%float = true -> (r2 <? 1)%float = true ->
  nonneg (avgGasPerTx chain r1 * of_Z n) ->
  F2Z (avgGasPerTx chain r1 * of_Z n) = a * n * 2 ^ 1074 ->
  22 <= p <= 49 -> 0 <= a * n < 2 ^ p ->
  let cost := (avgGasPerTx chain r1 * of_Z n * gasPrice chain r2 / 1e18)%float in
  nonneg cost /\ F2Z cost <= 2 ^ (p - 22 + 1074)
  /\ nonneg (cost * ethPrice) /\ F2Z (cost * ethPrice) <= 2 ^ (p - 10 + 1074).
Proof.
  intros H0 H1 Ng Eg Hp Han cost. unfold cost. clear cost.
  destruct (gasPrice_bound chain r2 H0 H1) as [Np Hpr].
  pose proof (nonneg_F2Z _ Np) as Hp0.
  pose proof (pow2_pos 1074 ltac:(zlia)) as HU.
  pose proof (pow2_pos p ltac:(zlia)) as HPp.
  set (used := (avgGasPerTx chain r1 * of_Z n)%float) in *.
  assert (HK1 : F2Z used * F2Z (gasPrice chain r2) < 2 ^ (p + 36 + 2148)).
  { rewrite Eg. replace (p + 36 + 2148) with (p + 1074 + (36 + 1074)) by zlia.
    rewrite (pow2_split (p + 1074) (36 + 1074)), (pow2_split p 1074) by zlia.
    pose proof (pow2_pos (36 + 1074) ltac:(zlia)).
    assert (a * n * 2 ^ 1074 * F2Z (gasPrice chain r2) <= a * n * 2 ^ 1074 * 2 ^ (36 + 1074))
      by (apply Z.mul_le_mono_nonneg_l; znia).
    assert (a * n * 2 ^ 1074 * 2 ^ (36 + 1074) < 2 ^ p * 2 ^ 1074 * 2 ^ (36 + 1074))
      by (apply Z.mul_lt_mono_pos_r; znia).
    zlia. }
  destruct (mul_props _ _ (p + 36) Ng Np HK1 ltac:(zlia)) as (Nw & Hw & _).
  assert (Hw' : F2Z (used * gasPrice chain r2) < 2 ^ (p + 37 + 1074)).
  { assert (2 ^ (p + 36 + 1074) < 2 ^ (p + 37 + 1074)) by (apply pow2_lt; zlia). zlia. }
  destruct (div_props _ 1e18 _ _ (p + 37) (p - 22) Nw const_1e18 Hw' ltac:(cbn; zlia) ltac:(zlia))
    as (Ne & He).
  split; trivial. split; trivial.
  unfold ethPrice. rewrite const_3500.
  destruct (of_Z_props 3500 ltac:(zlia)) as [N35 E35].
  pose proof (nonneg_F2Z _ Ne) as He0.
  assert (HK2 : F2Z (used * gasPrice chain r2 / 1e18) * F2Z (of_Z 3500) < 2 ^ (p - 10 + 2148)).
  { rewrite E35. replace (p - 10 + 2148) with (p - 22 + 1074 + (12 + 1074)) by zlia.
    rewrite (pow2_split (p - 22 + 1074) (12 + 1074)), (pow2_split 12 1074) by zlia.
    change (2 ^ 12) with 4096.
    pose proof (pow2_pos (p - 22 + 1074) ltac:(zlia)).
    assert (F2Z (used * gasPrice chain r2 / 1e18) * (3500 * 2 ^ 1074)
            <= 2 ^ (p - 22 + 1074) * (3500 * 2 ^ 1074)) by (apply Z.mul_le_mono_nonneg_r; zlia).
    znia. }
  destruct (mul_props _ _ (p - 10) Ne N35 HK2 ltac:(zlia)) as (Nu & Hu & _).
  split; trivial.
Qed.

(** The costs of an estimate are finite and non-negative. *)
Lemma estimate_costs chain r1 r2 a n :
  (0 <=? r2)%float = true -> (r2 <? 1)%float = true ->
  nonneg (avgGasPerTx chain r1 * of_Z n) ->
  F2Z (avgGasPerTx chain r1 * of_Z n) = a * n * 2 ^ 1074 ->
  0 <= a * n < 2 ^ 49 ->
  nonneg (gasCostETH (estimate (of_Z n) chain r1 r2))
  /\ nonneg (gasCostUSD (estimate (of_Z n) chain r1 r2)).
Proof.
  intros H0 H1 Ng Eg Han.
  destruct (estimate_bounds chain r1 r2 a n 49 H0 H1 Ng Eg ltac:(zlia) Han)
    as (Ne & _ & Nd & _).
  cbn [estimate gasCostETH gasCostUSD]. unfold round6, round2.
  split; apply round_nonneg; trivial; zlia.
Qed.

(** C6, as stated, fails: the count is a JavaScript number, and for a count
    as large as 1e308 the product with the gas per transaction overflows, so
    the gas used and both costs are [Infinity]. *)
Lemma huge_count_estimate_is_not_finite :
  let g := estimate Sample.huge_count eth (Sample.random 0) (Sample.random 1) in
  (0 <? Sample.huge_count)%float = true
  /\ generateMockGasData Sample.random Sample.huge_count eth Sample.world
     = (inl g, advance 2 Sample.world)
  /\ is_finite (gasUsed g) = false
  /\ is_finite (gasCostETH g) = false
  /\ is_finite (gasCostUSD g) = false.
Proof. vm_compute. repeat split. Qed.

(** C6, amended.  For a whole count [n] with [0 < n <= 2^32], either chain
    and draws of [Math.random] in [0, 1), the estimator returns, after two
    draws, an estimate whose [gasUsed] is the gas per transaction [a] drawn
    (a whole number from 21000, below 101000 on [eth] and 51000 on [base])
    times the count, computed without rounding error: a positive whole
    number, strictly larger for a larger count under the same draws.  The
    price is the second draw scaled to its range and multiplied by [1e9];
    [gasCostETH] is [gasUsed * gasPrice / 1e18] rounded to 6 digits and
    [gasCostUSD] is that quotient, before its rounding, times 3500, rounded
    to 2 digits.  All three values are finite and not negative. *)
Theorem positive_count_estimate :
  forall (random : nat -> number) (chain : Chain) (n : Z) (w : World),
    unit_draws random ->
    0 < n <= 2 ^ 32 ->
    let r1 := random (draws w) in
    let r2 := random (S (draws w)) in
    exists (a : Z) (g : GasInfo),
      generateMockGasData random (of_Z n) chain w = (inl g, advance 2 w)
      /\ avgGasPerTx chain r1 = of_Z a /\ 21000 <= a < draw_limit chain
      /\ gasUsed g = (avgGasPerTx chain r1 * of_Z n)%float
      /\ gasUsed g = of_Z (a * n) /\ 0 < a * n < 2 ^ 53
      /\ (forall n', n < n' <= 2 ^ 32 ->
            (gasUsed g <? gasUsed (estimate (of_Z n') chain r1 r2))%float = true)
      /\ gasPrice chain r2 =
         (match chain with
          | eth => r2 * 30 + 20
          | base => r2 * 0.009 + 0.001
          end * 1e9)%float
      /\ gasCostETH g =
         Number (toFixed (gasUsed g * gasPrice chain r2 / 1e18)%float 6)
      /\ gasCostUSD g =
         Number (toFixed (gasUsed g * gasPrice chain r2 / 1e18 * 3500)%float 2)
      /\ is_finite (gasUsed g) = true /\ (0 <? gasUsed g)%float = true
      /\ is_finite (gasCostETH g) = true /\ (0 <=? gasCostETH g)%float = true
      /\ is_finite (gasCostUSD g) = true /\ (0 <=? gasCostUSD g)%float = true.
Proof.
  intros random chain n w Hr Hn r1 r2.
  destruct (Hr (draws w)) as [H10 H11]. destruct (Hr (S (draws w))) as [H20 H21].
  fold r1 in H10, H11. fold r2 in H20, H21.
  destruct (avgGasPerTx_int chain r1 H10 H11) as (a & Ha & Na & Ea).
  assert (Hlim : 21000 + avg_bound chain = draw_limit chain) by (destruct chain; reflexivity).
  rewrite Hlim in Ha.
  assert (Hdl : draw_limit chain <= 2 ^ 17) by (destruct chain; cbn; lia).
  assert (Han : forall m, 0 < m <= 2 ^ 32 -> 0 < a * m < 2 ^ 49).
  { intros m Hm. change (2 ^ 49) with (2 ^ 17 * 2 ^ 32). nia. }
  assert (Hused : forall m, 0 < m <= 2 ^ 32 ->
            nonneg (avgGasPerTx chain r1 * of_Z m)
            /\ F2Z (avgGasPerTx chain r1 * of_Z m) = a * m * 2 ^ 1074
            /\ (avgGasPerTx chain r1 * of_Z m)%float = of_Z (a * m)).
  { intros m Hm. destruct (of_Z_props m ltac:(lia)) as [Nm Em].
    destruct (mul_int _ _ a m Na Nm Ea Em ltac:(lia) ltac:(lia)) as [Nu Eu].
    { specialize (Han m Hm). lia. }
    split; trivial. split; trivial.
    apply of_Z_unique; trivial. specialize (Han m Hm). lia. }
  destruct (Hused n Hn) as (Nu & Eu & Eu').
  exists a, (estimate (of_Z n) chain r1 r2).
  split.
  { rewrite generateMockGasData_eq, of_Z_nonzero by lia. reflexivity. }
  split; [apply of_Z_unique; trivial; lia|].
  split; [exact Ha|].
  cbn [estimate gasUsed]. split; [reflexivity|]. split; [exact Eu'|].
  split; [specialize (Han n Hn); lia|].
  split.
  { intros n' Hn'. destruct (Hused n' ltac:(lia)) as (_ & _ & ->). rewrite Eu'.
    pose proof (Han n' ltac:(lia)). apply of_Z_lt; nia. }
  split; [destruct chain; reflexivity|].
  destruct (estimate_costs chain r1 r2 a n H20 H21 Nu Eu ltac:(specialize (Han n Hn); lia))
    as [Ne Nd].
  cbn [estimate gasCostETH gasCostUSD] in Ne, Nd |- *.
  split; [reflexivity|]. split; [reflexivity|].
  pose proof (pow2_pos 1074 ltac:(lia)).
  repeat split.
  - now apply nonneg_is_finite.
  - apply positive_ltb; trivial. rewrite Eu. specialize (Han n Hn). nia.
  - now apply nonneg_is_finite.
  - now apply nonneg_leb.
  - now apply nonneg_is_finite.
  - now apply nonneg_leb.
Qed.

Lemma sample_draws : unit_draws Sample.random.
Proof. intros [|[|[|k]]]; split; reflexivity. Qed.

Lemma positive_count_witness :
  exists (a : Z) (g : GasInfo),
    generateMockGasData Sample.random (of_Z 100) eth Sample.world
    = (inl g, advance 2 Sample.world)
    /\ 21000 <= a < 101000
    /\ gasUsed g = of_Z (a * 100)
    /\ gasCostETH g = Number (toFixed (gasUsed g * gasPrice eth 0.25 / 1e18)%float 6)
    /\ is_finite (gasCostUSD g) = true.
Proof.
  destruct (positive_count_estimate Sample.random eth 100 Sample.world
              sample_draws ltac:(lia))
    as (a & g & H1 & _ & H3 & _ & H5 & _ & _ & _ & H9 & _ & _ & _ & _ & _ & H15 & _).
  exists a, g. repeat split; trivial; apply H3.
Defined.



(** * Sums of decimal amounts *)

Lemma Zsum_nonneg ts : Forall (fun t => 0 <= t) ts -> 0 <= Zsum ts.
Proof. unfold Zsum. induction 1; cbn in *; zlia. Qed.


Lemma Zsum_le ts B : Forall (fun t => 0 <= t <= B) ts -> Zsum ts <= Z.of_nat (List.length ts) * B.
Proof.
  unfold Zsum. induction 1; cbn [fold_right List.length] in *; [zlia|].
  rewrite Nat2Z.inj_succ. zlia.
Qed.

Section Sums.

Variables (f K : Z).
Hypothesis Hf : 0 <= f.
Hypothesis HK : -20 <= K <= 1023.

Lemma add_approx x y tx ty dx dy :
  approx f dx x tx -> approx f dy y ty ->
  (tx + ty + 1) * 2 ^ 1074 + dx + dy <= 2 ^ (K + 1074) * 10 ^ f ->
  approx f (dx + dy + (2 ^ (K - 54 + 1074) * 10 ^ f)) (x + y)%float (tx + ty).
Proof.
  intros (Nx & Htx & Ex) (Ny & Hty & Ey) Hr.
  pose proof (ten_pow_pos f Hf) as H10.
  pose proof (pow2_pos 1074 ltac:(zlia)) as HP.
  assert (Hlt : F2Z x + F2Z y < 2 ^ (K + 1074)).
  { assert ((F2Z x + F2Z y) * 10 ^ f < 2 ^ (K + 1074) * 10 ^ f) by zlia.
    apply Z.mul_lt_mono_pos_r in H; trivial. }
  destruct (add_props x y K Nx Ny Hlt ltac:(zlia)) as (N & Herr & _).
  split; trivial. split; [zlia|].
  assert (E : 2 ^ (K - 53 + 1074) = 2 * 2 ^ (K - 54 + 1074)).
  { rewrite <- Z.pow_succ_r by zlia. f_equal. zlia. }
  rewrite E in Herr.
  assert (Z.abs (F2Z (x + y) - (F2Z x + F2Z y)) <= 2 ^ (K - 54 + 1074)) by zlia.
  assert (Z.abs ((F2Z (x + y) - (F2Z x + F2Z y)) * 10 ^ f) <= (2 ^ (K - 54 + 1074) * 10 ^ f)).
  { rewrite Z.abs_mul, (Z.abs_eq (10 ^ f)) by zlia. 
    apply Z.mul_le_mono_nonneg_r; zlia. }
  zlia.
Qed.

Lemma fold_add_approx eta xs : forall ts acc A d,
  Forall2 (approx f eta) xs ts ->
  approx f d acc A -> 0 <= d -> 0 <= eta ->
  (A + Zsum ts + 1) * 2 ^ 1074 + d + Z.of_nat (List.length xs) * (eta + (2 ^ (K - 54 + 1074) * 10 ^ f))
    <= 2 ^ (K + 1074) * 10 ^ f ->
  approx f (d + Z.of_nat (List.length xs) * (eta + (2 ^ (K - 54 + 1074) * 10 ^ f)))
    (fold_left PrimFloat.add xs acc) (A + Zsum ts).
Proof.
  assert (HU : 0 <= (2 ^ (K - 54 + 1074) * 10 ^ f)).
  { pose proof (ten_pow_pos f Hf). pose proof (pow2_pos (K - 54 + 1074) ltac:(zlia)). znia. }
  induction xs as [|x xs IH]; intros ts acc A d HF Hacc Hd Heta Hr.
  - inversion HF; subst. cbn [fold_left List.length Zsum fold_right].
    replace (A + 0) with A by zlia.
    now replace (d + Z.of_nat 0 * (eta + (2 ^ (K - 54 + 1074) * 10 ^ f))) with d by zlia.
  - inversion HF as [|x' t xs' ts' Hx HF']; subst.
    cbn [fold_left]. cbn [List.length Zsum fold_right] in *. fold (Zsum ts') in *.
    rewrite Nat2Z.inj_succ in *.
    pose proof (Zsum_nonneg ts') as Hts.
    assert (0 <= Zsum ts').
    { apply Hts. clear - HF'. induction HF'; constructor; trivial. now destruct H as (_ & ? & _). }
    assert (Hstep : approx f (d + eta + (2 ^ (K - 54 + 1074) * 10 ^ f)) (acc + x)%float (A + t)).
    { apply add_approx; trivial. destruct Hacc as (_ & ? & _), Hx as (_ & ? & _). nia. }
    specialize (IH ts' (acc + x)%float (A + t) (d + eta + (2 ^ (K - 54 + 1074) * 10 ^ f)) HF' Hstep ltac:(zlia) Heta).
    replace (A + (t + Zsum ts')) with (A + t + Zsum ts') by zlia.
    replace (d + Z.succ (Z.of_nat (List.length xs)) * (eta + (2 ^ (K - 54 + 1074) * 10 ^ f)))
      with (d + eta + (2 ^ (K - 54 + 1074) * 10 ^ f) + Z.of_nat (List.length xs) * (eta + (2 ^ (K - 54 + 1074) * 10 ^ f))) by zlia.
    apply IH. zlia.
Qed.

End Sums.

(** [toFixed] recovers the decimal a sum stands for. *)
Lemma toFixed_exact x f T :
  0 <= f <= 20 -> nonneg x -> 0 <= T < 10 ^ 21 * 10 ^ f - 1 ->
  2 * Z.abs (F2Z x * 10 ^ f - T * 2 ^ 1074) < 2 ^ 1074 ->
  toFixed x f = FixedDecimal false T f.
Proof.
  intros Hf N HT HE. pose proof (Prim2SF_valid x) as V.
  pose proof (pow2_pos 1074 ltac:(zlia)) as HP.
  pose proof (ten_pow_pos f ltac:(zlia)) as H10.
  unfold toFixed, nonneg, F2Z in *.
  destruct (Prim2SF x) as [s| | |[] m e] eqn:E; cbn [sf_nonneg SF2Z cond_Zopp] in *; try contradiction.
  - f_equal. znia.
  - destruct (valid_finite_inv _ _ _ V) as (He & _).
    assert (Hlt : Z.pos m * 2 ^ (e + 1074) < 10 ^ 21 * 2 ^ 1074).
    { assert (Z.pos m * 2 ^ (e + 1074) * 10 ^ f < 10 ^ 21 * 2 ^ 1074 * 10 ^ f) by znia.
      apply Z.mul_lt_mono_pos_r in H; trivial. }
    assert (E21 : at_least_1e21 m e = false).
    { unfold at_least_1e21. destruct (Z.leb_spec 0 e) as [H|H]; apply Z.leb_gt.
      - rewrite (pow2_split e 1074) in Hlt by zlia. znia.
      - pose proof (pow2_pos (e + 1074) ltac:(zlia)). pose proof (pow2_pos (- e) ltac:(zlia)).
        assert (E' : 2 ^ 1074 = 2 ^ (- e) * 2 ^ (e + 1074)).
        { rewrite <- pow2_split by zlia. f_equal. zlia. }
        rewrite E' in Hlt. znia. }
    rewrite E21. f_equal.
    destruct (nearest_scaled_bounds m e f ltac:(zlia) ltac:(zlia)) as [Hn _].
    set (n := nearest_scaled m e f) in *.
    assert (Z.abs (2 * ((n - T) * 2 ^ 1074)) < 2 * 2 ^ 1074) by zlia.
    rewrite Z.mul_assoc, Z.abs_mul, (Z.abs_eq (2 ^ 1074)) in H by zlia.
    assert (Z.abs (2 * (n - T)) < 2) by znia. zlia.
Qed.


Lemma decimal_approx f B Kc c :
  0 <= f -> is_decimal f B c ->
  Zdigits2 B - Zdigits2 (10 ^ f) + 1 <= Kc -> -1020 <= Kc <= 1023 ->
  approx f (2 ^ (Kc - 54 + 1074) * 10 ^ f) c (decimal_of f c).
Proof.
  intros Hf [Hn Hc] HK HKr. set (n := decimal_of f c) in *.
  pose proof (ten_pow_pos f Hf) as H10.
  pose proof (pow2_pos (Kc - 54 + 1074) ltac:(zlia)) as HP.
  destruct (Z.eq_dec n 0) as [E0|N0].
  - rewrite E0 in Hc. cbn [Number] in Hc. rewrite Hc, E0.
    split; [exact I|]. split; [zlia|]. change (F2Z 0) with 0. cbn [Z.mul Z.sub Z.abs]. znia.
  - assert (Hd : Zdigits2 n <= Zdigits2 B) by (apply Zdigits2_le; zlia).
    destruct (Number_decimal_props n f Kc ltac:(zlia) Hf ltac:(zlia) ltac:(zlia))
      as (N & _ & e1 & He1 & _ & Herr).
    rewrite <- Hc in N, Herr.
    split; trivial. split; [zlia|].
    rewrite Z.max_l in He1 by zlia.
    assert (2 ^ (e1 + 1074) <= 2 ^ (Kc - 53 + 1074)) by (apply pow2_le; zlia).
    assert (E : 2 ^ (Kc - 53 + 1074) = 2 * 2 ^ (Kc - 54 + 1074)).
    { rewrite <- Z.pow_succ_r by zlia. f_equal. zlia. }
    assert (2 ^ (e1 + 1074) * 10 ^ f <= 2 * 2 ^ (Kc - 54 + 1074) * 10 ^ f)
      by (apply Z.mul_le_mono_nonneg_r; zlia).
    zlia.
Qed.

Lemma fold_left_add_map (c : Wallet -> number) ws : forall acc,
  sum_from c ws acc = fold_left PrimFloat.add (map c ws) acc.
Proof. unfold sum_from. induction ws; intros; cbn; trivial. Qed.

Lemma approx_zero f : approx f 0 0%float 0.
Proof. split; [exact I|]. split; [zlia|]. change (F2Z 0) with 0. cbn. zlia. Qed.

Lemma Forall2_map_approx f eta (c : Wallet -> number) (t : Wallet -> Z) ws :
  Forall (fun w => approx f eta (c w) (t w)) ws ->
  Forall2 (approx f eta) (map c ws) (map t ws).
Proof. induction 1; cbn; constructor; trivial. Qed.

(** A native total is the exact sum of the wallets' amounts, rounded once. *)
Lemma native_total_exact (c : Wallet -> number) ws :
  Forall (fun w => is_decimal 6 (10 ^ 9) (c w)) ws ->
  (List.length ws <= 1000)%nat ->
  round6 (sum c ws)
  = Number (FixedDecimal false (Zsum (map (fun w => decimal_of 6 (c w)) ws)) 6).
Proof.
  intros Hdec Hlen. unfold round6, sum. rewrite fold_left_add_map.
  set (t := fun w => decimal_of 6 (c w)).
  set (eta := 2 ^ (11 - 54 + 1074) * 10 ^ 6).
  assert (HA : Forall (fun w => approx 6 eta (c w) (t w)) ws).
  { eapply Forall_impl; [|exact Hdec]. intros w Hw.
    apply (decimal_approx 6 (10 ^ 9) 11); trivial; try lia.
    vm_compute. discriminate. }
  assert (Hsum : 0 <= Zsum (map t ws) <= Z.of_nat (List.length (map t ws)) * 10 ^ 9).
  { split.
    - apply Zsum_nonneg. apply Forall_map. eapply Forall_impl; [|exact Hdec].
      intros w [H _]. unfold t. zlia.
    - apply Zsum_le. apply Forall_map. eapply Forall_impl; [|exact Hdec].
      intros w [H _]. exact H. }
  rewrite length_map in Hsum.
  change (11 - 54 + 1074) with 1031 in eta.
  set (W := 2 ^ 1041).
  assert (HW : 0 < W) by (apply pow2_pos; zlia).
  assert (E1074 : 2 ^ 1074 = 2 ^ 33 * W) by (unfold W; rewrite <- pow2_split by zlia; reflexivity).
  assert (E1031 : 2 ^ 10 * 2 ^ 1031 = W) by (unfold W; rewrite <- pow2_split by zlia; reflexivity).
  assert (E1095 : 2 ^ (21 + 1074) = 2 ^ 54 * W) by (unfold W; rewrite <- pow2_split by zlia; reflexivity).
  assert (HU : 2 ^ (21 - 54 + 1074) = W) by reflexivity.
  pose proof (pow2_pos 1031 ltac:(zlia)) as H1031.
  assert (Hl : 0 <= Z.of_nat (List.length ws) <= 1000) by zlia.
  set (L := Z.of_nat (List.length ws)) in *.
  set (S := Zsum (map t ws)) in *.
  assert (Herrb : L * (eta + 2 ^ (21 - 54 + 1074) * 10 ^ 6) <= 1000 * ((2 ^ 1031 + W) * 10 ^ 6)).
  { rewrite HU. unfold eta.
    replace (2 ^ 1031 * 10 ^ 6 + W * 10 ^ 6) with ((2 ^ 1031 + W) * 10 ^ 6) by ring.
    apply Z.mul_le_mono_nonneg_r; zlia. }
  destruct (fold_add_approx 6 21 ltac:(zlia) ltac:(zlia) eta (map c ws) (map t ws) 0%float 0 0)
    as (N & HT & HE).
  - now apply Forall2_map_approx.
  - apply approx_zero.
  - zlia.
  - unfold eta. zlia.
  - rewrite length_map. fold L. fold S. rewrite E1095, E1074. change (10 ^ 6) with 1000000 in *.
    change (2 ^ 33) with 8589934592. change (2 ^ 54) with 18014398509481984.
    change (10 ^ 9) with 1000000000 in *. znia.
  - rewrite length_map in HE. fold L in HE. fold S in HE. cbn [Z.add] in HE, HT |- *.
    f_equal. apply toFixed_exact; trivial; zlia.
Qed.


Lemma leb_zero_of_Z_nonneg c b :
  0 <= b < 2 ^ 53 ->
  (0 <=? c)%float = true -> (c <=? of_Z b)%float = true ->
  nonneg c /\ F2Z c <= b * 2 ^ 1074.
Proof.
  intros Hb H0 H1. destruct (of_Z_props b Hb) as [Nb Eb].
  assert (N : nonneg c).
  { rewrite leb_spec in H0. change (Prim2SF 0) with (S754_zero false) in H0.
    apply SFleb_zero_inv; trivial. intros E.
    rewrite leb_spec, E in H1. unfold nonneg in Nb.
    destruct (Prim2SF (of_Z b)) as [s| | |[] m e]; cbn in *; try contradiction; discriminate. }
  split; trivial.
  rewrite (leb_nonneg _ _ N Nb), Eb in H1. now apply Z.leb_le.
Qed.

Lemma rounded_is_decimal f limit c :
  0 <= f <= 20 -> 0 <= limit -> limit * 10 ^ f < 10 ^ 21 -> limit < 2 ^ 53 ->
  rounded f limit c -> is_decimal f (limit * 10 ^ f) c.
Proof.
  intros Hf Hl Hlim H53 (H0 & H1 & Hfix).
  destruct (leb_zero_of_Z_nonneg c limit ltac:(zlia) H0 H1) as [N Hc].
  pose proof (Prim2SF_valid c) as V.
  pose proof (pow2_pos 1074 ltac:(zlia)) as HP.
  pose proof (ten_pow_pos f ltac:(zlia)) as H10.
  unfold is_decimal, decimal_of. unfold toFixed in *. unfold nonneg, F2Z in *.
  destruct (Prim2SF c) as [s| | |[] m e] eqn:E; cbn [sf_nonneg SF2Z cond_Zopp] in *; try contradiction.
  - split; [znia|]. now rewrite Hfix.
  - destruct (valid_finite_inv _ _ _ V) as (He & _).
    assert (E21 : at_least_1e21 m e = false).
    { unfold at_least_1e21. destruct (Z.leb_spec 0 e) as [H|H]; apply Z.leb_gt.
      - rewrite (pow2_split e 1074) in Hc by zlia.
        assert (Z.pos m * 2 ^ e <= limit) by znia. znia.
      - pose proof (pow2_pos (e + 1074) ltac:(zlia)). pose proof (pow2_pos (- e) ltac:(zlia)).
        assert (E' : 2 ^ 1074 = 2 ^ (- e) * 2 ^ (e + 1074)).
        { rewrite <- pow2_split by zlia. f_equal. zlia. }
        rewrite E' in Hc.
        assert (Z.pos m <= limit * 2 ^ (- e)) by znia. znia. }
    rewrite E21 in *.
    destruct (nearest_scaled_bounds m e f ltac:(zlia) ltac:(zlia)) as [Hn Hn0].
    split; [|now rewrite Hfix].
    split; trivial.
    set (n := nearest_scaled m e f) in *.
    assert (Z.pos m * 2 ^ (e + 1074) * 10 ^ f <= limit * 2 ^ 1074 * 10 ^ f)
      by (apply Z.mul_le_mono_nonneg_r; zlia).
    assert (2 * (n - limit * 10 ^ f) * 2 ^ 1074 <= 2 ^ 1074) by zlia.
    znia.
Qed.


Lemma toFixed_small x f Kx :
  0 <= f <= 20 -> 0 <= Kx <= 50 ->
  nonneg x -> F2Z x <= 2 ^ (Kx + 1074) ->
  exists n, toFixed x f = FixedDecimal false n f /\ 0 <= n <= 2 ^ Kx * 10 ^ f.
Proof.
  intros Hf HKx N Hx.
  pose proof (Prim2SF_valid x) as V.
  pose proof (pow2_pos 1074 ltac:(zlia)) as HP.
  pose proof (pow2_pos Kx ltac:(zlia)) as HPK.
  pose proof (ten_pow_pos f ltac:(zlia)) as H10.
  unfold toFixed. unfold nonneg, F2Z in N, Hx.
  destruct (Prim2SF x) as [s| | |[] m e] eqn:E; cbn [sf_nonneg SF2Z cond_Zopp] in *; try contradiction.
  - exists 0. split; [reflexivity|znia].
  - destruct (valid_finite_inv _ _ _ V) as (He & _).
    assert (H50 : 2 ^ Kx <= 2 ^ 50) by (apply pow2_le; zlia).
    assert (E21 : at_least_1e21 m e = false).
    { rewrite (pow2_split Kx 1074) in Hx by zlia.
      unfold at_least_1e21. destruct (Z.leb_spec 0 e) as [H|H]; apply Z.leb_gt.
      - rewrite (pow2_split e 1074) in Hx by zlia.
        assert (Z.pos m * 2 ^ e <= 2 ^ Kx) by znia.
        assert (2 ^ 50 < 10 ^ 21) by (vm_compute; reflexivity). zlia.
      - pose proof (pow2_pos (e + 1074) ltac:(zlia)). pose proof (pow2_pos (- e) ltac:(zlia)).
        assert (E' : 2 ^ 1074 = 2 ^ (- e) * 2 ^ (e + 1074)).
        { rewrite <- pow2_split by zlia. f_equal. zlia. }
        rewrite E' in Hx.
        assert (Z.pos m <= 2 ^ Kx * 2 ^ (- e)) by znia.
        assert (2 ^ 50 < 10 ^ 21) by (vm_compute; reflexivity). znia. }
    rewrite E21. exists (nearest_scaled m e f). split; [reflexivity|].
    destruct (nearest_scaled_bounds m e f ltac:(zlia) ltac:(zlia)) as [Hn Hn0].
    split; trivial.
    set (n := nearest_scaled m e f) in *.
    assert (Z.pos m * 2 ^ (e + 1074) * 10 ^ f <= 2 ^ (Kx + 1074) * 10 ^ f)
      by (apply Z.mul_le_mono_nonneg_r; zlia).
    rewrite (pow2_split Kx 1074) in H by zlia.
    assert (2 * (n - 2 ^ Kx * 10 ^ f) * 2 ^ 1074 <= 2 ^ 1074) by zlia.
    znia.
Qed.

(** Rounding is idempotent, and does not leave the range, on values that
    are not too large. *)
Lemma round_props x f Kx :
  0 <= f <= 20 -> 0 <= Kx -> Kx + 4 * f <= 50 ->
  nonneg x -> F2Z x <= 2 ^ (Kx + 1074) ->
  let c := Number (toFixed x f) in
  nonneg c /\ Number (toFixed c f) = c
  /\ F2Z c * 10 ^ f <= (2 ^ Kx * 10 ^ f + 1) * 2 ^ 1074.
Proof.
  intros Hf HKx HK N Hx c.
  pose proof (pow2_pos 1074 ltac:(zlia)) as HP.
  pose proof (pow2_pos Kx HKx) as HPK.
  pose proof (ten_pow_pos f ltac:(zlia)) as H10.
  destruct (toFixed_small x f Kx Hf ltac:(zlia) N Hx) as (n & En & Hn).
  unfold c. rewrite En. clear c.
  destruct (Z.eq_dec n 0) as [E0|N0].
  { rewrite E0. cbn [Number]. split; [exact I|]. split; [reflexivity|].
    change (F2Z 0%float) with 0. znia. }
  assert (H50 : 2 ^ Kx <= 2 ^ 50) by (apply pow2_le; zlia).
  pose proof (Zdigits2_pos (10 ^ f) H10) as Hd10.
  assert (Hdn : Zdigits2 n <= Kx + 1 + Zdigits2 (10 ^ f)).
  { transitivity (Zdigits2 (2 ^ Kx * 10 ^ f)); [apply Zdigits2_le; zlia|].
    rewrite <- (Zdigits2_pow2 Kx HKx). apply Zdigits2_mul_le; zlia. }
  destruct (Number_decimal_props n f (Kx + 2) ltac:(zlia) ltac:(zlia) ltac:(zlia) ltac:(zlia))
    as (Nc & _ & e1 & He1 & _ & Herr).
  set (d := Number (FixedDecimal false n f)) in *.
  assert (H4f : 10 ^ f <= 2 ^ (4 * f)) by (apply ten_pow_le_two; zlia).
  assert (Hsmall : 2 ^ (e1 + 1074) * 10 ^ f <= 2 ^ 1073).
  { assert (2 ^ (e1 + 1074) * 10 ^ f <= 2 ^ (e1 + 1074) * 2 ^ (4 * f)).
    { apply Z.mul_le_mono_nonneg_l; [|trivial]. apply Z.pow_nonneg. zlia. }
    rewrite <- pow2_split in H by zlia.
    assert (2 ^ (e1 + 1074 + 4 * f) <= 2 ^ 1073) by (apply pow2_le; zlia). zlia. }
  assert (E1074 : 2 ^ 1074 = 2 * 2 ^ 1073) by (rewrite <- Z.pow_succ_r by zlia; reflexivity).
  pose proof (pow2_pos 1073 ltac:(zlia)).
  split; trivial. split.
  - rewrite (toFixed_exact d f n); trivial; try lia.
    assert (2 ^ 50 * 10 ^ f < 10 ^ 21 * 10 ^ f - 1).
    { assert (2 ^ 50 + 1 <= 10 ^ 21) by (vm_compute; discriminate). znia. }
    znia.
  - znia.
Qed.

(** A rounded amount below [limit] is [rounded]. *)
Lemma round_rounded x f Kx limit :
  0 <= f <= 20 -> 0 <= Kx -> Kx + 4 * f <= 50 ->
  2 ^ Kx < limit < 2 ^ 53 ->
  nonneg x -> F2Z x <= 2 ^ (Kx + 1074) ->
  rounded f limit (Number (toFixed x f)).
Proof.
  intros Hf HKx HK Hl N Hx.
  destruct (round_props x f Kx Hf HKx HK N Hx) as (Nc & Hfix & Hb).
  destruct (of_Z_props limit ltac:(zlia)) as [Nl El].
  pose proof (pow2_pos 1074 ltac:(zlia)) as HP.
  pose proof (ten_pow_pos f ltac:(zlia)) as H10.
  split; [now apply nonneg_leb|]. split; [|exact Hfix].
  rewrite (leb_nonneg _ _ Nc Nl), El. apply Z.leb_le.
  assert (F2Z (Number (toFixed x f)) * 10 ^ f <= limit * 2 ^ 1074 * 10 ^ f) by nia.
  apply Z.mul_le_mono_pos_r in H; trivial.
Qed.


Lemma usd_cost_eq w : usd_cost w = (usd_of (gas_eth w) + usd_of (gas_base w))%float.
Proof. reflexivity. Qed.

Lemma fiat_total_exact ws :
  Forall (fun w => is_decimal 2 (10 ^ 9) (usd_of (gas_eth w))
                   /\ is_decimal 2 (10 ^ 9) (usd_of (gas_base w))) ws ->
  (List.length ws <= 1000)%nat ->
  round2 (sum usd_cost ws) = Number (FixedDecimal false (cents ws) 2).
Proof.
  intros Hdec Hlen. unfold round2, sum, cents. rewrite fold_left_add_map.
  set (t := fun w => decimal_of 2 (usd_of (gas_eth w)) + decimal_of 2 (usd_of (gas_base w))).
  set (eta0 := 2 ^ (24 - 54 + 1074) * 10 ^ 2).
  set (U := 2 ^ (35 - 54 + 1074) * 10 ^ 2).
  set (eta := eta0 + eta0 + U).
  change (24 - 54 + 1074) with 1044 in eta0. change (35 - 54 + 1074) with 1055 in U.
  set (W := 2 ^ 1055).
  assert (HW : 0 < W) by (apply pow2_pos; zlia).
  pose proof (pow2_pos 1044 ltac:(zlia)) as H1044.
  assert (E1074 : 2 ^ 1074 = 2 ^ 19 * W) by (unfold W; rewrite <- pow2_split by zlia; reflexivity).
  assert (E1044 : 2 ^ 11 * 2 ^ 1044 = W) by (unfold W; rewrite <- pow2_split by zlia; reflexivity).
  assert (E1109 : 2 ^ (35 + 1074) = 2 ^ 54 * W) by (unfold W; rewrite <- pow2_split by zlia; reflexivity).
  change (10 ^ 2) with 100 in *. change (10 ^ 9) with 1000000000 in *.
  change (2 ^ 19) with 524288 in *. change (2 ^ 54) with 18014398509481984 in *.
  change (2 ^ 11) with 2048 in *.
  assert (HA : Forall (fun w => approx 2 eta (usd_cost w) (t w)) ws).
  { eapply Forall_impl; [|exact Hdec]. intros w [H1 H2].
    pose proof (decimal_approx 2 1000000000 24 _ ltac:(zlia) H1 ltac:(vm_compute; discriminate) ltac:(zlia)) as A1.
    pose proof (decimal_approx 2 1000000000 24 _ ltac:(zlia) H2 ltac:(vm_compute; discriminate) ltac:(zlia)) as A2.
    rewrite usd_cost_eq. unfold eta, t.
    apply (add_approx 2 35 ltac:(zlia) ltac:(zlia)); trivial.
    destruct H1 as [H1 _], H2 as [H2 _].
    change (24 - 54 + 1074) with 1044. change (10 ^ 2) with 100.
    rewrite E1109, E1074. zlia. }
  assert (Ht : Forall (fun x => 0 <= x <= 2 * 1000000000) (map t ws)).
  { apply Forall_map. eapply Forall_impl; [|exact Hdec]. intros w [[H1 _] [H2 _]]. unfold t. zlia. }
  assert (Hsum : 0 <= Zsum (map t ws) <= Z.of_nat (List.length (map t ws)) * (2 * 1000000000)).
  { split; [|now apply Zsum_le].
    apply Zsum_nonneg. eapply Forall_impl; [|exact Ht]. intros; cbn in *; zlia. }
  rewrite length_map in Hsum.
  assert (Hl : 0 <= Z.of_nat (List.length ws) <= 1000) by zlia.
  set (L := Z.of_nat (List.length ws)) in *.
  set (S := Zsum (map t ws)) in *.
  assert (Herrb : L * (eta + U) <= 1000 * (eta + U)).
  { apply Z.mul_le_mono_nonneg_r; unfold eta, eta0, U; zlia. }
  destruct (fold_add_approx 2 35 ltac:(zlia) ltac:(zlia) eta (map usd_cost ws) (map t ws) 0%float 0 0)
    as (N & HT & HE).
  - now apply Forall2_map_approx.
  - apply approx_zero.
  - zlia.
  - unfold eta, eta0, U. zlia.
  - rewrite length_map. fold L. fold S. fold U.
    rewrite E1109, E1074. change (10 ^ 2) with 100. unfold eta, eta0, U in *. zlia.
  - rewrite length_map in HE. fold L in HE. fold S in HE. fold U in HE.
    cbn [Z.add] in HE, HT |- *.
    f_equal. apply toFixed_exact; trivial; try zlia.
Qed.

Lemma realistic_decimals w :
  realistic w ->
  is_decimal 6 (10 ^ 9) (eth_cost w) /\ is_decimal 6 (10 ^ 9) (base_cost w)
  /\ is_decimal 2 (10 ^ 9) (usd_of (gas_eth w))
  /\ is_decimal 2 (10 ^ 9) (usd_of (gas_base w)).
Proof.
  intros (H1 & H2 & H3 & H4).
  change (10 ^ 9) with (1000 * 10 ^ 6) at 1 2.
  change (10 ^ 9) with (10 ^ 7 * 10 ^ 2).
  split; [|split; [|split]]; apply rounded_is_decimal; trivial; zlia.
Qed.

(** The totals of realistic wallets are the exact decimal sums. *)
Lemma aggregate_exact ws :
  Forall realistic ws -> (List.length ws <= 1000)%nat ->
  aggregate ws =
  (Number (FixedDecimal false (micro_eth ws) 6),
   Number (FixedDecimal false (micro_base ws) 6),
   Number (FixedDecimal false (cents ws) 2)).
Proof.
  intros HR Hlen. unfold aggregate.
  rewrite (native_total_exact eth_cost), (native_total_exact base_cost), fiat_total_exact;
    trivial; (eapply Forall_impl; [|exact HR]); intros w Hw;
    destruct (realistic_decimals w Hw) as (H1 & H2 & H3 & H4); tauto.
Qed.



(** The amounts of an estimate for at most [2^14] transactions. *)
Lemma estimate_rounded chain r1 r2 n :
  (0 <=? r1)%float = true -> (r1 <? 1)%float = true ->
  (0 <=? r2)%float = true -> (r2 <? 1)%float = true ->
  0 < n <= 2 ^ 14 ->
  rounded 6 1000 (gasCostETH (estimate (of_Z n) chain r1 r2))
  /\ rounded 2 (10 ^ 7) (gasCostUSD (estimate (of_Z n) chain r1 r2)).
Proof.
  intros H10 H11 H20 H21 Hn.
  destruct (avgGasPerTx_int chain r1 H10 H11) as (a & Ha & Na & Ea).
  assert (Hdl : 21000 + avg_bound chain <= 2 ^ 17) by (destruct chain; cbn; zlia).
  assert (Han : 0 < a * n < 2 ^ 31) by (change (2 ^ 31) with (2 ^ 17 * 2 ^ 14); znia).
  destruct (of_Z_props n ltac:(zlia)) as [Nn En].
  destruct (mul_int _ _ a n Na Nn Ea En ltac:(zlia) ltac:(zlia) ltac:(zlia)) as [Nu Eu].
  destruct (estimate_bounds chain r1 r2 a n 31 H20 H21 Nu Eu ltac:(zlia) ltac:(zlia))
    as (Ne & He & Nd & Hd).
  cbn [estimate gasCostETH gasCostUSD]. unfold round6, round2. split.
  - apply (round_rounded _ 6 9); trivial; zlia.
  - apply (round_rounded _ 2 21); trivial; zlia.
Qed.

Lemma zero_rounded f limit :
  0 <= limit < 2 ^ 53 -> rounded f limit 0%float.
Proof.
  intros Hl. destruct (of_Z_props limit Hl) as [N E].
  split; [reflexivity|]. split; [|reflexivity].
  rewrite (leb_nonneg _ _ nonneg_zero N), E. change (F2Z 0) with 0.
  apply Z.leb_le. pose proof (pow2_pos 1074 ltac:(zlia)). znia.
Qed.

Lemma generated_rounded random c chain w g w' :
  unit_draws random -> small_count c ->
  generateMockGasData random c chain w = (inl g, w') ->
  rounded 6 1000 (gasCostETH g) /\ rounded 2 (10 ^ 7) (gasCostUSD g).
Proof.
  intros Hr (n & Hn & ->) E. rewrite generateMockGasData_eq in E.
  destruct (Z.eq_dec n 0) as [->|N0].
  - change (of_Z 0 =? 0)%float with true in E. inversion E; subst.
    split; apply zero_rounded; zlia.
  - rewrite of_Z_nonzero in E by zlia. inversion E; subst.
    destruct (Hr (draws w)), (Hr (S (draws w))).
    apply estimate_rounded; trivial; zlia.
Qed.

(** The wallets the route enriches are realistic when the counts are. *)
Lemma enriched_realistic random w ws ws' w' :
  unit_draws random -> Forall small_counts ws ->
  enriched random w ws ws' w' -> Forall realistic ws'.
Proof.
  intros Hr Hc HE. induction HE; [constructor|].
  inversion Hc as [|x l [He Hb] Hc']; subst.
  constructor; [|now apply IHHE].
  destruct (generated_rounded _ _ _ _ _ _ Hr He H) as [A1 A2].
  destruct (generated_rounded _ _ _ _ _ _ Hr Hb H0) as [B1 B2].
  repeat split; cbn [eth_cost base_cost usd_of with_gas gas_eth gas_base];
    first [apply A1 | apply A2 | apply B1 | apply B2].
Qed.

(** * The totals of a successful lookup *)

(** ** The totals in the JSON sent *)

Lemma json_number_decimal n f :
  0 <= n < 2 ^ 1000 -> 0 <= f ->
  json_number (Number (FixedDecimal false n f))
  = Some (Number (FixedDecimal false n f)).
Proof.
  intros Hn Hf. unfold Number.
  destruct n as [|p|p]; [reflexivity| |lia].
  pose proof (ten_pow_pos f Hf) as H10.
  assert (E10 : Z.pos (Z.to_pos (10 ^ f)) = 10 ^ f) by (apply Z2Pos.id; zlia).
  destruct (SFdiv_props false p 0 false (Z.to_pos (10 ^ f)) 0 1023 ltac:(lia) ltac:(lia))
    as (Hv & Hfin & Hs & _); [|lia|].
  { change (Z.pos (digits2_pos (Z.to_pos (10 ^ f)))) with (Zdigits2 (Z.pos (Z.to_pos (10 ^ f)))).
    rewrite E10. change (Z.pos (digits2_pos p)) with (Zdigits2 (Z.pos p)).
    pose proof (Zdigits2_lt_pow (Z.pos p) 1000 ltac:(lia) ltac:(lia) ltac:(zlia)).
    pose proof (Zdigits2_pos (10 ^ f) H10). lia. }
  unfold json_number. rewrite Prim2SF_of_valid by exact Hv.
  cbv zeta in Hfin, Hs.
  destruct (SFdiv prec emax (S754_finite false p 0)
              (S754_finite false (Z.to_pos (10 ^ f)) 0)) as [s|s| |s m e];
    cbn [sf_finite sf_sign xorb] in Hfin, Hs; try discriminate; trivial.
  subst s. reflexivity.
Qed.

Lemma Zsum_bounds {A} (t : A -> Z) B (l : list A) :
  Forall (fun a => 0 <= t a <= B) l ->
  0 <= Zsum (map t l) <= Z.of_nat (List.length l) * B.
Proof.
  intros H. split.
  - apply Zsum_nonneg. apply Forall_map. eapply Forall_impl; [|exact H].
    cbv beta. intros; lia.
  - rewrite <- (length_map t l). apply Zsum_le. now apply Forall_map.
Qed.

Lemma realistic_totals_sent ws :
  Forall realistic ws -> (List.length ws <= 1000)%nat ->
  json_number (round6 (sum eth_cost ws)) = Some (round6 (sum eth_cost ws))
  /\ json_number (round6 (sum base_cost ws)) = Some (round6 (sum base_cost ws))
  /\ json_number (round2 (sum usd_cost ws)) = Some (round2 (sum usd_cost ws)).
Proof.
  intros HR Hlen. pose proof (aggregate_exact ws HR Hlen) as HA.
  unfold aggregate in HA.
  pose proof (f_equal (fun t => fst (fst t)) HA) as H1.
  pose proof (f_equal (fun t => snd (fst t)) HA) as H2.
  pose proof (f_equal snd HA) as H3. cbv beta in H1, H2. cbn [fst snd] in H1, H2, H3.
  rewrite H1, H2, H3. clear HA H1 H2 H3.
  assert (HL : Z.of_nat (List.length ws) <= 1000) by lia.
  assert (B1 : 0 <= micro_eth ws <= Z.of_nat (List.length ws) * 10 ^ 9).
  { apply Zsum_bounds. eapply Forall_impl; [|exact HR]. intros w Hw.
    destruct (realistic_decimals w Hw) as ((H & _) & _). exact H. }
  assert (B2 : 0 <= micro_base ws <= Z.of_nat (List.length ws) * 10 ^ 9).
  { apply Zsum_bounds. eapply Forall_impl; [|exact HR]. intros w Hw.
    destruct (realistic_decimals w Hw) as (_ & (H & _) & _). exact H. }
  assert (B3 : 0 <= cents ws <= Z.of_nat (List.length ws) * (2 * 10 ^ 9)).
  { apply Zsum_bounds. eapply Forall_impl; [|exact HR]. intros w Hw.
    destruct (realistic_decimals w Hw) as (_ & _ & (H & _) & (H' & _)). lia. }
  assert (HP : 2 ^ 64 <= 2 ^ 1000) by (apply Z.pow_le_mono_r; lia).
  change (10 ^ 9) with 1000000000 in *.
  change (2 ^ 64) with 18446744073709551616 in HP.
  repeat split; apply json_number_decimal; try lia;
    (split; [lia|]); clear - HL B1 B2 B3 HP; zlia.
Qed.

(** ** The totals of the answer *)

(** C2, as stated, fails: the backend may report success without a wallet
    list, and then the handler's guard [data.success && data.wallets] skips
    the totals. *)
Lemma success_without_wallets_has_no_totals :
  let response :=
    fst (GET Sample.BACKEND_URL Sample.random
           (Sample.answers (Sample.found None)) (Some (lit "dwr.eth"))
           Sample.world) in
  success (Sample.found None) = true
  /\ status response = 200
  /\ success (body response) = true
  /\ total_gas_used_eth (body response) = None
  /\ total_gas_used_base (body response) = None
  /\ total_gas_usd (body response) = None.
Proof. repeat split. Qed.

(** C2, amended.  When the backend reports success the answer has status
    200.  If the report supplies a wallet list, the body handed to
    [NextResponse.json] carries every wallet with both estimates and the
    three totals, each the left-to-right sum over the returned wallets
    (native cost per chain; fiat cost of both chains together) rounded after
    the summation, to 6 digits for the native totals and 2 for the fiat
    total; the JSON sent carries each total as [json_number] gives it, that
    is as the number itself when it is finite and as [null] when it is not;
    with no wallets the three totals are 0; and when the counts are whole
    numbers up to [2^14], the wallets at most 1000 and the draws in [0, 1),
    the three totals are finite and sent as they are.  If the report has no
    wallet list, it is returned as received, without computed totals. *)
Theorem success_totals_are_rounded_sums :
  forall BACKEND_URL random backend (user q : jsstring) st (data : GasData)
         (w : World),
    trim user <> [] ->
    encodeURIComponent (trim user) = Some q ->
    backend (backend_url BACKEND_URL q) = Resolved st (Some data) ->
    ok st = true ->
    success data = true ->
    let response := fst (GET BACKEND_URL random backend (Some user) w) in
    status response = 200
    /\ (forall ws, wallets data = Some ws ->
        exists ws',
          wallets (body response) = Some ws'
          /\ List.length ws' = List.length ws
          /\ Forall (fun w' => gas_eth w' <> None /\ gas_base w' <> None) ws'
          /\ total_gas_used_eth (body response)
             = Some (Number (toFixed (sum eth_cost ws') 6))
          /\ total_gas_used_base (body response)
             = Some (Number (toFixed (sum base_cost ws') 6))
          /\ total_gas_usd (body response)
             = Some (Number (toFixed (sum usd_cost ws') 2))
          /\ sent_totals (body response)
             = (json_number (Number (toFixed (sum eth_cost ws') 6)),
                json_number (Number (toFixed (sum base_cost ws') 6)),
                json_number (Number (toFixed (sum usd_cost ws') 2)))
          /\ (ws = [] ->
              total_gas_used_eth (body response) = Some 0%float
              /\ total_gas_used_base (body response) = Some 0%float
              /\ total_gas_usd (body response) = Some 0%float
              /\ sent_totals (body response)
                 = (Some 0%float, Some 0%float, Some 0%float))
          /\ (unit_draws random -> Forall small_counts ws ->
              (List.length ws <= 1000)%nat ->
              sent_totals (body response)
              = (Some (Number (toFixed (sum eth_cost ws') 6)),
                 Some (Number (toFixed (sum base_cost ws') 6)),
                 Some (Number (toFixed (sum usd_cost ws') 2)))))
    /\ (wallets data = None -> response = {| status := 200; body := data |}).
Proof.
  intros * Hu Hq Hb Hok Hs response. subst response.
  destruct (wallets data) as [ws0|] eqn:W.
  - destruct (GET_success BACKEND_URL random backend user q st data ws0 w
                Hu Hq Hb Hok Hs W) as (ws' & k & HE & HG).
    rewrite HG. cbn [fst status]. split; [reflexivity|]. split; [|discriminate].
    intros ws Hws. inversion Hws; subst ws0. clear Hws. exists ws'.
    unfold sent_totals.
    cbn [body with_totals wallets total_gas_used_eth total_gas_used_base
         total_gas_usd totalGasETH totalGasBase totalGasUSD sent].
    split; [reflexivity|].
    split; [exact (enriched_length random _ _ _ _ HE)|].
    split; [exact (enriched_has_estimates random _ _ _ _ HE)|].
    split; [reflexivity|]. split; [reflexivity|]. split; [reflexivity|].
    split; [reflexivity|]. split.
    + intros ->. inversion HE; subst. repeat split.
    + intros Hr Hc Hl.
      pose proof (enriched_realistic random _ _ _ _ Hr Hc HE) as HR.
      assert (Hl' : (List.length ws' <= 1000)%nat)
        by (rewrite (enriched_length random _ _ _ _ HE); exact Hl).
      destruct (realistic_totals_sent ws' HR Hl') as (H1 & H2 & H3).
      unfold round6, round2 in H1, H2, H3. rewrite H1, H2, H3. reflexivity.
  - rewrite (GET_named _ _ _ _ _ Hu). unfold try_catch.
    rewrite (lookup_answers _ _ _ user q st data w Hq Hb Hok), Hs, W.
    cbn [fst status]. split; [reflexivity|]. split; [discriminate|reflexivity].
Qed.

Lemma success_totals_witness :
  let response :=
    fst (GET Sample.BACKEND_URL Sample.random
           (Sample.answers (Sample.found (Some [Sample.wallet; Sample.second_wallet])))
           (Some (lit "dwr.eth")) Sample.world) in
  exists ws',
    wallets (body response) = Some ws'
    /\ List.length ws' = 2%nat
    /\ total_gas_used_eth (body response)
       = Some (Number (toFixed (sum eth_cost ws') 6))
    /\ total_gas_used_base (body response)
       = Some (Number (toFixed (sum base_cost ws') 6))
    /\ total_gas_usd (body response)
       = Some (Number (toFixed (sum usd_cost ws') 2))
    /\ sent_totals (body response)
       = (Some (Number (toFixed (sum eth_cost ws') 6)),
          Some (Number (toFixed (sum base_cost ws') 6)),
          Some (Number (toFixed (sum usd_cost ws') 2))).
Proof.
  destruct (success_totals_are_rounded_sums
              Sample.BACKEND_URL Sample.random
              (Sample.answers (Sample.found (Some [Sample.wallet; Sample.second_wallet])))
              (lit "dwr.eth") (lit "dwr.eth") 200
              (Sample.found (Some [Sample.wallet; Sample.second_wallet]))
              Sample.world ltac:(discriminate) eq_refl eq_refl eq_refl eq_refl)
    as (_ & H & _).
  destruct (H [Sample.wallet; Sample.second_wallet] eq_refl)
    as (ws' & H1 & H2 & _ & H4 & H5 & H6 & _ & _ & H9).
  exists ws'. repeat split; trivial. apply H9.
  - exact sample_draws.
  - repeat constructor.
    + exists 100. split; [lia|reflexivity].
    + exists 50. split; [lia|reflexivity].
    + exists 7. split; [lia|reflexivity].
    + exists 0. split; [lia|reflexivity].
  - cbn. lia.
Defined.


(** * The order of the wallets *)





(** * White space and encoding *)

(** ** [String.prototype.trim] *)

Lemma trimStart_blank s : trimStart s = [] <-> blank s = true.
Proof.
  induction s as [|c s IH]; cbn; [tauto|].
  destruct (is_white_space c); cbn; [exact IH|]. split; discriminate.
Qed.

Lemma trimStart_split s :
  exists l, s = l ++ trimStart s /\ blank l = true.
Proof.
  induction s as [|c s (l & E & B)]; [exists []; split; reflexivity|].
  cbn. destruct (is_white_space c) eqn:W.
  - exists (c :: l). split; [cbn [app]; now f_equal|].
    change (blank (c :: l)) with (is_white_space c && blank l). now rewrite W, B.
  - exists []. split; reflexivity.
Qed.

Lemma trimStart_head s :
  match trimStart s with c :: _ => is_white_space c = false | [] => True end.
Proof.
  induction s as [|c s IH]; cbn; trivial.
  destruct (is_white_space c) eqn:W; trivial.
Qed.

Lemma trimStart_fixed s :
  match s with c :: _ => is_white_space c = false | [] => True end ->
  trimStart s = s.
Proof. destruct s as [|c s]; cbn; trivial. now intros ->. Qed.

Lemma blank_app l r : blank (l ++ r) = blank l && blank r.
Proof. apply forallb_app. Qed.

Lemma blank_rev s : blank (rev s) = blank s.
Proof.
  induction s as [|c s IH]; trivial.
  cbn [rev]. rewrite blank_app, IH. cbn. rewrite andb_true_r. apply andb_comm.
Qed.

Lemma trimEnd_split s :
  exists r, s = trimEnd s ++ r /\ blank r = true.
Proof.
  unfold trimEnd. destruct (trimStart_split (rev s)) as (l & E & B).
  exists (rev l). rewrite blank_rev. split; trivial.
  rewrite <- rev_app_distr, <- E. now rewrite rev_involutive.
Qed.

Lemma trim_split s :
  exists l r, s = l ++ trim s ++ r /\ blank l = true /\ blank r = true.
Proof.
  destruct (trimStart_split s) as (l & El & Bl).
  destruct (trimEnd_split (trimStart s)) as (r & Er & Br).
  exists l, r. unfold trim. now rewrite <- Er.
Qed.

Lemma trim_blank s : trim s = [] <-> blank s = true.
Proof.
  destruct (trim_split s) as (l & r & E & Bl & Br). split.
  - intros H. rewrite H in E. cbn [app] in E. rewrite E, blank_app, Bl, Br. reflexivity.
  - intros H. unfold trim, trimEnd.
    apply trimStart_blank in H. rewrite H. reflexivity.
Qed.

Lemma trim_last s :
  match rev (trim s) with c :: _ => is_white_space c = false | [] => True end.
Proof.
  unfold trim, trimEnd. rewrite rev_involutive. apply trimStart_head.
Qed.

Lemma trim_head s :
  match trim s with c :: _ => is_white_space c = false | [] => True end.
Proof.
  pose proof (trimStart_head s) as H.
  destruct (trimEnd_split (trimStart s)) as (r & E & _).
  fold (trim s) in E. destruct (trim s) as [|c t]; trivial.
  rewrite E in H. exact H.
Qed.

Lemma trim_fixed s :
  match s with c :: _ => is_white_space c = false | [] => True end ->
  match rev s with c :: _ => is_white_space c = false | [] => True end ->
  trim s = s.
Proof.
  intros H1 H2. unfold trim, trimEnd.
  rewrite (trimStart_fixed s H1), (trimStart_fixed (rev s) H2).
  apply rev_involutive.
Qed.

(** X1.  [trim] removes white space from both ends and nothing else: the
    string is its trimmed form between two runs of white space, the
    trimmed form neither starts nor ends with white space, trimming again
    changes nothing, and the result is empty exactly for a string of white
    space only. *)
Theorem trim_strips_both_ends :
  forall s : jsstring,
    (exists l r, s = l ++ trim s ++ r /\ blank l = true /\ blank r = true)
    /\ match trim s with c :: _ => is_white_space c = false | [] => True end
    /\ match rev (trim s) with c :: _ => is_white_space c = false | [] => True end
    /\ trim (trim s) = trim s
    /\ (trim s = [] <-> blank s = true).
Proof.
  intros s. split; [apply trim_split|]. split; [apply trim_head|].
  split; [apply trim_last|]. split; [|apply trim_blank].
  apply trim_fixed; [apply trim_head|apply trim_last].
Qed.


(** ** [encodeURIComponent] *)

Lemma hex_digit_unreserved d :
  (d < 16)%N -> is_uri_unreserved (hex_digit d) = true.
Proof.
  intros H.
  assert (E : existsb (N.eqb d) [0;1;2;3;4;5;6;7;8;9;10;11;12;13;14;15]%N = true).
  { cbn [existsb]. repeat (match goal with |- context [N.eqb d ?k] =>
              destruct (N.eqb_spec d k) as [->|?]; [reflexivity|] end). lia. }
  cbn [existsb] in E.
  repeat (apply orb_true_iff in E; destruct E as [E|E];
          [apply N.eqb_eq in E; subst d; reflexivity|]).
  discriminate.
Qed.

Lemma percent_byte_chars b :
  (b < 256)%N -> forallb is_component_char (percent_byte b) = true.
Proof.
  intros H. unfold percent_byte. cbn [forallb]. unfold is_component_char at 2 3.
  rewrite !hex_digit_unreserved.
  - reflexivity.
  - apply N.mod_lt. discriminate.
  - apply N.Div0.div_lt_upper_bound. exact H.
Qed.

Lemma utf8_bytes cp :
  (cp < 0x110000)%N -> Forall (fun b => (b < 256)%N) (utf8 cp).
Proof.
  intros H. unfold utf8.
  pose proof (N.mod_lt cp 64 ltac:(discriminate)) as M0.
  pose proof (N.mod_lt (cp / 64) 64 ltac:(discriminate)) as M1.
  pose proof (N.mod_lt (cp / 4096) 64 ltac:(discriminate)) as M2.
  destruct (N.ltb_spec cp 0x80) as [H1|H1]; [repeat constructor; lia|].
  destruct (N.ltb_spec cp 0x800) as [H2|H2].
  { pose proof (N.Div0.div_lt_upper_bound cp 64 32 ltac:(lia)).
    repeat constructor; lia. }
  destruct (N.ltb_spec cp 0x10000) as [H3|H3].
  { pose proof (N.Div0.div_lt_upper_bound cp 4096 16 ltac:(lia)).
    repeat constructor; lia. }
  pose proof (N.Div0.div_lt_upper_bound cp 262144 5 ltac:(lia)).
  repeat constructor; lia.
Qed.

Lemma percent_encode_chars cp :
  (cp < 0x110000)%N -> forallb is_component_char (percent_encode cp) = true.
Proof.
  intros H. unfold percent_encode.
  pose proof (utf8_bytes cp H) as HB.
  induction HB as [|b bs Hb _ IH]; [reflexivity|].
  cbn [flat_map]. rewrite forallb_app, percent_byte_chars, IH; trivial.
Qed.

Lemma encodeURIComponent_chars n : forall s q,
  (List.length s <= n)%nat ->
  Forall is_code_unit s ->
  encodeURIComponent s = Some q ->
  forallb is_component_char q = true.
Proof.
  induction n as [|n IH]; intros s q Hn Hs E.
  - destruct s; [|cbn in Hn; lia]. cbn in E. now inversion E.
  - destruct s as [|c s]; [cbn in E; now inversion E|].
    inversion Hs as [|? ? Hc Hs']; subst. cbn [List.length] in Hn.
    cbn [encodeURIComponent] in E.
    destruct (is_uri_unreserved c) eqn:U.
    { destruct (encodeURIComponent s) as [q'|] eqn:E'; [|discriminate].
      cbn in E. inversion E; subst. cbn [forallb].
      unfold is_component_char at 1. rewrite U. cbn [orb andb].
      apply (IH s); trivial. lia. }
    destruct (is_low_surrogate c) eqn:L; [discriminate|].
    destruct (is_high_surrogate c) eqn:Hh.
    + destruct s as [|lo s'']; [discriminate|].
      destruct (is_low_surrogate lo) eqn:L'; [|discriminate].
      destruct (encodeURIComponent s'') as [q'|] eqn:E'; [|discriminate].
      cbn in E. inversion E; subst.
      inversion Hs' as [|? ? Hlo Hs'']; subst. cbn [List.length] in Hn.
      rewrite forallb_app, (IH s'' q'); trivial; [|lia].
      rewrite andb_true_r. apply percent_encode_chars.
      unfold is_high_surrogate, is_low_surrogate in *.
      apply andb_true_iff in Hh, L'. destruct Hh as [H1 H2], L' as [H3 H4].
      apply N.leb_le in H1, H2, H3, H4. lia.
    + destruct (encodeURIComponent s) as [q'|] eqn:E'; [|discriminate].
      cbn in E. inversion E; subst.
      rewrite forallb_app, (IH s q'); trivial; [|lia].
      rewrite andb_true_r. apply percent_encode_chars.
      unfold is_code_unit in Hc. lia.
Qed.

Lemma encodeURIComponent_unreserved s :
  forallb is_uri_unreserved s = true -> encodeURIComponent s = Some s.
Proof.
  induction s as [|c s IH]; [reflexivity|].
  cbn [forallb encodeURIComponent]. intros H. apply andb_true_iff in H.
  destruct H as [-> H]. now rewrite (IH H).
Qed.

Lemma encodeURIComponent_total n : forall s,
  (List.length s <= n)%nat ->
  forallb (fun c => negb (is_surrogate c)) s = true ->
  encodeURIComponent s <> None.
Proof.
  induction n as [|n IH]; intros s Hn Hs.
  - destruct s; [discriminate|cbn in Hn; lia].
  - destruct s as [|c s]; [discriminate|].
    cbn [forallb] in Hs. apply andb_true_iff in Hs. destruct Hs as [Hc Hs].
    cbn [List.length] in Hn.
    unfold is_surrogate in Hc. apply negb_true_iff, orb_false_iff in Hc.
    destruct Hc as [Hh Hl].
    cbn [encodeURIComponent]. rewrite Hh, Hl.
    specialize (IH s ltac:(lia) Hs).
    destruct (encodeURIComponent s); [|congruence].
    destruct (is_uri_unreserved c); discriminate.
Qed.

(** X2.  For a string of UTF-16 code units, the component
    [encodeURIComponent] returns consists of unreserved characters and [%]
    only, so that no [&], [=], [#], [/], [?] or space of a user name reaches
    the query string; the call succeeds on every string without surrogates,
    and a string of unreserved characters is returned as it is. *)
Theorem encoded_component_is_inert :
  forall s : jsstring,
    Forall is_code_unit s ->
    (forall q, encodeURIComponent s = Some q -> forallb is_component_char q = true)
    /\ (forallb (fun c => negb (is_surrogate c)) s = true -> encodeURIComponent s <> None)
    /\ (forallb is_uri_unreserved s = true -> encodeURIComponent s = Some s).
Proof.
  intros s Hs. split; [|split].
  - intros q. now apply (encodeURIComponent_chars (List.length s)).
  - now apply (encodeURIComponent_total (List.length s)).
  - apply encodeURIComponent_unreserved.
Qed.

Lemma encoded_component_witness :
  forallb is_component_char (lit "dwr.eth%20a%2Fb%3Fc%26d%3De") = true
  /\ encodeURIComponent (lit "dwr.eth") = Some (lit "dwr.eth").
Proof.
  assert (H : Forall is_code_unit (lit "dwr.eth a/b?c&d=e"))
    by (repeat constructor).
  split.
  - exact (proj1 (encoded_component_is_inert _ H) _ eq_refl).
  - apply (encoded_component_is_inert (lit "dwr.eth")); [repeat constructor|reflexivity].
Defined.


(** ** Names read from the URL *)

Lemma unreserved_not_surrogate c :
  is_uri_unreserved c = true ->
  is_low_surrogate c = false /\ is_high_surrogate c = false.
Proof.
  unfold is_uri_unreserved, is_low_surrogate, is_high_surrogate. intros H.
  split; apply not_true_is_false; intros H'; code_unit_cases; lia.
Qed.

Lemma white_space_not_surrogate c :
  is_white_space c = true ->
  is_low_surrogate c = false /\ is_high_surrogate c = false.
Proof.
  unfold is_white_space, is_low_surrogate, is_high_surrogate. intros H.
  split; apply not_true_is_false; intros H'; code_unit_cases; lia.
Qed.

Lemma encodeURIComponent_well_formed n : forall s,
  (List.length s <= n)%nat -> is_well_formed s = true ->
  encodeURIComponent s <> None.
Proof.
  induction n as [|n IH]; intros s Hn Hs.
  - destruct s; [discriminate|cbn in Hn; lia].
  - destruct s as [|c s]; [discriminate|].
    cbn [List.length] in Hn. cbn [encodeURIComponent].
    cbn [is_well_formed] in Hs.
    destruct (is_uri_unreserved c) eqn:U.
    + destruct (unreserved_not_surrogate c U) as [L H]. rewrite L, H in Hs.
      specialize (IH s ltac:(lia) Hs).
      destruct (encodeURIComponent s); [discriminate|congruence].
    + destruct (is_low_surrogate c); [discriminate|].
      destruct (is_high_surrogate c).
      * destruct s as [|lo s]; [discriminate|].
        apply andb_true_iff in Hs. destruct Hs as [-> Hs].
        cbn [List.length] in Hn. specialize (IH s ltac:(lia) Hs).
        destruct (encodeURIComponent s); [discriminate|congruence].
      * specialize (IH s ltac:(lia) Hs).
        destruct (encodeURIComponent s); [discriminate|congruence].
Qed.

Lemma well_formed_after_blank l s :
  blank l = true -> is_well_formed (l ++ s) = is_well_formed s.
Proof.
  induction l as [|c l IH]; [reflexivity|].
  change (blank (c :: l)) with (is_white_space c && blank l).
  intros H. apply andb_true_iff in H. destruct H as [W B].
  destruct (white_space_not_surrogate c W) as [L H].
  cbn [app is_well_formed]. rewrite L, H. exact (IH B).
Qed.

Lemma well_formed_before_blank n : forall s r,
  (List.length s <= n)%nat -> blank r = true ->
  is_well_formed (s ++ r) = true -> is_well_formed s = true.
Proof.
  induction n as [|n IH]; intros s r Hn B H.
  - destruct s; [reflexivity|cbn in Hn; lia].
  - destruct s as [|c s]; [reflexivity|].
    cbn [List.length] in Hn. cbn [app is_well_formed] in H |- *.
    destruct (is_low_surrogate c); [discriminate|].
    destruct (is_high_surrogate c).
    + destruct s as [|lo s].
      * cbn [app] in H. destruct r as [|lo r]; [discriminate|].
        change (blank (lo :: r)) with (is_white_space lo && blank r) in B.
        apply andb_true_iff in B. destruct B as [W _].
        destruct (white_space_not_surrogate lo W) as [L _].
        rewrite L in H. discriminate.
      * cbn [app] in H. apply andb_true_iff in H. destruct H as [-> H].
        cbn [List.length] in Hn. exact (IH s r ltac:(lia) B H).
    + exact (IH s r ltac:(lia) B H).
Qed.

Lemma well_formed_trim s :
  is_well_formed s = true -> is_well_formed (trim s) = true.
Proof.
  intros H. destruct (trim_split s) as (l & r & E & Bl & Br).
  rewrite E, (well_formed_after_blank l _ Bl) in H.
  exact (well_formed_before_blank _ _ r (Nat.le_refl _) Br H).
Qed.

Lemma search_param_encodes user :
  is_well_formed user = true -> encodeURIComponent (trim user) <> None.
Proof.
  intros H. apply (encodeURIComponent_well_formed (List.length (trim user)));
    [lia|now apply well_formed_trim].
Qed.


(** * The ways a request ends *)

Section HandlerCases.

Variable BACKEND_URL : jsstring.
Variable random : nat -> number.
Variable backend : jsstring -> FetchResult.

Lemma backend_cases url :
  backend_fails backend url \/ exists data, answered backend url data.
Proof.
  unfold backend_fails, answered.
  destruct (backend url) as [|st [data|]] eqn:E.
  - now left; left.
  - destruct (ok st) eqn:O.
    + right. exists data, st. now split.
    + left. right. left. exists st, (Some data). now split.
  - left. right. right. now exists st.
Qed.

Lemma backend_fails_not_answered url data :
  backend_fails backend url -> answered backend url data -> False.
Proof.
  intros [H|[(st & json & H & O)|(st & H)]] (st' & E & O'); rewrite E in H;
    inversion H; subst; congruence.
Qed.

Lemma GET_unencodable user w :
  trim user <> [] -> encodeURIComponent (trim user) = None ->
  GET BACKEND_URL random backend (Some user) w
  = (backend_unavailable user, console_error URIError w).
Proof.
  intros Hu E. rewrite GET_named by exact Hu.
  unfold try_catch, lookup, bind. rewrite E. reflexivity.
Qed.

Lemma GET_passes user q data w :
  trim user <> [] -> encodeURIComponent (trim user) = Some q ->
  answered backend (backend_url BACKEND_URL q) data ->
  success data = false \/ wallets data = None ->
  GET BACKEND_URL random backend (Some user) w
  = ({| status := 200; body := data |}, logged (backend_url BACKEND_URL q) w).
Proof.
  intros Hu E (st & Hb & Hok) H. rewrite GET_named by exact Hu.
  unfold try_catch. rewrite (lookup_answers _ _ _ user q st data w E Hb Hok).
  destruct H as [-> | ->]; [reflexivity|]. now destruct (success data).
Qed.

Lemma generateMockGasData_world txCount chain w g w' :
  generateMockGasData random txCount chain w = (inl g, w') ->
  w' = advance (if needs_estimate txCount then 2 else 0) w.
Proof.
  rewrite generateMockGasData_eq. unfold needs_estimate.
  destruct (txCount =? 0)%float; intros E; inversion E; subst; cbn [negb].
  - now rewrite advance_0.
  - reflexivity.
Qed.

Lemma enriched_world w ws ws' w' :
  enriched random w ws ws' w' -> w' = advance (2 * estimates_needed ws) w.
Proof.
  induction 1 as [w|w wallet ws g1 g2 w1 w2 ws' w3 E1 E2 _ IH].
  - now rewrite advance_0.
  - apply generateMockGasData_world in E1, E2. subst w1 w2 w3.
    rewrite !advance_advance. f_equal.
    unfold estimates_needed. cbn [flat_map app filter].
    destruct (needs_estimate (eth_tx_count wallet)),
             (needs_estimate (base_tx_count wallet)); cbn [List.length]; lia.
Qed.

End HandlerCases.


Section HandlerOutcome.

Variable BACKEND_URL : jsstring.
Variable random : nat -> number.
Variable backend : jsstring -> FetchResult.

Lemma blank_trim user : blank user = false <-> trim user <> [].
Proof.
  rewrite <- not_true_iff_false. now rewrite trim_blank.
Qed.

Lemma GET_blank user w :
  blank user = true ->
  GET BACKEND_URL random backend (Some user) w = (username_required, w).
Proof. intros H. apply trim_blank in H. unfold GET. now rewrite H. Qed.

(** The five ways a request ends. *)
Lemma GET_cases param w :
  let answer := GET BACKEND_URL random backend param w in
  (answer = (username_required, w)
   /\ (param = None \/ exists user, param = Some user /\ blank user = true))
  \/ (exists user, param = Some user /\ blank user = false
      /\ encodeURIComponent (trim user) = None
      /\ answer = (backend_unavailable user, console_error URIError w))
  \/ (exists user q t, param = Some user /\ blank user = false
      /\ encodeURIComponent (trim user) = Some q
      /\ backend_fails backend (backend_url BACKEND_URL q)
      /\ answer = (backend_unavailable user,
                   console_error t (logged (backend_url BACKEND_URL q) w)))
  \/ (exists user q data, param = Some user /\ blank user = false
      /\ encodeURIComponent (trim user) = Some q
      /\ answered backend (backend_url BACKEND_URL q) data
      /\ (success data = false \/ wallets data = None)
      /\ answer = ({| status := 200; body := data |},
                   logged (backend_url BACKEND_URL q) w))
  \/ (exists user q data ws ws', param = Some user /\ blank user = false
      /\ encodeURIComponent (trim user) = Some q
      /\ answered backend (backend_url BACKEND_URL q) data
      /\ success data = true /\ wallets data = Some ws
      /\ enriched random (logged (backend_url BACKEND_URL q) w) ws ws'
           (advance (2 * estimates_needed ws) (logged (backend_url BACKEND_URL q) w))
      /\ answer = ({| status := 200;
                      body := with_totals data ws'
                                {| totalGasETH := sum eth_cost ws';
                                   totalGasBase := sum base_cost ws';
                                   totalGasUSD := sum usd_cost ws' |} |},
                   advance (2 * estimates_needed ws)
                     (logged (backend_url BACKEND_URL q) w))).
Proof.
  intros answer. subst answer.
  destruct param as [user|]; [|left; split; [reflexivity|now left]].
  destruct (blank user) eqn:B.
  { left. split; [now apply GET_blank|]. right. now exists user. }
  right. pose proof (proj1 (blank_trim user) B) as Hu.
  destruct (encodeURIComponent (trim user)) as [q|] eqn:E.
  2:{ left. exists user. repeat split; trivial. now apply GET_unencodable. }
  right.
  destruct (backend_cases backend (backend_url BACKEND_URL q)) as [F|(data & A)].
  { left. destruct (GET_fails BACKEND_URL random backend user q w Hu E F) as (t & G).
    exists user, q, t. repeat split; trivial. }
  right.
  destruct (success data) eqn:S; [destruct (wallets data) as [ws|] eqn:W|].
  - right. destruct A as (st & Hb & Hok).
    destruct (GET_success BACKEND_URL random backend user q st data ws w Hu E Hb Hok S W)
      as (ws' & k & HE & G).
    pose proof (enriched_world random _ _ _ _ HE) as Hk. rewrite Hk in HE, G.
    exists user, q, data, ws, ws'. repeat split; trivial. now exists st.
  - left. exists user, q, data. repeat split; trivial; [now right|].
    apply GET_passes; trivial. now right.
  - left. exists user, q, data. repeat split; trivial; [now left|].
    apply GET_passes; trivial. now left.
Qed.

End HandlerOutcome.


(** X3.  For a parameter as the URL parser delivers it and a backend whose
    JSON bodies are report objects, the status is 400, 503 or 200, and tells
    the outcome: 400 exactly when the parameter is missing or blank; 503
    exactly when the name is not blank and the backend call fails ([fetch]
    rejects, the status is not 2xx, or the body is not JSON); 200 exactly
    when the backend answers the lookup with a 2xx status and a report,
    whatever that status and whatever the report says. *)
Theorem status_tells_the_outcome :
  forall BACKEND_URL random backend (param : option jsstring) (w : World),
    is_search_param param = true ->
    let response := fst (GET BACKEND_URL random backend param w) in
    (status response = 400
     <-> param = None \/ exists user, param = Some user /\ blank user = true)
    /\ (status response = 503
        <-> exists user q, param = Some user /\ blank user = false
            /\ encodeURIComponent (trim user) = Some q
            /\ backend_fails backend (backend_url BACKEND_URL q))
    /\ (status response = 200
        <-> exists user q st data, param = Some user /\ blank user = false
            /\ encodeURIComponent (trim user) = Some q
            /\ backend (backend_url BACKEND_URL q) = Resolved st (Some data)
            /\ ok st = true)
    /\ (status response = 400 \/ status response = 503 \/ status response = 200).
Proof.
  intros BACKEND_URL random backend param w Hwf response. subst response.
  pose proof (GET_cases BACKEND_URL random backend param w) as H. cbv zeta in H.
  GET_case H; rewrite G; cbn [fst status username_required backend_unavailable].
  - split; [tauto|]. split; [|split; [|tauto]].
    + split; [discriminate|]. intros (user & q & P & B & _).
      destruct H as [->|(u & -> & B')]; [discriminate|]. inversion P; congruence.
    + split; [discriminate|]. intros (user & q & st & data & P & B & _).
      destruct H as [->|(u & -> & B')]; [discriminate|]. inversion P; congruence.
  - exfalso. subst param. cbn [is_search_param] in Hwf.
    exact (search_param_encodes user' Hwf E).
  - split; [|split; [|split; [|tauto]]].
    + split; [discriminate|]. intros [->|(u & P' & B')]; [discriminate|].
      rewrite P in P'. inversion P'; congruence.
    + split; [|trivial]. intros _. exists user', q'. repeat split; trivial.
    + split; [discriminate|]. intros (u & q & st & data & P' & _ & E' & Hb & O).
      rewrite P in P'. inversion P'; subst u. rewrite E in E'. inversion E'; subst q.
      exfalso. apply (backend_fails_not_answered backend _ data F). now exists st.
  - split; [|split; [|split; [|tauto]]].
    + split; [discriminate|]. intros [->|(u & P' & B')]; [discriminate|].
      rewrite P in P'. inversion P'; congruence.
    + split; [discriminate|]. intros (u & q & P' & _ & E' & F).
      rewrite P in P'; inversion P'; subst u.
      rewrite E in E'. inversion E'; subst q.
      exfalso. exact (backend_fails_not_answered backend _ data' F A).
    + split; [|trivial]. intros _. destruct A as (st & Hb & O).
      exists user', q', st, data'. tauto.
  - split; [|split; [|split; [|tauto]]].
    + split; [discriminate|]. intros [->|(u & P' & B')]; [discriminate|].
      rewrite P in P'. inversion P'; congruence.
    + split; [discriminate|]. intros (u & q & P' & _ & E' & F).
      rewrite P in P'; inversion P'; subst u.
      rewrite E in E'. inversion E'; subst q.
      exfalso. exact (backend_fails_not_answered backend _ data' F A).
    + split; [|trivial]. intros _. destruct A as (st & Hb & O).
      exists user', q', st, data'. tauto.
Qed.

Lemma status_witness :
  let response :=
    fst (GET Sample.BACKEND_URL Sample.random Sample.down
           (Some (lit " dwr.eth ")) Sample.world) in
  status response = 503
  /\ exists user q, Some (lit " dwr.eth ") = Some user /\ blank user = false
       /\ encodeURIComponent (trim user) = Some q
       /\ backend_fails Sample.down (backend_url Sample.BACKEND_URL q).
Proof.
  cbv zeta. split; [reflexivity|].
  apply (status_tells_the_outcome Sample.BACKEND_URL Sample.random Sample.down
           (Some (lit " dwr.eth ")) Sample.world); reflexivity.
Defined.

(** X4.  A name as the URL parser delivers it can always be encoded, so a
    name that is not blank is always looked up, with one request; and
    [console.error] receives exactly the failure of that request: the
    rejection of [fetch], the [Backend error] of a status that is not 2xx,
    or the parse error of a body that is not JSON.  Nothing is logged when
    the backend answers with a report. *)
Theorem a_name_from_the_url_is_looked_up :
  forall BACKEND_URL random backend (user : jsstring) (w : World),
    is_well_formed user = true ->
    blank user = false ->
    let (response, w') := GET BACKEND_URL random backend (Some user) w in
    exists q,
      encodeURIComponent (trim user) = Some q
      /\ fetched w' = fetched w ++ [backend_url BACKEND_URL q]
      /\ match backend (backend_url BACKEND_URL q) with
         | Rejected =>
             status response = 503 /\ console w' = console w ++ [FetchFailed]
         | Resolved st json =>
             if ok st then
               match json with
               | Some data => status response = 200 /\ console w' = console w
               | None =>
                   status response = 503
                   /\ console w' = console w ++ [InvalidJSON]
               end
             else
               status response = 503
               /\ console w' = console w ++ [BackendError st]
         end.
Proof.
  intros BACKEND_URL random backend user w Hwf Hb.
  apply blank_trim in Hb.
  destruct (encodeURIComponent (trim user)) as [q|] eqn:E;
    [|exfalso; exact (search_param_encodes user Hwf E)].
  rewrite (GET_named _ _ _ _ _ Hb). unfold try_catch.
  destruct (backend (backend_url BACKEND_URL q)) as [|st [data|]] eqn:Hq.
  - unfold lookup, bind, fetch. rewrite E. cbn. rewrite Hq. cbn.
    exists q. rewrite Hq. repeat split.
  - destruct (ok st) eqn:O.
    + rewrite (lookup_answers _ _ _ user q st data w E Hq O).
      destruct (success data) eqn:S; [destruct (wallets data) as [ws|] eqn:W|].
      * destruct (enrich_all_returns random ws zero_totals
                    (logged (backend_url BACKEND_URL q) w))
          as (ws' & k & -> & _).
        exists q. rewrite Hq, O. repeat split.
      * exists q. rewrite Hq, O. repeat split.
      * exists q. rewrite Hq, O. repeat split.
    + unfold lookup, bind, fetch. rewrite E. cbn. rewrite Hq. cbn. rewrite O. cbn.
      exists q. rewrite Hq, O. repeat split.
  - unfold lookup, bind, fetch. rewrite E. cbn. rewrite Hq. cbn.
    destruct (ok st) eqn:O; cbn; exists q; rewrite Hq, O; repeat split.
Qed.

Lemma looked_up_witness :
  let (response, w') :=
    GET Sample.BACKEND_URL Sample.random Sample.down
      (Some (lit "d w" ++ [0xD83D; 0xDE00]%N)) Sample.world in
  exists q,
    encodeURIComponent (trim (lit "d w" ++ [0xD83D; 0xDE00]%N)) = Some q
    /\ fetched w' = [] ++ [backend_url Sample.BACKEND_URL q]
    /\ status response = 503 /\ console w' = [] ++ [FetchFailed].
Proof.
  apply (a_name_from_the_url_is_looked_up Sample.BACKEND_URL Sample.random
           Sample.down (lit "d w" ++ [0xD83D; 0xDE00]%N) Sample.world);
    reflexivity.
Defined.

Lemma Forall_trim (P : code_unit -> Prop) s : Forall P s -> Forall P (trim s).
Proof.
  intros H. destruct (trim_split s) as (l & r & E & _). rewrite E in H.
  apply Forall_app in H. destruct H as [_ H]. apply Forall_app in H. tauto.
Qed.

(** X5.  A request makes at most one call to the backend: none for a
    blank or unencodable name, and otherwise exactly one, to
    [BACKEND_URL + "/api/gas?username=" + q] where [q], the encoded trimmed
    name, has unreserved characters and [%] only. *)
Theorem at_most_one_request_with_an_inert_query :
  forall BACKEND_URL random backend (user : jsstring) (w : World),
    Forall is_code_unit user ->
    let w' := snd (GET BACKEND_URL random backend (Some user) w) in
    (fetched w' = fetched w
     /\ (blank user = true \/ encodeURIComponent (trim user) = None))
    \/ (exists q,
          blank user = false
          /\ encodeURIComponent (trim user) = Some q
          /\ forallb is_component_char q = true
          /\ fetched w' = fetched w ++ [BACKEND_URL ++ lit "/api/gas?username=" ++ q]).
Proof.
  intros BACKEND_URL random backend user w Hcu w'. subst w'.
  pose proof (GET_cases BACKEND_URL random backend (Some user) w) as H. cbv zeta in H.
  assert (Hq : forall q, encodeURIComponent (trim user) = Some q ->
                         forallb is_component_char q = true).
  { intros q. apply (encodeURIComponent_chars (List.length (trim user))); trivial.
    now apply Forall_trim. }
  GET_case H; rewrite G; cbn [snd]; try (inversion P; subst user').
  - left. split; trivial. destruct H as [H|(u & P & B)]; [discriminate|].
    inversion P; subst u. now left.
  - left. split; [reflexivity|now right].
  - right. exists q'. repeat split; trivial. now apply Hq.
  - right. exists q'. repeat split; trivial. now apply Hq.
  - right. exists q'. repeat split; trivial. now apply Hq.
Qed.

Lemma one_request_witness :
  let w' := snd (GET Sample.BACKEND_URL Sample.random Sample.down
                   (Some (lit " a&b=c ")) Sample.world) in
  (fetched w' = []
   /\ (blank (lit " a&b=c ") = true
       \/ encodeURIComponent (trim (lit " a&b=c ")) = None))
  \/ (exists q,
        blank (lit " a&b=c ") = false
        /\ encodeURIComponent (trim (lit " a&b=c ")) = Some q
        /\ forallb is_component_char q = true
        /\ fetched w' = [] ++ [Sample.BACKEND_URL ++ lit "/api/gas?username=" ++ q]).
Proof.
  apply (at_most_one_request_with_an_inert_query Sample.BACKEND_URL Sample.random
           Sample.down (lit " a&b=c ") Sample.world).
  repeat constructor.
Defined.

(** X6.  [Math.random] is called exactly twice for each count other than 0
    among the wallets of a successful report, and not at all when the
    request is refused with 400, when the backend call fails, or when the
    backend's report is not a success with wallets. *)
Theorem random_is_drawn_twice_per_estimate :
  forall BACKEND_URL random backend (param : option jsstring) (w : World),
    let response := fst (GET BACKEND_URL random backend param w) in
    let w' := snd (GET BACKEND_URL random backend param w) in
    (forall user q st data ws,
        param = Some user -> trim user <> [] ->
        encodeURIComponent (trim user) = Some q ->
        backend (backend_url BACKEND_URL q) = Resolved st (Some data) ->
        ok st = true -> success data = true -> wallets data = Some ws ->
        draws w' = (2 * estimates_needed ws + draws w)%nat)
    /\ (forall user q,
          param = Some user -> trim user <> [] ->
          encodeURIComponent (trim user) = Some q ->
          backend_fails backend (backend_url BACKEND_URL q)
          \/ (exists data, answered backend (backend_url BACKEND_URL q) data
                           /\ (success data = false \/ wallets data = None)) ->
          draws w' = draws w)
    /\ (status response = 400 -> draws w' = draws w).
Proof.
  intros BACKEND_URL random backend param w response w'. subst response w'.
  pose proof (GET_cases BACKEND_URL random backend param w) as H. cbv zeta in H.
  split; [|split].
  - intros user q st data ws Hp Hu He Hb Ho Hs Hw. subst param.
    GET_case H; rewrite G; cbn [snd].
    + destruct H as [H|(u & P & B)]; [discriminate|]. inversion P; subst u.
      apply blank_trim in Hu. congruence.
    + inversion P; subst user'. congruence.
    + inversion P; subst user'. rewrite He in E. inversion E; subst q'. exfalso.
      apply (backend_fails_not_answered backend _ data F). now exists st.
    + inversion P; subst user'. rewrite He in E. inversion E; subst q'.
      destruct A as (st' & Hb' & _). rewrite Hb in Hb'. inversion Hb'; subst.
      destruct H; congruence.
    + inversion P; subst user'. rewrite He in E. inversion E; subst q'.
      destruct A as (st' & Hb' & _). rewrite Hb in Hb'. inversion Hb'; subst.
      rewrite Hw in W. inversion W; subst. reflexivity.
  - intros user q Hp Hu He Hc. subst param.
    GET_case H; rewrite G; cbn [snd]; trivial.
    inversion P; subst user'. rewrite He in E. inversion E; subst q'.
    destruct Hc as [Hf|(data & Ha & Hd)].
    + exfalso. exact (backend_fails_not_answered backend _ data' Hf A).
    + destruct A as (st & Hb & _), Ha as (st' & Hb' & _).
      rewrite Hb in Hb'. inversion Hb'; subst. destruct Hd; congruence.
  - GET_case H; rewrite G; cbn [fst snd status backend_unavailable]; trivial;
      discriminate.
Qed.


(** X7.  When the backend answers with a 2xx status and a report object,
    the answer has status 200 and carries the report's [success],
    [username], [fid], [display_name], [pfp_url], [primary_wallet] and
    [error] as they came; a report of a failure, or one without wallets, is
    returned whole; nothing is written to [console.error]. *)
Theorem backend_answer_is_passed_through :
  forall BACKEND_URL random backend (user q : jsstring) st (data : GasData)
         (w : World),
    trim user <> [] ->
    encodeURIComponent (trim user) = Some q ->
    backend (backend_url BACKEND_URL q) = Resolved st (Some data) ->
    ok st = true ->
    let (response, w') := GET BACKEND_URL random backend (Some user) w in
    status response = 200
    /\ success (body response) = success data
    /\ username (body response) = username data
    /\ fid (body response) = fid data
    /\ display_name (body response) = display_name data
    /\ pfp_url (body response) = pfp_url data
    /\ primary_wallet (body response) = primary_wallet data
    /\ error (body response) = error data
    /\ (success data = false \/ wallets data = None -> body response = data)
    /\ console w' = console w.
Proof.
  intros BACKEND_URL random backend user q st data w Hu E Hb Hok.
  destruct (success data) eqn:S; [destruct (wallets data) as [ws|] eqn:W|].
  - destruct (GET_success BACKEND_URL random backend user q st data ws w Hu E Hb Hok S W)
      as (ws' & k & _ & ->).
    cbn. repeat split; trivial. intros [H|H]; discriminate.
  - rewrite (GET_passes BACKEND_URL random backend user q data w Hu E);
      [|now exists st|now right].
    cbn. repeat split; trivial.
  - rewrite (GET_passes BACKEND_URL random backend user q data w Hu E);
      [|now exists st|now left].
    cbn. repeat split; trivial.
Qed.

Lemma passed_through_witness :
  let (response, w') :=
    GET Sample.BACKEND_URL Sample.random
      (Sample.answers (Sample.found (Some [Sample.wallet])))
      (Some (lit "dwr.eth")) Sample.world in
  status response = 200
  /\ success (body response) = true
  /\ username (body response) = Some (lit "dwr.eth")
  /\ fid (body response) = Some 3
  /\ display_name (body response) = Some (lit "Dan Romero")
  /\ pfp_url (body response) = None
  /\ primary_wallet (body response) = None
  /\ error (body response) = None
  /\ (true = false \/ Some [Sample.wallet] = None ->
      body response = Sample.found (Some [Sample.wallet]))
  /\ console w' = [].
Proof.
  apply (backend_answer_is_passed_through Sample.BACKEND_URL Sample.random
           (Sample.answers (Sample.found (Some [Sample.wallet])))
           (lit "dwr.eth") (lit "dwr.eth") 200
           (Sample.found (Some [Sample.wallet])) Sample.world).
  - discriminate.
  - reflexivity.
  - reflexivity.
  - reflexivity.
Defined.

Lemma enriched_idle random w ws ws' w' :
  forallb idle ws = true ->
  enriched random w ws ws' w' ->
  ws' = map (fun x => with_gas x zero_gas zero_gas) ws.
Proof.
  intros Hi HE. induction HE as [w|w wallet ws g1 g2 w1 w2 ws' w3 E1 E2 _ IH];
    [reflexivity|].
  cbn [forallb] in Hi. apply andb_true_iff in Hi. destruct Hi as [Hw Hi].
  unfold idle, needs_estimate in Hw. rewrite !negb_involutive in Hw.
  apply andb_true_iff in Hw. destruct Hw as [H1 H2].
  rewrite generateMockGasData_eq, H1 in E1. inversion E1; subst.
  rewrite generateMockGasData_eq, H2 in E2. inversion E2; subst.
  cbn [map]. f_equal. now apply IH.
Qed.

Lemma estimates_needed_idle ws :
  forallb idle ws = true -> estimates_needed ws = 0%nat.
Proof.
  unfold estimates_needed. induction ws as [|x ws IH]; [reflexivity|].
  cbn [forallb flat_map app filter]. intros H. apply andb_true_iff in H.
  destruct H as [Hx H]. unfold idle in Hx. apply andb_true_iff in Hx.
  destruct Hx as [H1 H2]. apply negb_true_iff in H1, H2. rewrite H1, H2.
  now apply IH.
Qed.

Lemma sum_from_zero (f : Wallet -> number) ws :
  Forall (fun x => f x = 0%float) ws -> sum_from f ws 0%float = 0%float.
Proof.
  unfold sum_from. induction 1 as [|x ws Hx _ IH]; [reflexivity|].
  cbn [fold_left]. rewrite Hx. exact IH.
Qed.

(** X8.  When no wallet of a successful answer has a transaction on either
    chain, every wallet gets the zero estimate for both chains, the three
    totals are 0 and [Math.random] is not called. *)
Theorem wallets_without_transactions_cost_nothing :
  forall BACKEND_URL random backend (user q : jsstring) st (data : GasData)
         (ws : list Wallet) (w : World),
    trim user <> [] ->
    encodeURIComponent (trim user) = Some q ->
    backend (backend_url BACKEND_URL q) = Resolved st (Some data) ->
    ok st = true ->
    success data = true ->
    wallets data = Some ws ->
    forallb idle ws = true ->
    let (response, w') := GET BACKEND_URL random backend (Some user) w in
    wallets (body response)
    = Some (map (fun x => with_gas x zero_gas zero_gas) ws)
    /\ total_gas_used_eth (body response) = Some 0%float
    /\ total_gas_used_base (body response) = Some 0%float
    /\ total_gas_usd (body response) = Some 0%float
    /\ draws w' = draws w.
Proof.
  intros BACKEND_URL random backend user q st data ws w Hu E Hb Hok S W Hi.
  destruct (GET_success BACKEND_URL random backend user q st data ws w Hu E Hb Hok S W)
    as (ws' & k & HE & ->).
  pose proof (enriched_world random _ _ _ _ HE) as Hk.
  rewrite (estimates_needed_idle ws Hi) in Hk.
  rewrite (enriched_idle random _ _ _ _ Hi HE).
  cbn [body with_totals wallets total_gas_used_eth total_gas_used_base
       total_gas_usd totalGasETH totalGasBase totalGasUSD].
  unfold sum. rewrite !sum_from_zero.
  - repeat split; trivial. rewrite Hk. reflexivity.
  - apply Forall_map. apply Forall_forall. reflexivity.
  - apply Forall_map. apply Forall_forall. reflexivity.
  - apply Forall_map. apply Forall_forall. reflexivity.
Qed.


Lemma no_transactions_witness :
  let (response, w') :=
    GET Sample.BACKEND_URL Sample.random
      (Sample.answers (Sample.found (Some [Sample.dormant_wallet; Sample.dormant_wallet])))
      (Some (lit "dwr.eth")) Sample.world in
  wallets (body response)
  = Some (map (fun x => with_gas x zero_gas zero_gas)
            [Sample.dormant_wallet; Sample.dormant_wallet])
  /\ total_gas_used_eth (body response) = Some 0%float
  /\ total_gas_used_base (body response) = Some 0%float
  /\ total_gas_usd (body response) = Some 0%float
  /\ draws w' = 0%nat.
Proof.
  apply (wallets_without_transactions_cost_nothing Sample.BACKEND_URL Sample.random
           (Sample.answers (Sample.found (Some [Sample.dormant_wallet; Sample.dormant_wallet])))
           (lit "dwr.eth") (lit "dwr.eth") 200
           (Sample.found (Some [Sample.dormant_wallet; Sample.dormant_wallet]))
           [Sample.dormant_wallet; Sample.dormant_wallet] Sample.world).
  - discriminate.
  - reflexivity.
  - reflexivity.
  - reflexivity.
  - reflexivity.
  - reflexivity.
  - reflexivity.
Defined.

(** X9.  [Number(x.toFixed(f))] is idempotent on the amounts of the route:
    for [0 <= x <= 2^K] with [K + 4 f <= 50], the rounded value is finite,
    not negative, and rounding it again returns it unchanged. *)
Theorem rounding_is_idempotent :
  forall (x : number) (f K : Z),
    0 <= f <= 20 -> 0 <= K -> K + 4 * f <= 50 ->
    (0 <=? x)%float = true -> (x <=? of_Z (2 ^ K))%float = true ->
    let c := Number (toFixed x f) in
    Number (toFixed c f) = c
    /\ is_finite c = true /\ (0 <=? c)%float = true.
Proof.
  intros x f K Hf HK HKf H0 H1 c.
  assert (H53 : 0 <= 2 ^ K < 2 ^ 53).
  { split; [apply Z.pow_nonneg; lia|apply pow2_lt; lia]. }
  destruct (leb_zero_of_Z_nonneg x (2 ^ K) H53 H0 H1) as [N Hx].
  rewrite <- (pow2_split K 1074) in Hx by lia.
  destruct (round_props x f K Hf HK HKf N Hx) as (Nc & Hfix & _).
  split; [exact Hfix|]. split; [now apply nonneg_is_finite|now apply nonneg_leb].
Qed.

Lemma rounding_witness :
  let c := Number (toFixed 1234.5678915%float 6) in
  Number (toFixed c 6) = c /\ is_finite c = true /\ (0 <=? c)%float = true.
Proof.
  apply (rounding_is_idempotent 1234.5678915%float 6 11); try lia; reflexivity.
Defined.

(** X10.  For a successful answer with at most 1000 wallets whose counts
    are whole numbers up to [2^14], and draws in [0, 1), the three totals
    are the doubles nearest to the exact decimal sums of the amounts of the
    returned wallets: the additions of the route lose nothing that the
    final rounding does not restore. *)
Theorem totals_are_exact_decimal_sums :
  forall BACKEND_URL random backend (user q : jsstring) st (data : GasData)
         (ws : list Wallet) (w : World),
    trim user <> [] ->
    encodeURIComponent (trim user) = Some q ->
    backend (backend_url BACKEND_URL q) = Resolved st (Some data) ->
    ok st = true ->
    success data = true ->
    wallets data = Some ws ->
    unit_draws random ->
    Forall small_counts ws ->
    (List.length ws <= 1000)%nat ->
    let response := fst (GET BACKEND_URL random backend (Some user) w) in
    exists ws',
      wallets (body response) = Some ws'
      /\ total_gas_used_eth (body response)
         = Some (Number (FixedDecimal false (micro_eth ws') 6))
      /\ total_gas_used_base (body response)
         = Some (Number (FixedDecimal false (micro_base ws') 6))
      /\ total_gas_usd (body response)
         = Some (Number (FixedDecimal false (cents ws') 2)).
Proof.
  intros BACKEND_URL random backend user q st data ws w Hu E Hb Hok S W Hr Hc Hl response.
  destruct (GET_success BACKEND_URL random backend user q st data ws w Hu E Hb Hok S W)
    as (ws' & k & HE & G).
  subst response. rewrite G. exists ws'.
  cbn [fst body with_totals wallets total_gas_used_eth total_gas_used_base
       total_gas_usd totalGasETH totalGasBase totalGasUSD].
  pose proof (enriched_realistic random _ _ _ _ Hr Hc HE) as HR.
  assert (Hl' : (List.length ws' <= 1000)%nat)
    by (rewrite (enriched_length random _ _ _ _ HE); exact Hl).
  pose proof (aggregate_exact ws' HR Hl') as HA. unfold aggregate, round6, round2 in HA.
  inversion HA as [[H1 H2 H3]]. rewrite H1, H2, H3. repeat split.
Qed.

Lemma exact_totals_witness :
  let response :=
    fst (GET Sample.BACKEND_URL Sample.random
           (Sample.answers (Sample.found (Some [Sample.wallet; Sample.second_wallet])))
           (Some (lit "dwr.eth")) Sample.world) in
  exists ws',
    wallets (body response) = Some ws'
    /\ total_gas_used_eth (body response)
       = Some (Number (FixedDecimal false (micro_eth ws') 6))
    /\ total_gas_used_base (body response)
       = Some (Number (FixedDecimal false (micro_base ws') 6))
    /\ total_gas_usd (body response)
       = Some (Number (FixedDecimal false (cents ws') 2)).
Proof.
  apply (totals_are_exact_decimal_sums Sample.BACKEND_URL Sample.random
           (Sample.answers (Sample.found (Some [Sample.wallet; Sample.second_wallet])))
           (lit "dwr.eth") (lit "dwr.eth") 200
           (Sample.found (Some [Sample.wallet; Sample.second_wallet]))
           [Sample.wallet; Sample.second_wallet] Sample.world).
  - discriminate.
  - reflexivity.
  - reflexivity.
  - reflexivity.
  - reflexivity.
  - reflexivity.
  - exact sample_draws.
  - repeat constructor.
    + exists 100. split; [lia|reflexivity].
    + exists 50. split; [lia|reflexivity].
    + exists 7. split; [lia|reflexivity].
    + exists 0. split; [lia|reflexivity].
  - cbn. lia.
Defined.


(** * The search form *)


Lemma handleSearch_answered server s q st result w :
  trim (GasChecker.username s) <> [] ->
  encodeURIComponent (trim (GasChecker.username s)) = Some q ->
  server (lit "/api/gas?username=" ++ q) = Resolved st (Some result) ->
  GasChecker.handleSearch server s w =
  (GasChecker.setLoading false
     (if success result
      then GasChecker.setData (Some result)
             (GasChecker.setData None
                (GasChecker.setError None (GasChecker.setLoading true s)))
      else GasChecker.setError
             (Some (GasChecker.or_else (error result) GasChecker.user_not_found))
             (GasChecker.setData None
                (GasChecker.setError None (GasChecker.setLoading true s)))),
   logged (lit "/api/gas?username=" ++ q) w).
Proof.
  intros Hu E Hs. unfold GasChecker.handleSearch.
  destruct (trim (GasChecker.username s)) eqn:T; [congruence|]. rewrite <- T in *.
  unfold try_catch, bind, GasChecker.request, bind, fetch. rewrite E. cbn [ret].
  rewrite Hs. reflexivity.
Qed.

Lemma GET_nonblank_status BACKEND_URL random backend user w :
  blank user = false ->
  status (fst (GET BACKEND_URL random backend (Some user) w)) <> 400.
Proof.
  intros Bu. pose proof (GET_cases BACKEND_URL random backend (Some user) w) as H.
  cbv zeta in H. GET_case H; rewrite G; cbn; try discriminate.
  destruct H as [H|(u & P & B)]; [discriminate|]. inversion P; subst u. congruence.
Qed.

(** X11.  [handleSearch] leaves the typed name and the copy marker alone.
    On a blank name it does nothing at all.  Otherwise it ends with
    [loading] false and with either the answer as [data] (a successful one,
    and no error), or no data and an error message that is not empty; it
    sends at most one request, to ["/api/gas?username=" + q] with [q] the
    encoded trimmed name. *)
Theorem search_ends_with_data_or_a_message :
  forall (server : jsstring -> FetchResult) (s : GasChecker.State) (w : World),
    let (s', w') := GasChecker.handleSearch server s w in
    GasChecker.username s' = GasChecker.username s
    /\ GasChecker.copied s' = GasChecker.copied s
    /\ (blank (GasChecker.username s) = true -> s' = s /\ w' = w)
    /\ (blank (GasChecker.username s) = false ->
        GasChecker.loading s' = false
        /\ ((exists result,
               GasChecker.data s' = Some result /\ success result = true
               /\ GasChecker.error s' = None)
            \/ (GasChecker.data s' = None
                /\ exists m, GasChecker.error s' = Some m /\ m <> []))
        /\ (fetched w' = fetched w
            \/ exists q,
                 encodeURIComponent (trim (GasChecker.username s)) = Some q
                 /\ fetched w' = fetched w ++ [lit "/api/gas?username=" ++ q])).
Proof.
  intros server s w. unfold GasChecker.handleSearch.
  destruct (trim (GasChecker.username s)) as [|c t] eqn:T.
  { split; [reflexivity|]. split; [reflexivity|]. split; [now split|].
    intros B. apply blank_trim in B. congruence. }
  rewrite <- T.
  assert (Hb : blank (GasChecker.username s) = true -> False).
  { intros B. apply trim_blank in B. congruence. }
  assert (Hm : forall m : jsstring, m <> [] ->
                 exists m', Some m = Some m' /\ m' <> []) by eauto.
  unfold try_catch, bind, GasChecker.request, bind, fetch.
  destruct (encodeURIComponent (trim (GasChecker.username s))) as [q|] eqn:E; cbn [ret throw].
  2:{ cbn. split; [reflexivity|]. split; [reflexivity|].
      split; [intros B; now destruct (Hb B)|]. intros _.
      split; [reflexivity|]. split; [|now left].
      right. split; [reflexivity|]. apply Hm. discriminate. }
  destruct (server (lit "/api/gas?username=" ++ q)) as [|st [result|]] eqn:Hs.
  - cbn. split; [reflexivity|]. split; [reflexivity|].
    split; [intros B; now destruct (Hb B)|]. intros _.
    split; [reflexivity|]. split; [|right; now exists q].
    right. split; [reflexivity|]. apply Hm. discriminate.
  - unfold GasChecker.result_success, GasChecker.result_error. cbn.
    destruct (success result) eqn:S; cbn;
      (split; [reflexivity|]); (split; [reflexivity|]);
      (split; [intros B; now destruct (Hb B)|]); intros _;
      (split; [reflexivity|]); (split; [|right; now exists q]).
    + left. now exists result.
    + right. split; [reflexivity|]. apply Hm.
      unfold GasChecker.or_else. destruct (error result) as [[|? ?]|]; discriminate.
  - cbn. split; [reflexivity|]. split; [reflexivity|].
    split; [intros B; now destruct (Hb B)|]. intros _.
    split; [reflexivity|]. split; [|right; now exists q].
    right. split; [reflexivity|]. apply Hm. discriminate.
Qed.

(** X12.  The page in front of the route: when the server answers the
    page's request with what [GET] returns for the trimmed name, the answer
    is never the 400 of a missing user name; a 503 shows the route's own
    message, a successful body becomes the page's data, and a body that
    reports a failure shows its error, or "User not found" when it has
    none. *)
Theorem search_through_the_route :
  forall BACKEND_URL random backend (server : jsstring -> FetchResult)
         (s : GasChecker.State) (q : jsstring) (w w0 : World),
    blank (GasChecker.username s) = false ->
    encodeURIComponent (trim (GasChecker.username s)) = Some q ->
    let response :=
      fst (GET BACKEND_URL random backend (Some (trim (GasChecker.username s))) w0) in
    server (lit "/api/gas?username=" ++ q)
      = Resolved (status response) (Some (body response)) ->
    let s' := fst (GasChecker.handleSearch server s w) in
    status response <> 400
    /\ (status response = 503 ->
        GasChecker.data s' = None
        /\ GasChecker.error s' =
           Some (lit "Could not connect to backend. Make sure Python server is running on port 8000."))
    /\ (status response = 200 -> success (body response) = true ->
        GasChecker.data s' = Some (body response) /\ GasChecker.error s' = None)
    /\ (status response = 200 -> success (body response) = false ->
        GasChecker.data s' = None
        /\ GasChecker.error s'
           = Some (GasChecker.or_else (error (body response))
                     GasChecker.user_not_found)).
Proof.
  intros BACKEND_URL random backend server s q w w0 Bs Es response Hs s'.
  pose proof (proj1 (blank_trim _) Bs) as Hu.
  subst s'. rewrite (handleSearch_answered server s q _ _ w Hu Es Hs). cbn [fst].
  assert (B' : blank (trim (GasChecker.username s)) = false).
  { apply blank_trim. rewrite (trim_fixed (trim (GasChecker.username s)) (trim_head _) (trim_last _)).
    exact Hu. }
  split.
  { exact (GET_nonblank_status BACKEND_URL random backend _ w0 B'). }
  pose proof (GET_cases BACKEND_URL random backend
                (Some (trim (GasChecker.username s))) w0) as H.
  cbv zeta in H. fold response in H.
  split; [|split].
  - intros H503.
    assert (Hr : response = backend_unavailable (trim (GasChecker.username s))).
    { subst response. GET_case H; rewrite G in *; cbn [fst] in *; try discriminate;
        inversion P; subst; reflexivity. }
    rewrite Hr. cbn. split; reflexivity.
  - intros _ S. rewrite S. split; reflexivity.
  - intros _ S. rewrite S. split; reflexivity.
Qed.

Lemma search_through_the_route_witness :
  let s' :=
    fst (GasChecker.handleSearch (Sample.route_behind Sample.down (lit "dwr.eth"))
           Sample.typed_name Sample.world) in
  GasChecker.data s' = None
  /\ GasChecker.error s' =
     Some (lit "Could not connect to backend. Make sure Python server is running on port 8000.").
Proof.
  exact (proj1 (proj2
           (search_through_the_route Sample.BACKEND_URL Sample.random Sample.down
              (Sample.route_behind Sample.down (lit "dwr.eth")) Sample.typed_name
              (lit "dwr.eth") Sample.world Sample.world
              eq_refl eq_refl eq_refl))
         eq_refl).
Defined.


(** * The price drawn *)

(** ** Rounding onto a grid is monotone *)

Lemma pow2_divide a b : 0 <= a <= b -> (2 ^ a | 2 ^ b).
Proof.
  intros H. exists (2 ^ (b - a)). rewrite <- pow2_split by lia. f_equal. lia.
Qed.

Lemma grid_le R C u : 0 < u -> (u | R) -> (u | C) -> R < C + u -> R <= C.
Proof.
  intros Hu [r ->] [c ->] H.
  assert (r < c + 1) by (apply (Z.mul_lt_mono_pos_r u); lia).
  apply Z.mul_le_mono_nonneg_r; lia.
Qed.

Lemma grid_ge R C u : 0 < u -> (u | R) -> (u | C) -> C - u < R -> C <= R.
Proof.
  intros Hu [r ->] [c ->] H.
  assert (c - 1 < r) by (apply (Z.mul_lt_mono_pos_r u); lia).
  apply Z.mul_le_mono_nonneg_r; lia.
Qed.

(** A product does not exceed a bound on the grid of its binade that the
    exact product does not exceed; likewise from below. *)
Lemma mul_grid x y K :
  nonneg x -> nonneg y -> F2Z x * F2Z y < 2 ^ (K + 2148) -> -1021 <= K <= 1023 ->
  nonneg (x * y)
  /\ (forall C, (2 ^ (K - 53 + 1074) | C) ->
                F2Z x * F2Z y <= C * 2 ^ 1074 -> F2Z (x * y) <= C)
  /\ (forall C, (2 ^ (K - 53 + 1074) | C) ->
                C * 2 ^ 1074 <= F2Z x * F2Z y -> C <= F2Z (x * y))
  /\ (forall C X, (2 ^ (K - 53 + 1074) | C) -> 0 <= X ->
                F2Z x * F2Z y <= C * 2 ^ 1074 + X ->
                2 ^ 54 * X < C * 2 ^ 1074 -> F2Z (x * y) <= C).
Proof.
  intros Nx Ny HK HKr.
  destruct (mul_props_ulp x y K Nx Ny HK ltac:(lia)) as (N & e1 & He1 & Hdiv & Herr & Hulp).
  rewrite Z.max_l in He1 by lia.
  pose proof (pow2_pos (e1 + 1074) ltac:(lia)) as Hu.
  pose proof (pow2_pos 1074 ltac:(lia)) as HW.
  replace (e1 + 2148) with ((e1 + 1074) + 1074) in Herr by lia.
  rewrite (pow2_split (e1 + 1074) 1074) in Herr by lia.
  assert (Hd : forall C, (2 ^ (K - 53 + 1074) | C) -> (2 ^ (e1 + 1074) | C)).
  { intros C HC. eapply Z.divide_trans; [|exact HC]. apply pow2_divide. lia. }
  set (R := F2Z (x * y)) in *. set (P := F2Z x * F2Z y) in *.
  set (u := 2 ^ (e1 + 1074)) in *. set (W := 2 ^ 1074) in *.
  clearbody R P u W. clear - Hu HW Herr Hdiv Hd N Hulp.
  split; trivial. split; [|split].
  - intros C HC HP. apply (grid_le R C u); auto.
    destruct (Z.lt_ge_cases R (C + u)) as [|Hge]; trivial. exfalso.
    assert (0 <= (R - (C + u)) * W) by (apply Z.mul_nonneg_nonneg; lia).
    assert (0 < u * W) by (apply Z.mul_pos_pos; lia). lia.
  - intros C HC HP. apply (grid_ge R C u); auto.
    destruct (Z.lt_ge_cases (C - u) R) as [|Hge]; trivial. exfalso.
    assert (0 <= (C - u - R) * W) by (apply Z.mul_nonneg_nonneg; lia).
    assert (0 < u * W) by (apply Z.mul_pos_pos; lia). lia.
  - intros C X HC HX HP Hnear. apply (grid_le R C u); auto.
    destruct (Z.lt_ge_cases R (C + u)) as [|Hge]; trivial. exfalso.
    assert (0 <= (R - (C + u)) * W) by (apply Z.mul_nonneg_nonneg; lia).
    assert (0 < u * W) by (apply Z.mul_pos_pos; lia).
    assert (HuX : u * W <= 2 * X) by lia.
    assert (R * W <= 2 ^ 53 * u * W) by (apply Z.mul_le_mono_nonneg_r; lia).
    change (2 ^ 54) with (2 * 2 ^ 53) in Hnear.
    assert (2 ^ 53 * (u * W) <= 2 ^ 53 * (2 * X)) by (apply Z.mul_le_mono_nonneg_l; lia).
    assert (C * W < R * W) by (apply Z.mul_lt_mono_pos_r; lia).
    lia.
Qed.

Lemma add_grid x y K :
  nonneg x -> nonneg y -> F2Z x + F2Z y < 2 ^ (K + 1074) -> -1021 <= K <= 1023 ->
  nonneg (x + y)
  /\ (forall C, (2 ^ (K - 53 + 1074) | C) -> F2Z x + F2Z y <= C -> F2Z (x + y) <= C)
  /\ (forall C, (2 ^ (K - 53 + 1074) | C) -> C <= F2Z x + F2Z y -> C <= F2Z (x + y)).
Proof.
  intros Nx Ny HK HKr.
  destruct (add_props x y K Nx Ny HK HKr) as (N & _ & _ & e1 & He1 & Hdiv & Herr).
  pose proof (pow2_pos (e1 + 1074) ltac:(lia)) as Hu.
  assert (Hd : forall C, (2 ^ (K - 53 + 1074) | C) -> (2 ^ (e1 + 1074) | C)).
  { intros C HC. eapply Z.divide_trans; [|exact HC]. apply pow2_divide. lia. }
  set (R := F2Z (x + y)) in *. set (S := F2Z x + F2Z y) in *.
  set (u := 2 ^ (e1 + 1074)) in *.
  clearbody R S u. clear - Hu Herr Hdiv Hd N.
  split; trivial. split.
  - intros C HC HS. apply (grid_le R C u); auto. lia.
  - intros C HC HS. apply (grid_ge R C u); auto. lia.
Qed.


(** ** The two price formulas *)

Lemma divide_scaled c a b : 0 <= a <= b -> (2 ^ a | c * 2 ^ b).
Proof. intros H. apply Z.divide_mul_r. now apply pow2_divide. Qed.

Lemma gasPrice_eth_range r :
  (0 <=? r)%float = true -> (r <? 1)%float = true ->
  nonneg (gasPrice eth r)
  /\ 2 * 10 ^ 10 * 2 ^ 1074 <= F2Z (gasPrice eth r) <= 5 * 10 ^ 10 * 2 ^ 1074.
Proof.
  intros H0 H1. destruct (unit_interval r H0 H1) as [N Hr].
  pose proof (nonneg_F2Z r N) as Hr0.
  pose proof (pow2_pos 1074 ltac:(lia)) as HW.
  cbn [gasPrice]. rewrite const_30, const_20, const_1e9.
  destruct (of_Z_props 30 ltac:(lia)) as [N30 E30].
  destruct (of_Z_props 20 ltac:(lia)) as [N20 E20].
  destruct (of_Z_props (10 ^ 9) ltac:(lia)) as [N9 E9].
  assert (E2148 : forall k, 0 <= k -> 2 ^ (k + 2148) = 2 ^ k * (2 ^ 1074 * 2 ^ 1074)).
  { intros k Hk. rewrite <- (pow2_split 1074 1074), <- pow2_split by lia. reflexivity. }
  (* r * 30 *)
  assert (P1 : F2Z r * F2Z (of_Z 30) <= 30 * 2 ^ 1074 * 2 ^ 1074).
  { rewrite E30. set (W := 2 ^ 1074) in *. clearbody W. nia. }
  destruct (mul_grid r (of_Z 30) 5 N N30) as (N1 & U1 & _); [|lia|].
  { rewrite E2148 by lia. change (2 ^ 5) with 32.
    set (W := 2 ^ 1074) in *. set (P := F2Z r * F2Z (of_Z 30)) in *.
    assert (0 < W * W) by (apply Z.mul_pos_pos; lia). clearbody W P. lia. }
  specialize (U1 (30 * 2 ^ 1074) (divide_scaled 30 (5 - 53 + 1074) 1074 ltac:(lia)) P1).
  pose proof (nonneg_F2Z _ N1) as L1.
  (* + 20 *)
  destruct (add_grid (r * of_Z 30) (of_Z 20) 6 N1 N20) as (N2 & U2 & L2); [|lia|].
  { rewrite E20, (pow2_split 6 1074) by lia. change (2 ^ 6) with 64. lia. }
  specialize (U2 (50 * 2 ^ 1074) (divide_scaled 50 (6 - 53 + 1074) 1074 ltac:(lia)) ltac:(lia)).
  specialize (L2 (20 * 2 ^ 1074) (divide_scaled 20 (6 - 53 + 1074) 1074 ltac:(lia)) ltac:(lia)).
  (* * 1e9 *)
  set (x := (r * of_Z 30 + of_Z 20)%float) in *.
  destruct (mul_grid x (of_Z (10 ^ 9)) 36 N2 N9) as (N3 & U3 & L3 & _); [|lia|].
  { rewrite E9, E2148 by lia.
    assert (50 * 10 ^ 9 < 2 ^ 36) by (vm_compute; reflexivity).
    set (W := 2 ^ 1074) in *. set (X := F2Z x) in *. clearbody W X. nia. }
  split; [exact N3|]. split.
  - apply (L3 (2 * 10 ^ 10 * 2 ^ 1074)); [apply divide_scaled; lia|].
    rewrite E9. set (W := 2 ^ 1074) in *. set (X := F2Z x) in *. clearbody W X.
    change (10 ^ 10) with (10 * 10 ^ 9). nia.
  - apply (U3 (5 * 10 ^ 10 * 2 ^ 1074)); [apply divide_scaled; lia|].
    rewrite E9. set (W := 2 ^ 1074) in *. set (X := F2Z x) in *. clearbody W X.
    change (10 ^ 10) with (10 * 10 ^ 9). nia.
Qed.

Lemma gasPrice_base_range r :
  (0 <=? r)%float = true -> (r <? 1)%float = true ->
  nonneg (gasPrice base r)
  /\ 10 ^ 6 * 2 ^ 1074 <= F2Z (gasPrice base r) <= 10 ^ 7 * 2 ^ 1074.
Proof.
  intros H0 H1. destruct (unit_interval r H0 H1) as [N Hr].
  pose proof (nonneg_F2Z r N) as Hr0.
  cbn [gasPrice]. rewrite const_1e9.
  destruct (const_value _ _ _ const_0_009) as [Na Ea].
  destruct (const_value _ _ _ const_0_001) as [Nb Eb].
  destruct (of_Z_props (10 ^ 9) ltac:(clear; lia)) as [N9 E9].
  change (-59 + 1074) with 1015 in Ea. change (-62 + 1074) with 1012 in Eb.
  pose proof (pow2_pos 1012 ltac:(clear; lia)) as HV.
  assert (EW : 2 ^ 1074 = 2 ^ 62 * 2 ^ 1012)
    by (rewrite <- pow2_split by (clear; lia); reflexivity).
  assert (E1015 : 2 ^ 1015 = 2 ^ 3 * 2 ^ 1012)
    by (rewrite <- pow2_split by (clear; lia); reflexivity).
  assert (E1065 : 2 ^ 1065 = 2 ^ 53 * 2 ^ 1012)
    by (rewrite <- pow2_split by (clear; lia); reflexivity).
  assert (E1068 : 2 ^ 1068 = 2 ^ 56 * 2 ^ 1012)
    by (rewrite <- pow2_split by (clear; lia); reflexivity).
  assert (E2148 : forall k, 0 <= k + 1074 -> 2 ^ (k + 2148) = 2 ^ (k + 1074) * 2 ^ 1074).
  { clear. intros k Hk. rewrite <- pow2_split by lia. f_equal. lia. }
  rewrite E1015 in Ea.
  set (A := F2Z 0.009) in *. set (B := F2Z 0.001) in *.
  assert (HA : 0 <= A < 2 ^ 56 * 2 ^ 1012) by (clear - Ea HV; zlia).
  (* r * 0.009 *)
  destruct (mul_grid r 0.009 (-6) N Na) as (N1 & U1 & _); [|clear; lia|].
  { rewrite E2148 by (clear; lia). change (-6 + 1074) with 1068. rewrite E1068. fold A.
    assert (T1 : F2Z r * A <= 2 ^ 1074 * A)
      by (apply Z.mul_le_mono_nonneg_r; [apply HA|apply Z.lt_le_incl, Hr]).
    assert (T2 : 2 ^ 1074 * A < 2 ^ 1074 * (2 ^ 56 * 2 ^ 1012))
      by (apply Z.mul_lt_mono_pos_l; [apply pow2_pos; clear; lia|apply HA]).
    clear - T1 T2. zlia. }
  fold A in U1.
  assert (R1 : F2Z (r * 0.009) <= A).
  { apply U1.
    - change (-6 - 53 + 1074) with 1015. rewrite Ea, <- E1015. apply Z.divide_factor_r.
    - rewrite (Z.mul_comm A).
      apply Z.mul_le_mono_nonneg_r; [apply HA|apply Z.lt_le_incl, Hr]. }
  pose proof (nonneg_F2Z _ N1) as L1.
  (* + 0.001 *)
  set (x1 := (r * 0.009)%float) in *.
  assert (HS : F2Z x1 + B < 2 ^ (-6 + 1074)).
  { change (-6 + 1074) with 1068. rewrite E1068. clear - R1 Ea Eb HV. zlia. }
  destruct (add_grid x1 0.001 (-6) N1 Nb HS ltac:(clear; lia)) as (N2 & U2 & L2).
  fold B in U2, L2.
  assert (R2u : F2Z (x1 + 0.001) <= 5764607523034235 * (2 ^ 3 * 2 ^ 1012)).
  { rewrite <- E1015. apply U2.
    - change (-6 - 53 + 1074) with 1015. apply Z.divide_factor_r.
    - rewrite E1015. clear - R1 Ea Eb HV. zlia. }
  assert (R2l : 4611686018427388 * 2 ^ 1012 <= F2Z (x1 + 0.001)).
  { rewrite <- Eb.
    destruct (Z.lt_ge_cases (F2Z x1 + B) (2 ^ (-9 + 1074))) as [Hlt|Hge].
    - destruct (add_grid x1 0.001 (-9) N1 Nb Hlt ltac:(clear; lia)) as (_ & _ & L).
      apply L; [|fold B; clear - L1; zlia].
      change (-9 - 53 + 1074) with 1012. fold B. rewrite Eb. apply Z.divide_factor_r.
    - change (-9 + 1074) with 1065 in Hge.
      assert (T : 2 ^ 1065 <= F2Z (x1 + 0.001)).
      { apply L2; [|exact Hge]. change (-6 - 53 + 1074) with 1015.
        apply pow2_divide. clear. lia. }
      rewrite E1065 in T. clear - T Eb HV. zlia. }
  (* * 1e9 *)
  set (x2 := (x1 + 0.001)%float) in *.
  pose proof (nonneg_F2Z _ N2) as L2'.
  assert (HVV : 0 < 2 ^ 1012 * 2 ^ 1012) by (apply Z.mul_pos_pos; exact HV).
  assert (Up : F2Z x2 * (10 ^ 9 * (2 ^ 62 * 2 ^ 1012))
               <= 5764607523034235 * (2 ^ 3 * 2 ^ 1012) * (10 ^ 9 * (2 ^ 62 * 2 ^ 1012))).
  { apply Z.mul_le_mono_nonneg_r; [clear - HV; zlia|exact R2u]. }
  assert (Lo : 4611686018427388 * 2 ^ 1012 * (10 ^ 9 * (2 ^ 62 * 2 ^ 1012))
               <= F2Z x2 * (10 ^ 9 * (2 ^ 62 * 2 ^ 1012))).
  { apply Z.mul_le_mono_nonneg_r; [clear - HV; zlia|exact R2l]. }
  assert (HP : F2Z x2 * F2Z (of_Z (10 ^ 9)) < 2 ^ (24 + 2148)).
  { rewrite E2148, E9 by (clear; lia). rewrite (pow2_split 24 1074) by (clear; lia).
    rewrite EW. clear - Up HVV. zlia. }
  destruct (mul_grid x2 (of_Z (10 ^ 9)) 24 N2 N9 HP ltac:(clear; lia))
    as (N3 & _ & L3 & U3).
  split; [exact N3|]. split.
  - destruct (Z.lt_ge_cases (F2Z x2 * F2Z (of_Z (10 ^ 9))) (2 ^ (20 + 2148))) as [Hlt|Hge].
    + destruct (mul_grid x2 (of_Z (10 ^ 9)) 20 N2 N9 Hlt ltac:(clear; lia))
        as (_ & _ & L & _).
      apply L; [apply divide_scaled; clear; lia|].
      rewrite E9, EW. clear - Lo HVV. zlia.
    + assert (T : 2 ^ 20 * 2 ^ 1074 <= F2Z (x2 * of_Z (10 ^ 9))).
      { apply L3; [apply divide_scaled; clear; lia|].
        rewrite E2148 in Hge by (clear; lia).
        rewrite (pow2_split 20 1074) in Hge by (clear; lia). exact Hge. }
      pose proof (pow2_pos 1074 ltac:(clear; lia)) as HW.
      clear - T HW. zlia.
  - apply (U3 (10 ^ 7 * 2 ^ 1074) (960000000 * 2 ^ 1012 * 2 ^ 1074));
      [apply divide_scaled; clear; lia| | |].
    + pose proof (pow2_pos 1074 ltac:(clear; lia)) as HW.
      assert (HVW : 0 < 2 ^ 1012 * 2 ^ 1074)
        by (apply Z.mul_pos_pos; [exact HV|exact HW]).
      clear - HVW. zlia.
    + rewrite E9, EW. clear - Up HVV. zlia.
    + rewrite EW. clear - HVV. zlia.
Qed.

(** X13.  For a draw in [0, 1), the gas price is finite and within the
    range the source documents, in wei: from 20 to 50 gwei on [eth] and
    from 0.001 to 0.01 gwei on [base], the roundings of the three
    floating-point operations included. *)
Theorem gas_price_is_in_the_documented_range :
  forall (chain : Chain) (r : number),
    (0 <=? r)%float = true -> (r <? 1)%float = true ->
    is_finite (gasPrice chain r) = true
    /\ match chain with
       | eth => (2e10 <=? gasPrice eth r)%float = true
                /\ (gasPrice eth r <=? 5e10)%float = true
       | base => (1e6 <=? gasPrice base r)%float = true
                 /\ (gasPrice base r <=? 1e7)%float = true
       end.
Proof.
  intros chain r H0 H1.
  assert (HC : forall c, 0 <= c < 2 ^ 53 -> forall x, nonneg x ->
            ((of_Z c <=? x)%float = true <-> c * 2 ^ 1074 <= F2Z x)
            /\ ((x <=? of_Z c)%float = true <-> F2Z x <= c * 2 ^ 1074)).
  { intros c Hc x Nx. destruct (of_Z_props c Hc) as [Nc Ec].
    rewrite (leb_nonneg _ _ Nc Nx), (leb_nonneg _ _ Nx Nc), Ec, !Z.leb_le. tauto. }
  destruct chain.
  - destruct (gasPrice_eth_range r H0 H1) as (N & L & U).
    split; [now apply nonneg_is_finite|].
    change 2e10%float with (of_Z (2 * 10 ^ 10)). change 5e10%float with (of_Z (5 * 10 ^ 10)).
    split; [apply (HC (2 * 10 ^ 10))|apply (HC (5 * 10 ^ 10))]; trivial; lia.
  - destruct (gasPrice_base_range r H0 H1) as (N & L & U).
    split; [now apply nonneg_is_finite|].
    change 1e6%float with (of_Z (10 ^ 6)). change 1e7%float with (of_Z (10 ^ 7)).
    split; [apply (HC (10 ^ 6))|apply (HC (10 ^ 7))]; trivial; lia.
Qed.

Lemma gas_price_witness :
  is_finite (gasPrice base 0.25%float) = true
  /\ (1e6 <=? gasPrice base 0.25%float)%float = true
  /\ (gasPrice base 0.25 <=? 1e7)%float = true.
Proof.
  apply (gas_price_is_in_the_documented_range base 0.25%float); reflexivity.
Defined.
